(** * Free-Flow Plumbing website: interactive features (js/main.js)

    A shallow embedding of [src/plumbing_website/js/main.js] and the
    properties of its five features: mobile menu, FAQ accordion, smooth
    anchor scrolling, scroll reset on load and the header shadow.

    The script only talks to the browser through the DOM, so the embedding
    has two layers:
    - a small model of the part of the browser the script touches (elements
      in document order, class lists, attributes, the window's scroll state,
      the history object, listener registration and event dispatch);
    - the functions of main.js themselves, written in a state-and-exception
      monad over that model, one definition per source function or listener,
      with the source's names. *)

From Stdlib Require Import ZArith QArith String Ascii Bool Lia.
From stdpp Require Import base gmap strings list.

Local Open Scope Z_scope.

(** Scroll offsets are doubles in the browser ([window.pageYOffset] is 10.5
    on a display that scrolls by half pixels).  They are rationals here,
    which every finite double is; comparing them is exact. *)
#[global] Instance Qlt_decision : RelDecision Qlt :=
  λ x y, decide (Qnum x * QDen y < Qnum y * QDen x).
#[global] Instance Qle_decision : RelDecision Qle :=
  λ x y, decide (Qnum x * QDen y <= Qnum y * QDen x).
#[global] Instance Qeq_decision : RelDecision Qeq :=
  λ x y, decide (Qnum x * QDen y = Qnum y * QDen x).

(** ** Elements and the document *)

(** An element reference is the element's position in document order.  The
    script never creates, moves or removes elements, so positions are stable
    identities and [item !== faqItem] is inequality of positions. *)
Abbreviation ElementRef := nat.

(** Lengths are in CSS pixels and integral, as [offsetTop] and
    [offsetHeight] are; the script only subtracts and compares them. *)
Record Element := mkElement {
  tagName : string;                  (* lower case, as selectors match it *)
  parentElement : option ElementRef; (* null for the root element *)
  classList : gset string;
  attributes : gmap string string;
  boxShadow : string;                (* style.boxShadow *)
  offsetTop : Z;
  offsetHeight : Z;
  focusBarred : bool                 (* the browser never focuses the element,
                                        with or without a tabindex: it is not
                                        being rendered (display: none), is
                                        inert, or sits in a disabled fieldset *)
}.

(** The document: every element, in document (pre-)order. *)
Abbreviation Document := (list Element).

(** In a document tree listed in pre-order a parent precedes its children. *)
Definition wf_document (d : Document) : Prop :=
  ∀ i e p, d !! i = Some e → parentElement e = Some p → (p < i)%nat.

Definition wf_documentb (d : Document) : bool :=
  forallb (λ ie : nat * Element,
             match parentElement ie.2 with
             | Some p => Nat.ltb p ie.1
             | None => true
             end) (imap (λ i e, (i, e)) d).

Definition set_classList (f : gset string → gset string) (e : Element) : Element :=
  mkElement (tagName e) (parentElement e) (f (classList e)) (attributes e)
            (boxShadow e) (offsetTop e) (offsetHeight e) (focusBarred e).

Definition set_attributes (f : gmap string string → gmap string string)
    (e : Element) : Element :=
  mkElement (tagName e) (parentElement e) (classList e) (f (attributes e))
            (boxShadow e) (offsetTop e) (offsetHeight e) (focusBarred e).

Definition set_boxShadow (v : string) (e : Element) : Element :=
  mkElement (tagName e) (parentElement e) (classList e) (attributes e)
            v (offsetTop e) (offsetHeight e) (focusBarred e).

(** *** Reading the document *)

Definition hasClass (d : Document) (i : ElementRef) (c : string) : bool :=
  match d !! i with
  | Some e => bool_decide (c ∈ classList e)
  | None => false
  end.

Definition attributeOf (d : Document) (i : ElementRef) (a : string) : option string :=
  e ← d !! i; attributes e !! a.

Definition parentOf (d : Document) (i : ElementRef) : option ElementRef :=
  e ← d !! i; parentElement e.

(** The chain of proper ancestors, nearest first.  The fuel is the number of
    elements, which a parent chain cannot exceed. *)
Fixpoint ancestorsFrom (fuel : nat) (d : Document) (i : ElementRef) : list ElementRef :=
  match fuel with
  | O => []
  | S fuel' =>
      match parentOf d i with
      | Some p => p :: ancestorsFrom fuel' d p
      | None => []
      end
  end.

Definition ancestors (d : Document) (i : ElementRef) : list ElementRef :=
  ancestorsFrom (length d) d i.

(** [a.contains(b)]: [b] is [a] or a descendant of [a]. *)
Definition contains (d : Document) (a b : ElementRef) : bool :=
  bool_decide (a = b) || bool_decide (a ∈ ancestors d b).

(** ** Selectors

    The selector texts that appear literally in main.js, as syntax trees. *)

Inductive SimpleSelector :=
  | SelTag (t : string)                 (* nav *)
  | SelClass (c : string)               (* .faq-item *)
  | SelAttrPrefix (a v : string).       (* [href^="#"] *)

(** A compound selector is a conjunction of simple selectors: a[href^="#"]. *)
Definition CompoundSelector := list SimpleSelector.

Inductive Selector :=
  | Compound (c : CompoundSelector)
  | Descendant (anc c : CompoundSelector).   (* nav a *)

Definition matchesSimple (e : Element) (s : SimpleSelector) : bool :=
  match s with
  | SelTag t => bool_decide (tagName e = t)
  | SelClass c => bool_decide (c ∈ classList e)
  | SelAttrPrefix a v =>
      match attributes e !! a with
      | Some x => negb (bool_decide (v = EmptyString)) && String.prefix v x
      | None => false
      end
  end.

Definition matchesCompound (e : Element) (c : CompoundSelector) : bool :=
  forallb (matchesSimple e) c.

Definition refMatchesCompound (d : Document) (c : CompoundSelector) (i : ElementRef) : bool :=
  match d !! i with
  | Some e => matchesCompound e c
  | None => false
  end.

Definition matchesSelector (d : Document) (s : Selector) (i : ElementRef) : bool :=
  match s with
  | Compound c => refMatchesCompound d c i
  | Descendant anc c =>
      refMatchesCompound d c i && existsb (refMatchesCompound d anc) (ancestors d i)
  end.

(** [document.querySelectorAll(s)]: a static list, in document order. *)
Definition querySelectorAll (d : Document) (s : Selector) : list ElementRef :=
  filter (λ i, matchesSelector d s i = true) (seq 0 (length d)).

(** [document.querySelector(s)]: the first match, or null. *)
Definition querySelector (d : Document) (s : Selector) : option ElementRef :=
  head (querySelectorAll d s).

(** [root.querySelector(s)]: the first match among the descendants of [root]
    (the root itself is never a result). *)
Definition querySelectorIn (d : Document) (root : ElementRef) (s : Selector)
    : option ElementRef :=
  head (filter (λ i, root ∈ ancestors d i) (querySelectorAll d s)).

Definition sel_mobile_menu_toggle : Selector := Compound [SelClass "mobile-menu-toggle"].
Definition sel_nav : Selector := Compound [SelTag "nav"].
Definition sel_nav_a : Selector := Descendant [SelTag "nav"] [SelTag "a"].
Definition sel_faq_question : Selector := Compound [SelClass "faq-question"].
Definition sel_faq_item : Selector := Compound [SelClass "faq-item"].
Definition sel_anchor_links : Selector := Compound [SelTag "a"; SelAttrPrefix "href" "#"].
Definition sel_header : Selector := Compound [SelTag "header"].

(** ** The page: everything the script can read or change *)

Inductive JsError := TypeError | SyntaxError | SecurityError.

Inductive ScrollBehavior := BehaviorAuto | BehaviorSmooth.

(** One call of [window.scrollTo]; [scrollLeft = None] when the options
    object has no [left] member. *)
Record ScrollCall := mkScrollCall {
  scrollLeft : option Z;
  scrollTop : Z;
  scrollBehavior : ScrollBehavior
}.

(** The scroll offsets are doubles, fractional on many displays; the
    arguments the script gives to [scrollTo] are integers.  Where the
    viewport ends up when the browser brings an element into view depends
    on the layout, which is the browser's: [scrollIntoView] gives, for an
    element and the three offsets before, the three offsets after. *)
Record Viewport := mkViewport {
  pageXOffset : Q;
  pageYOffset : Q;
  documentElementScrollTop : Q;
  scrollCalls : list ScrollCall;     (* oldest first *)
  scrollIntoView : ElementRef → Q * Q * Q → Q * Q * Q
}.

Record History := mkHistory {
  scrollRestoration : option string; (* None: the property does not exist *)
  pushStateSupported : bool;         (* truthiness of history.pushState *)
  pushStateRefused : bool;           (* a call of pushState throws a
                                        SecurityError: the document is not
                                        fully active, its URL may not be
                                        rewritten, or the browser's limit on
                                        calls is reached *)
  pushedURLs : list (option string)  (* url arguments of pushState, oldest first *)
}.

Inductive EventTarget := OnElement (i : ElementRef) | OnDocument | OnWindow.

#[global] Instance EventTarget_eq_dec : EqDecision EventTarget.
Proof. solve_decision. Defined.

(** Listeners are closures in the source; here each is a constructor that
    carries the variables its closure captures.  [this] is not captured: it
    is the element the listener was registered on. *)
Inductive ClickListener :=
  | MenuToggleClick (nav : ElementRef)
  | NavLinkClick (menuToggle nav : ElementRef)
  | OutsideClick (menuToggle nav : ElementRef)
  | FaqQuestionClick
  | AnchorLinkClick.

Inductive KeydownListener :=
  | EscapeKeydown (menuToggle nav : ElementRef)
  | FaqQuestionKeydown.

Inductive ScrollListener :=
  | HeaderScroll (header : ElementRef).

Inductive ReadyListener :=
  | InitAll.

Record Listeners := mkListeners {
  onClick : list (EventTarget * ClickListener);     (* registration order *)
  onKeydown : list (EventTarget * KeydownListener);
  onScroll : list (EventTarget * ScrollListener);
  onDOMContentLoaded : list ReadyListener
}.

Inductive ReadyState := Loading | Interactive | Complete.

(** The functions of main.js, for the record of calls kept in [callLog]. *)
Inductive Call :=
  | CallScrollToTop
  | CallInitMobileMenu
  | CallInitFAQ
  | CallInitSmoothScroll
  | CallInitHeaderScroll.

#[global] Instance Call_eq_dec : EqDecision Call.
Proof. solve_decision. Defined.

Record Page := mkPage {
  document : Document;
  readyState : ReadyState;
  viewport : Viewport;
  history : History;
  activeElement : option ElementRef;
  listeners : Listeners;
  lastScrollTop : Q;          (* the variable of initHeaderScroll's closure *)
  callLog : list Call;        (* ghost: functions entered, oldest first *)
  uncaught : list JsError     (* exceptions that escaped a listener *)
}.

Definition set_document (f : Document → Document) (p : Page) : Page :=
  mkPage (f (document p)) (readyState p) (viewport p) (history p) (activeElement p)
         (listeners p) (lastScrollTop p) (callLog p) (uncaught p).

Definition set_readyState (r : ReadyState) (p : Page) : Page :=
  mkPage (document p) r (viewport p) (history p) (activeElement p)
         (listeners p) (lastScrollTop p) (callLog p) (uncaught p).

Definition set_viewport (f : Viewport → Viewport) (p : Page) : Page :=
  mkPage (document p) (readyState p) (f (viewport p)) (history p) (activeElement p)
         (listeners p) (lastScrollTop p) (callLog p) (uncaught p).

Definition set_history (f : History → History) (p : Page) : Page :=
  mkPage (document p) (readyState p) (viewport p) (f (history p)) (activeElement p)
         (listeners p) (lastScrollTop p) (callLog p) (uncaught p).

Definition set_activeElement (a : option ElementRef) (p : Page) : Page :=
  mkPage (document p) (readyState p) (viewport p) (history p) a
         (listeners p) (lastScrollTop p) (callLog p) (uncaught p).

Definition set_listeners (f : Listeners → Listeners) (p : Page) : Page :=
  mkPage (document p) (readyState p) (viewport p) (history p) (activeElement p)
         (f (listeners p)) (lastScrollTop p) (callLog p) (uncaught p).

Definition set_lastScrollTop (v : Q) (p : Page) : Page :=
  mkPage (document p) (readyState p) (viewport p) (history p) (activeElement p)
         (listeners p) v (callLog p) (uncaught p).

Definition set_callLog (f : list Call → list Call) (p : Page) : Page :=
  mkPage (document p) (readyState p) (viewport p) (history p) (activeElement p)
         (listeners p) (lastScrollTop p) (f (callLog p)) (uncaught p).

Definition set_uncaught (f : list JsError → list JsError) (p : Page) : Page :=
  mkPage (document p) (readyState p) (viewport p) (history p) (activeElement p)
         (listeners p) (lastScrollTop p) (callLog p) (f (uncaught p)).

(** ** Events *)

Record Event := mkEvent {
  target : ElementRef;
  key : string            (* only read by keydown listeners *)
}.

(** The state a listener runs in: the page, and the canceled flag of the
    event that is being dispatched ([event.preventDefault()] sets it). *)
Record JsState := mkJsState {
  page : Page;
  defaultPrevented : bool
}.

Definition onPage (f : Page → Page) (s : JsState) : JsState :=
  mkJsState (f (page s)) (defaultPrevented s).

Definition set_defaultPrevented (b : bool) (s : JsState) : JsState :=
  mkJsState (page s) b.

(** ** The monad of script code: state, and exceptions that keep the state
    reached when they are thrown *)

Inductive Completion (A : Type) :=
  | Normal (a : A)
  | Throw (e : JsError).
Arguments Normal {A} a.
Arguments Throw {A} e.

Definition Js (A : Type) : Type := JsState → Completion A * JsState.

#[global] Instance Js_ret : MRet Js := λ A a s, (Normal a, s).

#[global] Instance Js_bind : MBind Js := λ A B f m s,
  match m s with
  | (Normal a, s') => f a s'
  | (Throw e, s') => (Throw e, s')
  end.

Definition throw {A} (e : JsError) : Js A := λ s, (Throw e, s).

Definition gets {A} (f : Page → A) : Js A := λ s, (Normal (f (page s)), s).

Definition modify (f : Page → Page) : Js unit := λ s, (Normal tt, onPage f s).

(** [Array.prototype.forEach] / [NodeList.prototype.forEach]. *)
Fixpoint forEach {A} (l : list A) (f : A → Js unit) : Js unit :=
  match l with
  | [] => mret tt
  | x :: l' => f x;; forEach l' f
  end.

(** Member access on a value that may be null: a TypeError when it is. *)
Definition nonNull {A} (o : option A) : Js A :=
  match o with
  | Some a => mret a
  | None => throw TypeError
  end.

(** The state after a computation, whatever its completion. *)
Definition stateAfter {A} (m : Js A) (s : JsState) : JsState := (m s).2.

(** ** DOM operations used by the script *)

Definition stringOfBool (b : bool) : string :=
  if b then "true" else "false".

(** A [DOMString] argument given null is the string "null". *)
Definition toDOMString (o : option string) : string :=
  match o with
  | Some s => s
  | None => "null"
  end.

Definition classListContains (i : ElementRef) (c : string) : Js bool :=
  gets (λ p, hasClass (document p) i c).

Definition classListRemove (i : ElementRef) (c : string) : Js unit :=
  modify (set_document (alter (set_classList (λ cs, cs ∖ {[c]})) i)).

Definition toggleClass (c : string) (cs : gset string) : gset string :=
  if bool_decide (c ∈ cs) then cs ∖ {[c]} else cs ∪ {[c]}.

Definition classListToggle (i : ElementRef) (c : string) : Js unit :=
  modify (set_document (alter (set_classList (toggleClass c)) i)).

Definition getAttribute (i : ElementRef) (a : string) : Js (option string) :=
  gets (λ p, attributeOf (document p) i a).

Definition setAttribute (i : ElementRef) (a v : string) : Js unit :=
  modify (set_document (alter (set_attributes (insert a v)) i)).

Definition getParentElement (i : ElementRef) : Js (option ElementRef) :=
  gets (λ p, parentOf (document p) i).

Definition nodeContains (a b : ElementRef) : Js bool :=
  gets (λ p, contains (document p) a b).

Definition documentQuerySelector (s : Selector) : Js (option ElementRef) :=
  gets (λ p, querySelector (document p) s).

Definition documentQuerySelectorAll (s : Selector) : Js (list ElementRef) :=
  gets (λ p, querySelectorAll (document p) s).

Definition elementQuerySelector (root : ElementRef) (s : Selector)
    : Js (option ElementRef) :=
  gets (λ p, querySelectorIn (document p) root s).

Definition getOffsetTop (i : ElementRef) : Js Z :=
  gets (λ p, default 0 (offsetTop <$> document p !! i)).

Definition getOffsetHeight (i : ElementRef) : Js Z :=
  gets (λ p, default 0 (offsetHeight <$> document p !! i)).

Definition preventDefault : Js unit :=
  λ s, (Normal tt, set_defaultPrevented true s).

(** [window.scrollTo]: every call is recorded; an instant scroll has moved
    the viewport when the call returns, a smooth one has not. *)
Definition windowScrollTo (c : ScrollCall) : Js unit :=
  modify (set_viewport (λ v,
    match scrollBehavior c with
    | BehaviorAuto =>
        (* an instant scroll: the position is the requested one when the
           call returns *)
        mkViewport (default (pageXOffset v) (inject_Z <$> scrollLeft c))
                   (inject_Z (scrollTop c)) (inject_Z (scrollTop c))
                   (scrollCalls v ++ [c]) (scrollIntoView v)
    | BehaviorSmooth =>
        (* handed to the browser; the position has not moved when the call
           returns *)
        mkViewport (pageXOffset v) (pageYOffset v) (documentElementScrollTop v)
                   (scrollCalls v ++ [c]) (scrollIntoView v)
    end)).

(** [history.pushState(null, null, url)]: a new entry and no navigation,
    or a SecurityError and no entry when the browser refuses the call. *)
Definition historyPushState (url : option string) : Js unit :=
  refused ← gets (λ p, pushStateRefused (history p));
  if refused : bool then throw SecurityError
  else
    modify (set_history (λ h,
      mkHistory (scrollRestoration h) (pushStateSupported h) (pushStateRefused h)
                (pushedURLs h ++ [url]))).

Definition historyHasPushState : Js bool :=
  gets (λ p, pushStateSupported (history p)).

(** Elements that take focus without a tabindex attribute. *)
Definition nativelyFocusable (e : Element) : bool :=
  bool_decide (tagName e ∈ ["button"; "input"; "select"; "textarea"]%string)
  || (bool_decide (tagName e = "a"%string)
      && bool_decide (is_Some (attributes e !! "href"%string))).

(** A control that its [disabled] attribute switches off. *)
Definition disabledControl (e : Element) : bool :=
  bool_decide (tagName e ∈ ["button"; "input"; "select"; "textarea"; "optgroup";
                            "option"; "fieldset"]%string)
  && bool_decide (is_Some (attributes e !! "disabled"%string)).

(** Nothing keeps the browser from focusing the element, given a tabindex. *)
Definition canTakeFocus (e : Element) : bool :=
  negb (disabledControl e) && negb (focusBarred e).

(** A focusable area: a tabindex or a natively focusable element, that is
    rendered, not inert and not disabled. *)
Definition focusable (e : Element) : bool :=
  (bool_decide (is_Some (attributes e !! "tabindex"%string)) || nativelyFocusable e)
  && canTakeFocus e.

(** The position of the viewport. *)
Definition offsets (v : Viewport) : Q * Q * Q :=
  (pageXOffset v, pageYOffset v, documentElementScrollTop v).

(** The viewport after the browser has brought element [i] into view. *)
Definition broughtIntoView (i : ElementRef) (v : Viewport) : Viewport :=
  let after := scrollIntoView v i (offsets v) in
  mkViewport after.1.1 after.1.2 after.2 (scrollCalls v) (scrollIntoView v).

(** [element.focus()], called without the [preventScroll] option: moves the
    focus when the element is a focusable area and leaves it where it was
    when it is not; and the browser brings the element into view, which
    may move the viewport at once. *)
Definition focus (i : ElementRef) : Js unit :=
  modify (λ p,
    match document p !! i with
    | Some e =>
        set_viewport (broughtIntoView i)
          (if focusable e then set_activeElement (Some i) p else p)
    | None => p
    end).

(** Ghost: records that a function of main.js has been entered. *)
Definition logCall (c : Call) : Js unit :=
  modify (set_callLog (λ l, l ++ [c])).

Definition addClickListener (t : EventTarget) (l : ClickListener) : Js unit :=
  modify (set_listeners (λ ls,
    mkListeners (onClick ls ++ [(t, l)]) (onKeydown ls) (onScroll ls)
                (onDOMContentLoaded ls))).

Definition addKeydownListener (t : EventTarget) (l : KeydownListener) : Js unit :=
  modify (set_listeners (λ ls,
    mkListeners (onClick ls) (onKeydown ls ++ [(t, l)]) (onScroll ls)
                (onDOMContentLoaded ls))).

Definition addScrollListener (t : EventTarget) (l : ScrollListener) : Js unit :=
  modify (set_listeners (λ ls,
    mkListeners (onClick ls) (onKeydown ls) (onScroll ls ++ [(t, l)])
                (onDOMContentLoaded ls))).

Definition addReadyListener (l : ReadyListener) : Js unit :=
  modify (set_listeners (λ ls,
    mkListeners (onClick ls) (onKeydown ls) (onScroll ls)
                (onDOMContentLoaded ls ++ [l]))).

(** ** main.js *)

Definition shadowScrolled : string := "0 4px 12px rgba(0, 0, 0, 0.2)".
Definition shadowDefault : string := "0 4px 8px rgba(0, 0, 0, 0.15)".

Section MainJs.

(** [document.querySelector(text)] for a selector text that is only known
    when the script runs (the href of a clicked link).  Parsing and matching
    arbitrary selector text is the browser's business; the development holds
    for every such function.  It may throw (a SyntaxError for text that is
    not a selector). *)
Variable querySelectorText : Document → string → Completion (option ElementRef).

Definition documentQuerySelectorText (text : string) : Js (option ElementRef) :=
  λ s, (querySelectorText (document (page s)) text, s).

(** *** MOBILE MENU TOGGLE *)

(** Lines 26-33, the listener of [menuToggle]. *)
Definition menuToggleClick (this nav : ElementRef) : Js unit :=
  classListToggle this "active";;
  classListToggle nav "active";;
  isExpanded ← classListContains nav "active";
  setAttribute this "aria-expanded" (stringOfBool isExpanded).

(** Lines 37-41, the listener of every navigation link. *)
Definition navLinkClick (menuToggle nav : ElementRef) : Js unit :=
  classListRemove menuToggle "active";;
  classListRemove nav "active";;
  setAttribute menuToggle "aria-expanded" "false".

(** Lines 45-54, the click listener of the document. *)
Definition outsideClick (menuToggle nav : ElementRef) (event : Event) : Js unit :=
  isClickInsideNav ← nodeContains nav (target event);
  isClickOnToggle ← nodeContains menuToggle (target event);
  navActive ← classListContains nav "active";
  if negb isClickInsideNav && negb isClickOnToggle && navActive then
    classListRemove menuToggle "active";;
    classListRemove nav "active";;
    setAttribute menuToggle "aria-expanded" "false"
  else mret tt.

(** Lines 57-63, the keydown listener of the document. *)
Definition escapeKeydown (menuToggle nav : ElementRef) (event : Event) : Js unit :=
  navActive ← classListContains nav "active";
  if bool_decide (key event = "Escape"%string) && navActive then
    classListRemove menuToggle "active";;
    classListRemove nav "active";;
    setAttribute menuToggle "aria-expanded" "false"
  else mret tt.

(** *** FAQ ACCORDION *)

(** Lines 81-86: close all other FAQ items.  [closeItem] is the callback
    of the [forEach]. *)
Definition closeItem (faqItem item : ElementRef) : Js unit :=
  if bool_decide (item ≠ faqItem) then
    classListRemove item "active";;
    question ← elementQuerySelector item sel_faq_question;
    question ← nonNull question;
    setAttribute question "aria-expanded" "false"
  else mret tt.

Definition closeOtherItems (faqItem : ElementRef) : Js unit :=
  items ← documentQuerySelectorAll sel_faq_item;
  forEach items (closeItem faqItem).

(** Lines 76-91, the click listener of every question. *)
Definition faqQuestionClick (this : ElementRef) : Js unit :=
  faqItem ← getParentElement this;
  faqItem ← nonNull faqItem;
  isActive ← classListContains faqItem "active";
  closeOtherItems faqItem;;
  classListToggle faqItem "active";;
  setAttribute this "aria-expanded" (stringOfBool (negb isActive)).

(** *** SMOOTH SCROLLING *)

(** Lines 113-143, the click listener of every link whose href starts
    with #. *)
Definition anchorLinkClick (this : ElementRef) : Js unit :=
  targetId ← getAttribute this "href";
  if bool_decide (targetId = Some "#"%string) || bool_decide (targetId = Some ""%string)
  then mret tt
  else
    targetElement ← documentQuerySelectorText (toDOMString targetId);
    match targetElement with
    | Some targetElement =>
        preventDefault;;
        header ← documentQuerySelector sel_header;
        headerHeight ← match header : option ElementRef with
                       | Some header => getOffsetHeight header
                       | None => mret 0
                       end;
        targetTop ← getOffsetTop targetElement;
        let targetPosition := targetTop - headerHeight - 20 in
        windowScrollTo (mkScrollCall None targetPosition BehaviorSmooth);;
        hasPushState ← historyHasPushState;
        (if hasPushState : bool then historyPushState targetId else mret tt);;
        setAttribute targetElement "tabindex" "-1";;
        focus targetElement
    | None => mret tt
    end.

(** *** SCROLL TO TOP ON PAGE LOAD *)

Definition scrollToTop : Js unit :=
  logCall CallScrollToTop;;
  modify (set_history (λ h,
    match scrollRestoration h with
    | Some _ => mkHistory (Some "manual"%string) (pushStateSupported h)
                          (pushStateRefused h) (pushedURLs h)
    | None => h
    end));;
  windowScrollTo (mkScrollCall (Some 0) 0 BehaviorAuto).

(** *** HEADER SCROLL EFFECT *)

(** [window.pageYOffset || document.documentElement.scrollTop] *)
Definition currentScrollTop (v : Viewport) : Q :=
  if bool_decide (pageYOffset v == 0)%Q then documentElementScrollTop v
  else pageYOffset v.

(** Lines 168-179, the scroll listener of the window. *)
Definition headerScroll (header : ElementRef) : Js unit :=
  scrollTop ← gets (λ p, currentScrollTop (viewport p));
  (if bool_decide (scrollTop > 10)%Q then
     modify (set_document (alter (set_boxShadow shadowScrolled) header))
   else
     modify (set_document (alter (set_boxShadow shadowDefault) header)));;
  modify (set_lastScrollTop scrollTop).

(** *** Event dispatch

    A listener that throws does not stop the dispatch: the exception is
    reported and the next listener runs on the state the failed one left. *)
Definition reportException (m : Js unit) (s : JsState) : JsState :=
  match m s with
  | (Normal _, s') => s'
  | (Throw e, s') => onPage (set_uncaught (λ l, l ++ [e])) s'
  end.

(** The targets an event visits while it bubbles. *)
Definition propagationPath (d : Document) (t : ElementRef) : list EventTarget :=
  OnElement t :: (OnElement <$> ancestors d t) ++ [OnDocument; OnWindow].

Definition listenersOn {L} (ls : list (EventTarget * L)) (t : EventTarget) : list L :=
  (filter (λ tl, tl.1 = t) ls).*2.

Definition runClickListener (currentTarget : EventTarget) (l : ClickListener)
    (event : Event) : Js unit :=
  match l, currentTarget with
  | MenuToggleClick nav, OnElement this => menuToggleClick this nav
  | NavLinkClick menuToggle nav, _ => navLinkClick menuToggle nav
  | OutsideClick menuToggle nav, _ => outsideClick menuToggle nav event
  | FaqQuestionClick, OnElement this => faqQuestionClick this
  | AnchorLinkClick, OnElement this => anchorLinkClick this
  | _, _ => mret tt
  end.

Definition dispatchClick (event : Event) (s : JsState) : JsState :=
  let path := propagationPath (document (page s)) (target event) in
  let registered := onClick (listeners (page s)) in
  foldl (λ s t,
           foldl (λ s l, reportException (runClickListener t l event) s)
                 s (listenersOn registered t))
        s path.

(** A click of the pointer on element [t]: a fresh click event. *)
Definition pointerClick (t : ElementRef) (p : Page) : JsState :=
  dispatchClick (mkEvent t "") (mkJsState p false).

(** [element.click()], called from a listener: a fresh click event is
    dispatched at once; the caller's own event is untouched. *)
Definition elementClick (this : ElementRef) : Js unit :=
  λ s, (Normal tt,
        set_defaultPrevented (defaultPrevented s) (pointerClick this (page s))).

(** Lines 94-99, the keydown listener of every question. *)
Definition faqQuestionKeydown (this : ElementRef) (event : Event) : Js unit :=
  if bool_decide (key event = "Enter"%string) || bool_decide (key event = " "%string)
  then preventDefault;; elementClick this
  else mret tt.

Definition runKeydownListener (currentTarget : EventTarget) (l : KeydownListener)
    (event : Event) : Js unit :=
  match l, currentTarget with
  | EscapeKeydown menuToggle nav, _ => escapeKeydown menuToggle nav event
  | FaqQuestionKeydown, OnElement this => faqQuestionKeydown this event
  | _, _ => mret tt
  end.

Definition dispatchKeydown (event : Event) (s : JsState) : JsState :=
  let path := propagationPath (document (page s)) (target event) in
  let registered := onKeydown (listeners (page s)) in
  foldl (λ s t,
           foldl (λ s l, reportException (runKeydownListener t l event) s)
                 s (listenersOn registered t))
        s path.

(** A key pressed while element [t] has the focus. *)
Definition keyPress (t : ElementRef) (k : string) (p : Page) : JsState :=
  dispatchKeydown (mkEvent t k) (mkJsState p false).

Definition runScrollListener (l : ScrollListener) : Js unit :=
  match l with
  | HeaderScroll header => headerScroll header
  end.

(** A scroll event of the viewport, as the window's listeners see it. *)
Definition dispatchScroll (p : Page) : JsState :=
  foldl (λ s l, reportException (runScrollListener l) s)
        (mkJsState p false) (listenersOn (onScroll (listeners p)) OnWindow).

(** *** The feature initializers *)

Definition initMobileMenu : Js unit :=
  logCall CallInitMobileMenu;;
  menuToggle ← documentQuerySelector sel_mobile_menu_toggle;
  nav ← documentQuerySelector sel_nav;
  navLinks ← documentQuerySelectorAll sel_nav_a;
  match menuToggle : option ElementRef, nav : option ElementRef with
  | Some menuToggle, Some nav =>
      addClickListener (OnElement menuToggle) (MenuToggleClick nav);;
      forEach navLinks (λ link,
        addClickListener (OnElement link) (NavLinkClick menuToggle nav));;
      addClickListener OnDocument (OutsideClick menuToggle nav);;
      addKeydownListener OnDocument (EscapeKeydown menuToggle nav)
  | _, _ => mret tt
  end.

Definition initFAQ : Js unit :=
  logCall CallInitFAQ;;
  faqQuestions ← documentQuerySelectorAll sel_faq_question;
  if bool_decide (length (faqQuestions : list ElementRef) = 0%nat) then mret tt
  else
    forEach faqQuestions (λ question,
      addClickListener (OnElement question) FaqQuestionClick;;
      addKeydownListener (OnElement question) FaqQuestionKeydown).

Definition initSmoothScroll : Js unit :=
  logCall CallInitSmoothScroll;;
  anchorLinks ← documentQuerySelectorAll sel_anchor_links;
  if bool_decide (length (anchorLinks : list ElementRef) = 0%nat) then mret tt
  else
    forEach anchorLinks (λ link,
      addClickListener (OnElement link) AnchorLinkClick).

Definition initHeaderScroll : Js unit :=
  logCall CallInitHeaderScroll;;
  header ← documentQuerySelector sel_header;
  match header : option ElementRef with
  | None => mret tt
  | Some header =>
      modify (set_lastScrollTop 0);;
      addScrollListener OnWindow (HeaderScroll header)
  end.

(** *** INITIALIZE ALL FEATURES *)

(** Lines 189-195, the listener of DOMContentLoaded. *)
Definition onReady : Js unit :=
  scrollToTop;;
  initMobileMenu;;
  initFAQ;;
  initSmoothScroll;;
  initHeaderScroll.

Definition init : Js unit :=
  state ← gets readyState;
  match state : ReadyState with
  | Loading => addReadyListener InitAll
  | _ =>
      scrollToTop;;
      initMobileMenu;;
      initFAQ;;
      initSmoothScroll;;
      initHeaderScroll
  end.

Definition runReadyListener (l : ReadyListener) : Js unit :=
  match l with
  | InitAll => onReady
  end.

(** The browser fires DOMContentLoaded once, when the document is parsed. *)
Definition dispatchDOMContentLoaded (p : Page) : JsState :=
  foldl (λ s l, reportException (runReadyListener l) s)
        (mkJsState (set_readyState Interactive p) false)
        (onDOMContentLoaded (listeners p)).

(** The script itself: line 207, [init()]. *)
Definition runScript (p : Page) : JsState :=
  reportException init (mkJsState p false).

(** One page load.  When the script runs while the document is still being
    parsed, the parser goes on to the final document [parsed] and only then
    fires DOMContentLoaded. *)
Definition pageLoad (p : Page) (parsed : Document) : Page :=
  let p1 := page (runScript p) in
  match readyState p with
  | Loading => page (dispatchDOMContentLoaded (set_document (λ _, parsed) p1))
  | _ => p1
  end.

End MainJs.

(** * Vocabulary of the properties *)

(** ** Observations *)

(** The presentational state: the "active" marker and aria-expanded. *)
Definition isActive (p : Page) (i : ElementRef) : bool :=
  hasClass (document p) i "active".

Definition ariaExpanded (p : Page) (i : ElementRef) : option string :=
  attributeOf (document p) i "aria-expanded".

(** [NavigationState.open]: the marker of the navigation container, which
    is what every listener of the menu tests. *)
Definition menuOpen (p : Page) (nav : ElementRef) : bool := isActive p nav.

(** ** Mobile menu *)

(** The state after the closing sequence shared by lines 38-40, 50-52 and
    59-61. *)
Definition closedMenu (menuToggle nav : ElementRef) (s : JsState) : JsState :=
  onPage (set_document (λ d,
    alter (set_attributes (insert "aria-expanded" "false")) menuToggle
      (alter (set_classList (λ cs, cs ∖ {["active"]})) nav
         (alter (set_classList (λ cs, cs ∖ {["active"]})) menuToggle d)))) s.

(** [n] clicks on the toggle, one after the other. *)
Definition toggleClicks (menuToggle nav : ElementRef) (n : nat) (p : Page) : JsState :=
  Nat.iter n (stateAfter (menuToggleClick menuToggle nav)) (mkJsState p false).

Definition menuClosed (p : Page) (menuToggle nav : ElementRef) : Prop :=
  menuOpen p nav = false ∧
  isActive p menuToggle = false ∧
  ariaExpanded p menuToggle = Some "false"%string.

(** The runs of the four listeners of the mobile menu. *)
Inductive MenuListenerRun :=
  | RunToggleClick
  | RunNavLinkClick
  | RunOutsideClick (event : Event)
  | RunEscapeKeydown (event : Event).

Definition runMenuListener (menuToggle nav : ElementRef) (r : MenuListenerRun) : Js unit :=
  match r with
  | RunToggleClick => menuToggleClick menuToggle nav
  | RunNavLinkClick => navLinkClick menuToggle nav
  | RunOutsideClick event => outsideClick menuToggle nav event
  | RunEscapeKeydown event => escapeKeydown menuToggle nav event
  end.

Definition runMenuListeners (menuToggle nav : ElementRef) (rs : list MenuListenerRun)
    (s : JsState) : JsState :=
  foldl (λ s r, stateAfter (runMenuListener menuToggle nav r) s) s rs.

(** Whether a run reaches a [setAttribute('aria-expanded', ...)]. *)
Definition writesAria (menuToggle nav : ElementRef) (r : MenuListenerRun) (s : JsState) : bool :=
  match r with
  | RunToggleClick | RunNavLinkClick => true
  | RunOutsideClick event =>
      negb (contains (document (page s)) nav (target event))
      && negb (contains (document (page s)) menuToggle (target event))
      && menuOpen (page s) nav
  | RunEscapeKeydown event =>
      bool_decide (key event = "Escape"%string) && menuOpen (page s) nav
  end.

Definition markersEqual (p : Page) (menuToggle nav : ElementRef) : Prop :=
  isActive p menuToggle = isActive p nav.

Definition ariaInSync (p : Page) (menuToggle nav : ElementRef) : Prop :=
  ariaExpanded p menuToggle = Some (stringOfBool (isActive p nav)).

(** ** What the script never changes

    The listeners only write the "active" class, the attributes
    aria-expanded and tabindex, and the box shadow.  Two documents that
    differ in nothing else have the same tree and give the same answer to
    every selector that does not mention what was written. *)

Definition sameSkeleton (e e' : Element) : Prop :=
  tagName e = tagName e' ∧
  parentElement e = parentElement e' ∧
  (∀ c, c ≠ "active"%string → c ∈ classList e ↔ c ∈ classList e') ∧
  (∀ a, a ≠ "aria-expanded"%string → a ≠ "tabindex"%string →
        attributes e !! a = attributes e' !! a) ∧
  focusBarred e = focusBarred e'.

Definition sameStructure (d d' : Document) : Prop := Forall2 sameSkeleton d d'.

Definition stableSimple (s : SimpleSelector) : bool :=
  match s with
  | SelTag _ => true
  | SelClass c => bool_decide (c ≠ "active"%string)
  | SelAttrPrefix a _ =>
      bool_decide (a ≠ "aria-expanded"%string) && bool_decide (a ≠ "tabindex"%string)
  end.

Definition stableSelector (s : Selector) : bool :=
  match s with
  | Compound c => forallb stableSimple c
  | Descendant anc c => forallb stableSimple anc && forallb stableSimple c
  end.

(** ** FAQ accordion *)

(** What [closeItem] does to the document for an item that has a question. *)
Definition closeItemDoc (item question : ElementRef) (d : Document) : Document :=
  alter (set_attributes (insert "aria-expanded" "false")) question
    (alter (set_classList (λ cs, cs ∖ {["active"]})) item d).

(** [s'] is [s] with another document. *)
Definition onlyDocumentChanged (s s' : JsState) : Prop :=
  s' = onPage (set_document (λ _, document (page s'))) s.

(** What lines 89-90 do to the document the close-others pass left. *)
Definition toggleItemDoc (this faqItem : ElementRef) (wasActive : bool) (d : Document)
    : Document :=
  alter (set_attributes (insert "aria-expanded" (stringOfBool (negb wasActive)))) this
    (alter (set_classList (toggleClass "active")) faqItem d).

(** ** Header shadow and smooth scrolling *)


(** [header ? header.offsetHeight : 0] on document [d]. *)
Definition headerHeightOf (d : Document) : Z :=
  match querySelector d sel_header with
  | Some header => default 0 (offsetHeight <$> d !! header)
  | None => 0
  end.

(** ** Start-up *)

(** The listeners the script registers on document [d], per event type and
    in registration order. *)
Definition menuClickListeners (d : Document) : list (EventTarget * ClickListener) :=
  match querySelector d sel_mobile_menu_toggle, querySelector d sel_nav with
  | Some menuToggle, Some nav =>
      [(OnElement menuToggle, MenuToggleClick nav)] ++
      ((λ link, (OnElement link, NavLinkClick menuToggle nav)) <$> querySelectorAll d sel_nav_a) ++
      [(OnDocument, OutsideClick menuToggle nav)]
  | _, _ => []
  end.

Definition menuKeydownListeners (d : Document) : list (EventTarget * KeydownListener) :=
  match querySelector d sel_mobile_menu_toggle, querySelector d sel_nav with
  | Some menuToggle, Some nav => [(OnDocument, EscapeKeydown menuToggle nav)]
  | _, _ => []
  end.

Definition faqClickListeners (d : Document) : list (EventTarget * ClickListener) :=
  (λ question, (OnElement question, FaqQuestionClick)) <$> querySelectorAll d sel_faq_question.

Definition faqKeydownListeners (d : Document) : list (EventTarget * KeydownListener) :=
  (λ question, (OnElement question, FaqQuestionKeydown)) <$> querySelectorAll d sel_faq_question.

Definition anchorClickListeners (d : Document) : list (EventTarget * ClickListener) :=
  (λ link, (OnElement link, AnchorLinkClick)) <$> querySelectorAll d sel_anchor_links.

Definition headerScrollListeners (d : Document) : list (EventTarget * ScrollListener) :=
  match querySelector d sel_header with
  | Some header => [(OnWindow, HeaderScroll header)]
  | None => []
  end.

Definition registerClicks (new : list (EventTarget * ClickListener)) (p : Page) : Page :=
  set_listeners (λ ls, mkListeners (onClick ls ++ new) (onKeydown ls) (onScroll ls)
                         (onDOMContentLoaded ls)) p.

Definition registerKeydowns (new : list (EventTarget * KeydownListener)) (p : Page) : Page :=
  set_listeners (λ ls, mkListeners (onClick ls) (onKeydown ls ++ new) (onScroll ls)
                         (onDOMContentLoaded ls)) p.

Definition registerScrolls (new : list (EventTarget * ScrollListener)) (p : Page) : Page :=
  set_listeners (λ ls, mkListeners (onClick ls) (onKeydown ls) (onScroll ls ++ new)
                         (onDOMContentLoaded ls)) p.

Definition scrollToOrigin : ScrollCall := mkScrollCall (Some 0) 0 BehaviorAuto.

(** The page after the five calls of the start-up sequence. *)
Definition loadedPage (p : Page) : Page :=
  let d := document p in
  mkPage d (readyState p)
    (mkViewport 0 0 0 (scrollCalls (viewport p) ++ [scrollToOrigin])
                (scrollIntoView (viewport p)))
    (mkHistory (match scrollRestoration (history p) with
                | Some _ => Some "manual"%string
                | None => None
                end)
               (pushStateSupported (history p)) (pushStateRefused (history p))
               (pushedURLs (history p)))
    (activeElement p)
    (mkListeners
       (onClick (listeners p) ++ menuClickListeners d ++ faqClickListeners d
          ++ anchorClickListeners d)
       (onKeydown (listeners p) ++ menuKeydownListeners d ++ faqKeydownListeners d)
       (onScroll (listeners p) ++ headerScrollListeners d)
       (onDOMContentLoaded (listeners p)))
    (match querySelector d sel_header with
     | Some _ => 0
     | None => lastScrollTop p
     end)
    (callLog p ++ [CallScrollToTop; CallInitMobileMenu; CallInitFAQ;
                   CallInitSmoothScroll; CallInitHeaderScroll])
    (uncaught p).

(** The page carries the listeners the script registers on its document,
    and no others. *)
Definition hasScriptListeners (p : Page) : Prop :=
  let d := document p in
  onClick (listeners p)
    = menuClickListeners d ++ faqClickListeners d ++ anchorClickListeners d ∧
  onKeydown (listeners p) = menuKeydownListeners d ++ faqKeydownListeners d ∧
  onScroll (listeners p) = headerScrollListeners d.

(** An element on which the script registers no listener of a navigation
    link, a question or an anchor link. *)
Definition plainElement (d : Document) (a : ElementRef) : Prop :=
  (a ∉ querySelectorAll d sel_nav_a) ∧
  (a ∉ querySelectorAll d sel_faq_question) ∧
  (a ∉ querySelectorAll d sel_anchor_links).

Definition startupCalls : list Call :=
  [CallScrollToTop; CallInitMobileMenu; CallInitFAQ; CallInitSmoothScroll;
   CallInitHeaderScroll].

(** ** Sample pages *)

Definition el (tag : string) (parent : option ElementRef) (classes : list string)
    (attrs : list (string * string)) (top height : Z) : Element :=
  mkElement tag parent (list_to_set classes) (list_to_map attrs) "" top height false.

(** A selector engine that understands id selectors only: [#name] is the
    first element whose id is [name]; any other text is refused. *)
Definition idSelectorEngine (d : Document) (text : string)
    : Completion (option ElementRef) :=
  match text with
  | String "#"%char name =>
      Normal (head (filter (λ i, attributeOf d i "id" = Some name) (seq 0 (length d))))
  | _ => Throw SyntaxError
  end.

(** html > body > (header > (button.mobile-menu-toggle, nav > a, a),
    section#services, section#faq > two FAQ items, the second one open). *)
Definition sampleDocument : Document := [
  el "html" None [] [] 0 2000;
  el "body" (Some 0%nat) [] [] 0 2000;
  el "header" (Some 1%nat) [] [] 0 80;
  el "button" (Some 2%nat) ["mobile-menu-toggle"] [] 10 40;
  el "nav" (Some 2%nat) [] [] 0 80;
  el "a" (Some 4%nat) [] [("href", "#services")] 0 20;
  el "a" (Some 4%nat) [] [("href", "#missing")] 0 20;
  el "section" (Some 1%nat) [] [("id", "services")] 600 500;
  el "section" (Some 1%nat) [] [("id", "faq")] 1100 500;
  el "div" (Some 8%nat) ["faq-item"] [] 1100 100;
  el "button" (Some 9%nat) ["faq-question"] [("aria-expanded", "false")] 1100 40;
  el "div" (Some 9%nat) ["faq-answer"] [] 1140 60;
  el "div" (Some 8%nat) ["faq-item"; "active"] [] 1200 100;
  el "button" (Some 12%nat) ["faq-question"] [("aria-expanded", "true")] 1200 40;
  el "div" (Some 12%nat) ["faq-answer"] [] 1240 60
]%string.

(** A fresh page, scrolled down by 300, in a browser that brings an element
    into view by putting its top at the top of the viewport. *)
Definition freshPage (d : Document) (r : ReadyState) (canPush : bool) : Page :=
  mkPage d r (mkViewport 0 300 300 []
                (λ i _, let top := inject_Z (default 0 (offsetTop <$> d !! i)) in
                        (0%Q, top, top)))
         (mkHistory (Some "auto"%string) canPush false []) None
         (mkListeners [] [] [] []) 0 [] [].

Definition samplePage : Page := freshPage sampleDocument Complete true.

(** The sample page once the script has run. *)
Definition sampleLoaded : Page := page (runScript samplePage).

(** The same page in a browser whose history object has no pushState. *)
Definition sampleLoadedNoPushState : Page :=
  page (runScript (freshPage sampleDocument Complete false)).

(** The same page in a browser that refuses the calls of pushState. *)
Definition sampleLoadedPushStateRefused : Page :=
  set_history (λ h, mkHistory (scrollRestoration h) true true (pushedURLs h))
              sampleLoaded.

(** body > (div.faq-item > button.faq-question, div.faq-item > p): the
    second item has no question in it. *)
Definition itemWithoutQuestionDocument : Document := [
  el "html" None [] [] 0 800;
  el "body" (Some 0%nat) [] [] 0 800;
  el "div" (Some 1%nat) ["faq-item"] [] 0 100;
  el "button" (Some 2%nat) ["faq-question"] [("aria-expanded", "false")] 0 40;
  el "div" (Some 1%nat) ["faq-item"] [] 100 100;
  el "p" (Some 4%nat) [] [] 100 100
]%string.

Definition itemWithoutQuestionLoaded : Page :=
  page (runScript (freshPage itemWithoutQuestionDocument Complete true)).

(** body > div.faq-item > (h3 > button.faq-question, div.faq-answer): the
    question is wrapped in a heading, so its parent is not the item. *)
Definition wrappedQuestionDocument : Document := [
  el "html" None [] [] 0 800;
  el "body" (Some 0%nat) [] [] 0 800;
  el "div" (Some 1%nat) ["faq-item"] [] 0 100;
  el "h3" (Some 2%nat) [] [] 0 40;
  el "button" (Some 3%nat) ["faq-question"] [("aria-expanded", "false")] 0 40;
  el "div" (Some 2%nat) ["faq-answer"] [] 40 60
]%string.

Definition wrappedQuestionLoaded : Page :=
  page (runScript (freshPage wrappedQuestionDocument Complete true)).

(** body > (a[href="#send"], button#send[disabled]): the target of the link
    is a disabled control. *)
Definition disabledTargetDocument : Document := [
  el "html" None [] [] 0 800;
  el "body" (Some 0%nat) [] [] 0 800;
  el "a" (Some 1%nat) [] [("href", "#send")] 0 20;
  el "button" (Some 1%nat) [] [("id", "send"); ("disabled", "")] 400 40
]%string.

Definition disabledTargetLoaded : Page :=
  page (runScript (freshPage disabledTargetDocument Complete true)).


(** The loaded sample page after one click on the menu toggle. *)
Definition sampleMenuOpen : JsState := toggleClicks 3 4 1 sampleLoaded.


(** ** Further vocabulary: what events keep, and more sample pages *)

(** [s'] has the listeners of [s] and a document of the same structure. *)
Definition keepsSetup (s s' : JsState) : Prop :=
  listeners (page s') = listeners (page s) ∧
  sameStructure (document (page s)) (document (page s')).

(** No element has lost or gained the "active" marker or changed
    aria-expanded. *)
Definition sameMarkers (p p' : Page) : Prop :=
  ∀ i, isActive p' i = isActive p i ∧ ariaExpanded p' i = ariaExpanded p i.

(** A run of the click listener of question [this]. *)
Definition clickQuestion (this : ElementRef) (s : JsState) : JsState :=
  stateAfter (faqQuestionClick this) s.

(** Every FAQ item of the document has a question in it. *)
Definition itemsHaveQuestions (d : Document) : Prop :=
  ∀ item, item ∈ querySelectorAll d sel_faq_item →
          is_Some (querySelectorIn d item sel_faq_question).

(** A selector engine that, like a browser, refuses an id selector whose
    name begins with a digit, and otherwise looks the id up. *)
Definition strictIdSelectorEngine (d : Document) (text : string)
    : Completion (option ElementRef) :=
  match text with
  | String "#"%char (String c name) =>
      if bool_decide (c ∈ ["0"; "1"; "2"; "3"; "4"; "5"; "6"; "7"; "8"; "9"]%char)
      then Throw SyntaxError
      else idSelectorEngine d text
  | _ => idSelectorEngine d text
  end.

(** body > (a[href="#1st"], section#1st, p): no menu, no FAQ, no header. *)
Definition digitIdDocument : Document := [
  el "html" None [] [] 0 800;
  el "body" (Some 0%nat) [] [] 0 800;
  el "a" (Some 1%nat) [] [("href", "#1st")] 0 20;
  el "section" (Some 1%nat) [] [("id", "1st")] 400 300;
  el "p" (Some 1%nat) [] [] 700 100
]%string.

Definition digitIdLoaded : Page :=
  page (runScript (freshPage digitIdDocument Complete true)).

(** What a user does to a loaded page: a click on an element, a key
    pressed while an element has the focus, or scrolling the viewport to a
    vertical offset (the browser moves the viewport, then fires scroll). *)
Inductive UserEvent :=
  | PointerClick (t : ElementRef)
  | KeyPress (t : ElementRef) (k : string)
  | ScrollTo (y : Q).

Definition userEvent
    (querySelectorText : Document → string → Completion (option ElementRef))
    (e : UserEvent) (p : Page) : Page :=
  match e with
  | PointerClick t => page (pointerClick querySelectorText t p)
  | KeyPress t k => page (keyPress querySelectorText t k p)
  | ScrollTo y =>
      page (dispatchScroll
              (set_viewport (λ v, mkViewport (pageXOffset v) y y (scrollCalls v)
                                            (scrollIntoView v)) p))
  end.

Definition userEvents
    (querySelectorText : Document → string → Completion (option ElementRef))
    (es : list UserEvent) (p : Page) : Page :=
  foldl (λ p e, userEvent querySelectorText e p) p es.

(** At most one FAQ item carries the "active" marker. *)
Definition atMostOneExpanded (p : Page) : Prop :=
  ∀ i j, i ∈ querySelectorAll (document p) sel_faq_item →
         j ∈ querySelectorAll (document p) sel_faq_item →
         isActive p i = true → isActive p j = true → i = j.

(** The two elements of the mobile menu are no FAQ items. *)
Definition menuApartFromFaq (d : Document) : Prop :=
  ∀ menuToggle nav,
    querySelector d sel_mobile_menu_toggle = Some menuToggle →
    querySelector d sel_nav = Some nav →
    (menuToggle ∉ querySelectorAll d sel_faq_item) ∧
    (nav ∉ querySelectorAll d sel_faq_item).

(** A state reached from page [p0]: its listeners, a document of the same
    structure, and at most one FAQ item expanded. *)
Definition accordionState (p0 : Page) (s : JsState) : Prop :=
  listeners (page s) = listeners p0 ∧
  sameStructure (document p0) (document (page s)) ∧
  atMostOneExpanded (page s).

(** body > (button.mobile-menu-toggle, a[href="/contact"], p): a toggle,
    but no nav element for it to open, and no header. *)
Definition toggleWithoutNavDocument : Document := [
  el "html" None [] [] 0 800;
  el "body" (Some 0%nat) [] [] 0 800;
  el "button" (Some 1%nat) ["mobile-menu-toggle"] [("aria-expanded", "false")] 0 40;
  el "a" (Some 1%nat) [] [("href", "/contact")] 40 20;
  el "p" (Some 1%nat) [] [] 100 100
]%string.

Definition toggleWithoutNavLoaded : Page :=
  page (runScript (freshPage toggleWithoutNavDocument Complete true)).

(** What lines 27-32 do to the document: the toggle's listener. *)
Definition toggleMenuDoc (this nav : ElementRef) (d : Document) : Document :=
  let d1 := alter (set_classList (toggleClass "active")) nav
              (alter (set_classList (toggleClass "active")) this d) in
  alter (set_attributes
           (insert "aria-expanded" (stringOfBool (hasClass d1 nav "active"))))
        this d1.

(** What the closing sequence does to the document. *)
Definition closeMenuDoc (menuToggle nav : ElementRef) (d : Document) : Document :=
  alter (set_attributes (insert "aria-expanded" "false"%string)) menuToggle
    (alter (set_classList (λ cs, cs ∖ {["active"]})) nav
       (alter (set_classList (λ cs, cs ∖ {["active"]})) menuToggle d)).

(** The FAQ's listeners do not reach the two elements of the menu: these
    are no FAQ items, the toggle is no question, and no question is a child
    of either. *)
Definition faqApartFromMenu (d : Document) (menuToggle nav : ElementRef) : Prop :=
  (menuToggle ∉ querySelectorAll d sel_faq_item) ∧
  (nav ∉ querySelectorAll d sel_faq_item) ∧
  (menuToggle ∉ querySelectorAll d sel_faq_question) ∧
  (∀ question, question ∈ querySelectorAll d sel_faq_question →
     parentOf d question ≠ Some menuToggle ∧ parentOf d question ≠ Some nav).

(** A state reached from page [p0]: its listeners, a document of the same
    structure, the two markers of the menu equal, and aria-expanded in step
    with them if it was in [p0]. *)
Definition menuState (p0 : Page) (menuToggle nav : ElementRef) (s : JsState) : Prop :=
  listeners (page s) = listeners p0 ∧
  sameStructure (document p0) (document (page s)) ∧
  markersEqual (page s) menuToggle nav ∧
  (ariaInSync p0 menuToggle nav → ariaInSync (page s) menuToggle nav).

(** * Properties *)

(** ** Reading an element after an update *)

Lemma hasClass_alter_classList (d : Document) i j c f :
  hasClass (alter (set_classList f) i d) j c =
  if decide (i = j) then
    match d !! i with
    | Some e => bool_decide (c ∈ f (classList e))
    | None => false
    end
  else hasClass d j c.
Proof.
  unfold hasClass. rewrite list_lookup_alter.
  destruct (decide (i = j)) as [->|]; [|done].
  by destruct (d !! j).
Qed.

Lemma hasClass_alter_attributes (d : Document) i j c f :
  hasClass (alter (set_attributes f) i d) j c = hasClass d j c.
Proof.
  unfold hasClass. rewrite list_lookup_alter.
  destruct (decide (i = j)) as [->|]; [|done].
  by destruct (d !! j).
Qed.

Lemma hasClass_alter_boxShadow (d : Document) i j c v :
  hasClass (alter (set_boxShadow v) i d) j c = hasClass d j c.
Proof.
  unfold hasClass. rewrite list_lookup_alter.
  destruct (decide (i = j)) as [->|]; [|done].
  by destruct (d !! j).
Qed.

Lemma attributeOf_alter_classList (d : Document) i j a f :
  attributeOf (alter (set_classList f) i d) j a = attributeOf d j a.
Proof.
  unfold attributeOf. rewrite list_lookup_alter.
  destruct (decide (i = j)) as [->|]; [|done].
  by destruct (d !! j).
Qed.

Lemma attributeOf_alter_attributes (d : Document) i j a f :
  attributeOf (alter (set_attributes f) i d) j a =
  if decide (i = j) then e ← d !! i; f (attributes e) !! a
  else attributeOf d j a.
Proof.
  unfold attributeOf. rewrite list_lookup_alter.
  destruct (decide (i = j)) as [->|]; [|done].
  by destruct (d !! j).
Qed.

Lemma attributeOf_setAttribute_eq (d : Document) i a v :
  is_Some (d !! i) →
  attributeOf (alter (set_attributes (insert a v)) i d) i a = Some v.
Proof.
  intros [e He]. rewrite attributeOf_alter_attributes, decide_True by done.
  rewrite He. cbn. apply lookup_insert_eq.
Qed.

Lemma attributeOf_setAttribute_ne (d : Document) i j a b v :
  i ≠ j ∨ a ≠ b →
  attributeOf (alter (set_attributes (insert a v)) i d) j b = attributeOf d j b.
Proof.
  intros Hne. rewrite attributeOf_alter_attributes.
  destruct (decide (i = j)) as [->|]; [|done].
  destruct Hne as [|Hab]; [done|].
  unfold attributeOf. destruct (d !! j); cbn; [|done].
  by apply lookup_insert_ne.
Qed.

Lemma hasClass_remove_eq (d : Document) i c :
  hasClass (alter (set_classList (λ cs, cs ∖ {[c]})) i d) i c = false.
Proof.
  rewrite hasClass_alter_classList, decide_True by done.
  destruct (d !! i); [|done].
  apply bool_decide_eq_false. set_solver.
Qed.

Lemma hasClass_remove_ne (d : Document) i j c c' :
  i ≠ j ∨ c ≠ c' →
  hasClass (alter (set_classList (λ cs, cs ∖ {[c]})) i d) j c' = hasClass d j c'.
Proof.
  intros Hne. rewrite hasClass_alter_classList.
  destruct (decide (i = j)) as [->|]; [|done].
  destruct Hne as [|Hc]; [done|].
  unfold hasClass. destruct (d !! j); [|done].
  apply bool_decide_ext. set_solver.
Qed.

Lemma hasClass_remove_false (d : Document) i j c c' :
  hasClass d j c' = false →
  hasClass (alter (set_classList (λ cs, cs ∖ {[c]})) i d) j c' = false.
Proof.
  intros Hf. rewrite hasClass_alter_classList.
  destruct (decide (i = j)) as [->|]; [|done].
  unfold hasClass in Hf. destruct (d !! j); [|done].
  apply bool_decide_eq_false. apply bool_decide_eq_false in Hf. set_solver.
Qed.

Lemma elem_of_toggleClass c (cs : gset string) :
  c ∈ toggleClass c cs ↔ c ∉ cs.
Proof. unfold toggleClass. case_bool_decide; set_solver. Qed.

Lemma elem_of_toggleClass_ne c c' (cs : gset string) :
  c ≠ c' → c' ∈ toggleClass c cs ↔ c' ∈ cs.
Proof. intros. unfold toggleClass. case_bool_decide; set_solver. Qed.

Lemma hasClass_toggle_eq (d : Document) i c :
  is_Some (d !! i) →
  hasClass (alter (set_classList (toggleClass c)) i d) i c = negb (hasClass d i c).
Proof.
  intros [e He]. rewrite hasClass_alter_classList, decide_True by done.
  unfold hasClass. rewrite He.
  destruct (bool_decide (c ∈ classList e)) eqn:Hc; cbn.
  - apply bool_decide_eq_false. rewrite elem_of_toggleClass.
    apply bool_decide_eq_true in Hc. tauto.
  - apply bool_decide_eq_true. rewrite elem_of_toggleClass.
    by apply bool_decide_eq_false in Hc.
Qed.

Lemma hasClass_toggle_ne (d : Document) i j c c' :
  i ≠ j ∨ c ≠ c' →
  hasClass (alter (set_classList (toggleClass c)) i d) j c' = hasClass d j c'.
Proof.
  intros Hne. rewrite hasClass_alter_classList.
  destruct (decide (i = j)) as [->|]; [|done].
  destruct Hne as [|Hc]; [done|].
  unfold hasClass. destruct (d !! j); [|done].
  apply bool_decide_ext. by apply elem_of_toggleClass_ne.
Qed.

Lemma is_Some_lookup_alter {A} (f : A → A) (l : list A) i j :
  is_Some (alter f i l !! j) ↔ is_Some (l !! j).
Proof.
  rewrite list_lookup_alter. destruct (decide (i = j)) as [->|]; [|done].
  by rewrite fmap_is_Some.
Qed.

(** Unfolds the DOM operations of a listener body down to the page. *)
Ltac js_unfold :=
  unfold classListContains, classListRemove, classListToggle, getAttribute,
    setAttribute, getParentElement, nodeContains, documentQuerySelector,
    documentQuerySelectorAll, elementQuerySelector, preventDefault,
    getOffsetTop, getOffsetHeight, historyHasPushState, historyPushState,
    windowScrollTo, focus, logCall, nonNull,
    modify, gets, throw, mbind, Js_bind, mret, Js_ret; cbn beta iota.

(** ** Mobile menu *)

Lemma closedMenu_spec menuToggle nav s :
  is_Some (document (page s) !! menuToggle) →
  isActive (page (closedMenu menuToggle nav s)) nav = false ∧
  isActive (page (closedMenu menuToggle nav s)) menuToggle = false ∧
  ariaExpanded (page (closedMenu menuToggle nav s)) menuToggle = Some "false".
Proof.
  intros Hmt. unfold isActive, ariaExpanded, closedMenu. cbn.
  repeat split.
  - rewrite hasClass_alter_attributes. apply hasClass_remove_eq.
  - rewrite hasClass_alter_attributes.
    apply hasClass_remove_false, hasClass_remove_eq.
  - apply attributeOf_setAttribute_eq. by rewrite !is_Some_lookup_alter.
Qed.

Lemma navLinkClick_run menuToggle nav s :
  navLinkClick menuToggle nav s = (Normal tt, closedMenu menuToggle nav s).
Proof. reflexivity. Qed.

Lemma outsideClick_run menuToggle nav event s :
  outsideClick menuToggle nav event s =
  (Normal tt,
   if negb (contains (document (page s)) nav (target event))
      && negb (contains (document (page s)) menuToggle (target event))
      && menuOpen (page s) nav
   then closedMenu menuToggle nav s else s).
Proof.
  unfold outsideClick, menuOpen, isActive. js_unfold.
  by destruct (_ && _ && _).
Qed.

Lemma escapeKeydown_run menuToggle nav event s :
  escapeKeydown menuToggle nav event s =
  (Normal tt,
   if bool_decide (key event = "Escape"%string) && menuOpen (page s) nav
   then closedMenu menuToggle nav s else s).
Proof.
  unfold escapeKeydown, menuOpen, isActive. js_unfold.
  by destruct (_ && _).
Qed.

Lemma menuToggleClick_normal this nav s :
  (menuToggleClick this nav s).1 = Normal tt.
Proof. reflexivity. Qed.

Lemma menuToggleClick_document this nav s :
  document (page (stateAfter (menuToggleClick this nav) s)) =
  let d := alter (set_classList (toggleClass "active")) nav
             (alter (set_classList (toggleClass "active")) this
                (document (page s))) in
  alter (set_attributes
           (insert "aria-expanded" (stringOfBool (hasClass d nav "active"))))
        this d.
Proof. reflexivity. Qed.

(** One click on the toggle, seen from the three observations, when the
    toggle and the container are two elements of the document. *)
Lemma menuToggleClick_spec this nav s :
  is_Some (document (page s) !! this) →
  is_Some (document (page s) !! nav) →
  this ≠ nav →
  let s' := stateAfter (menuToggleClick this nav) s in
  isActive (page s') nav = negb (isActive (page s) nav) ∧
  isActive (page s') this = negb (isActive (page s) this) ∧
  ariaExpanded (page s') this = Some (stringOfBool (negb (isActive (page s) nav))) ∧
  is_Some (document (page s') !! this) ∧
  is_Some (document (page s') !! nav).
Proof.
  intros Hthis Hnav Hne s'. unfold isActive, ariaExpanded. subst s'.
  rewrite menuToggleClick_document. cbn zeta.
  assert (Hnav' : is_Some (alter (set_classList (toggleClass "active")) this
                    (document (page s)) !! nav))
    by by rewrite is_Some_lookup_alter.
  repeat split.
  - rewrite hasClass_alter_attributes, hasClass_toggle_eq by done.
    by rewrite hasClass_toggle_ne by auto.
  - rewrite hasClass_alter_attributes, hasClass_toggle_ne by auto.
    by rewrite hasClass_toggle_eq.
  - rewrite attributeOf_setAttribute_eq by by rewrite !is_Some_lookup_alter.
    rewrite hasClass_toggle_eq by done.
    by rewrite hasClass_toggle_ne by auto.
  - by rewrite !is_Some_lookup_alter.
  - by rewrite !is_Some_lookup_alter.
Qed.

(** What [initMobileMenu] binds to [menuToggle] and [nav] are elements of
    the document. *)
Lemma querySelectorAll_lt (d : Document) s i :
  i ∈ querySelectorAll d s → (i < length d)%nat.
Proof.
  unfold querySelectorAll. rewrite list_elem_of_filter, elem_of_seq. lia.
Qed.

Lemma querySelector_Some (d : Document) s i :
  querySelector d s = Some i →
  i ∈ querySelectorAll d s ∧ is_Some (d !! i) ∧ matchesSelector d s i = true.
Proof.
  unfold querySelector. intros Hh.
  assert (Hin : i ∈ querySelectorAll d s).
  { destruct (querySelectorAll d s); [done|]. injection Hh as ->. apply list_elem_of_here. }
  split; [done|]. split.
  - apply lookup_lt_is_Some. by eapply querySelectorAll_lt.
  - unfold querySelectorAll in Hin. by apply list_elem_of_filter in Hin as [? _].
Qed.



Lemma runMenuListener_step menuToggle nav r s :
  is_Some (document (page s) !! menuToggle) →
  is_Some (document (page s) !! nav) →
  markersEqual (page s) menuToggle nav →
  let s' := stateAfter (runMenuListener menuToggle nav r) s in
  (runMenuListener menuToggle nav r s).1 = Normal tt ∧
  is_Some (document (page s') !! menuToggle) ∧
  is_Some (document (page s') !! nav) ∧
  markersEqual (page s') menuToggle nav ∧
  (writesAria menuToggle nav r s = true → ariaInSync (page s') menuToggle nav) ∧
  (writesAria menuToggle nav r s = false → s' = s).
Proof.
  intros Hmt Hnav Heq.
  assert (Hclose : let s' := closedMenu menuToggle nav s in
            is_Some (document (page s') !! menuToggle) ∧
            is_Some (document (page s') !! nav) ∧
            markersEqual (page s') menuToggle nav ∧
            ariaInSync (page s') menuToggle nav).
  { destruct (closedMenu_spec menuToggle nav s Hmt) as (Hn & Hm & Ha).
    cbn zeta. unfold markersEqual, ariaInSync. rewrite Hn, Hm, Ha.
    unfold closedMenu. cbn. by rewrite !is_Some_lookup_alter. }
  cbn zeta in Hclose. destruct Hclose as (Hc1 & Hc2 & Hc3 & Hc4).
  destruct r as [| |event|event]; cbn zeta; unfold stateAfter, runMenuListener, writesAria.
  - split; [done|].
    destruct (decide (menuToggle = nav)) as [->|Hne].
    + (* one element is both: the two toggles cancel *)
      change ((menuToggleClick nav nav s).2) with (stateAfter (menuToggleClick nav nav) s).
      unfold markersEqual, ariaInSync, isActive, ariaExpanded.
      rewrite menuToggleClick_document. cbn zeta.
      rewrite !is_Some_lookup_alter. repeat split; try done.
      intros _. rewrite hasClass_alter_attributes.
      apply attributeOf_setAttribute_eq. by rewrite !is_Some_lookup_alter.
    + destruct (menuToggleClick_spec menuToggle nav s Hmt Hnav Hne)
        as (Hn & Hm & Ha & ? & ?).
      unfold stateAfter in *. unfold markersEqual, ariaInSync in *.
      rewrite Hn, Hm, Ha, Heq. done.
  - rewrite navLinkClick_run. cbn [fst snd]. done.
  - rewrite outsideClick_run. cbn [fst snd]. destruct (_ && _ && _); naive_solver.
  - rewrite escapeKeydown_run. cbn [fst snd]. destruct (_ && _); naive_solver.
Qed.

(** C10, as the code has it.  Through every sequence of runs of the four
    listeners the markers of the toggle and of the container stay equal.
    The toggle's aria-expanded is the string form of that state after every
    run that writes it (every toggle click, every link click, and the
    outside clicks and Escape presses that close the menu); a run that does
    not write it changes nothing, so aria-expanded is then in step with the
    markers exactly when it was before. *)
Theorem menu_markers_stay_equal (p : Page) (menuToggle nav : ElementRef)
    (rs : list MenuListenerRun) (r : MenuListenerRun) :
  is_Some (document p !! menuToggle) →
  is_Some (document p !! nav) →
  markersEqual p menuToggle nav →
  let s := runMenuListeners menuToggle nav rs (mkJsState p false) in
  let s' := stateAfter (runMenuListener menuToggle nav r) s in
  (runMenuListener menuToggle nav r s).1 = Normal tt ∧
  markersEqual (page s) menuToggle nav ∧
  markersEqual (page s') menuToggle nav ∧
  (ariaInSync p menuToggle nav → ariaInSync (page s) menuToggle nav) ∧
  (writesAria menuToggle nav r s = true → ariaInSync (page s') menuToggle nav) ∧
  (writesAria menuToggle nav r s = false → s' = s).
Proof.
  intros Hmt Hnav Heq.
  assert (Hinv : let s := runMenuListeners menuToggle nav rs (mkJsState p false) in
            is_Some (document (page s) !! menuToggle) ∧
            is_Some (document (page s) !! nav) ∧
            markersEqual (page s) menuToggle nav ∧
            (ariaInSync p menuToggle nav → ariaInSync (page s) menuToggle nav)).
  { induction rs as [|r0 rs IH] using rev_ind; [done|].
    cbn zeta in *. destruct IH as (IH1 & IH2 & IH3 & IH4).
    unfold runMenuListeners in *. rewrite foldl_app. cbn [foldl].
    destruct (runMenuListener_step menuToggle nav r0 _ IH1 IH2 IH3)
      as (_ & H1 & H2 & H3 & H4 & H5).
    repeat split; try done.
    intros Hsync. destruct (writesAria menuToggle nav r0 _) eqn:Hw.
    - by apply H4.
    - rewrite H5 by done. by apply IH4. }
  cbn zeta in *. destruct Hinv as (H1 & H2 & H3 & H4).
  destruct (runMenuListener_step menuToggle nav r _ H1 H2 H3)
    as (? & _ & _ & ? & ? & ?).
  done.
Qed.

(** ** What the script never changes *)

#[global] Instance sameSkeleton_refl : Reflexive sameSkeleton.
Proof. intros e. by repeat split. Qed.

#[global] Instance sameSkeleton_trans : Transitive sameSkeleton.
Proof.
  intros e1 e2 e3 (Ht & Hp & Hc & Ha & Hb) (Ht' & Hp' & Hc' & Ha' & Hb').
  split; [congruence|]. split; [congruence|]. split; [|split; [|congruence]].
  - intros c Hne. by rewrite Hc, Hc'.
  - intros a H1 H2. by rewrite Ha, Ha'.
Qed.

#[global] Instance sameStructure_refl : Reflexive sameStructure.
Proof. intros d. apply Forall2_same_length_lookup; split; [done|]. intros; by simplify_eq. Qed.

#[global] Instance sameStructure_trans : Transitive sameStructure.
Proof.
  intros d1 d2 d3 H12 H23. unfold sameStructure in *. by etrans.
Qed.

Lemma sameStructure_alter (d : Document) f i :
  (∀ e, sameSkeleton e (f e)) → sameStructure d (alter f i d).
Proof.
  intros Hf. apply Forall2_same_length_lookup. split.
  - by rewrite length_alter.
  - intros j e e' He He'. rewrite list_lookup_alter in He'.
    destruct (decide (i = j)) as [->|].
    + rewrite He in He'. cbn in He'. by simplify_eq.
    + by simplify_eq.
Qed.

Lemma sameSkeleton_remove_active e :
  sameSkeleton e (set_classList (λ cs, cs ∖ {["active"]}) e).
Proof. repeat split; try done; cbn; set_solver. Qed.

Lemma sameSkeleton_toggle_active e :
  sameSkeleton e (set_classList (toggleClass "active") e).
Proof.
  repeat split; try done; cbn; intros.
  - by apply elem_of_toggleClass_ne.
  - by apply elem_of_toggleClass_ne in H0.
Qed.

Lemma sameSkeleton_set_aria v e :
  sameSkeleton e (set_attributes (insert "aria-expanded" v) e).
Proof. repeat split; try done. intros a H1 H2. cbn. by rewrite lookup_insert_ne. Qed.

Lemma sameSkeleton_set_tabindex v e :
  sameSkeleton e (set_attributes (insert "tabindex" v) e).
Proof. repeat split; try done. intros a H1 H2. cbn. by rewrite lookup_insert_ne. Qed.

Lemma sameSkeleton_set_boxShadow v e : sameSkeleton e (set_boxShadow v e).
Proof. by repeat split. Qed.

Lemma sameStructure_length (d d' : Document) :
  sameStructure d d' → length d = length d'.
Proof. apply Forall2_length. Qed.

Lemma sameStructure_lookup (d d' : Document) i :
  sameStructure d d' →
  match d !! i, d' !! i with
  | Some e, Some e' => sameSkeleton e e'
  | None, None => True
  | _, _ => False
  end.
Proof.
  intros H. unfold sameStructure in H. rewrite Forall2_lookup in H.
  by destruct (H i).
Qed.

Lemma sameStructure_is_Some (d d' : Document) i :
  sameStructure d d' → is_Some (d !! i) ↔ is_Some (d' !! i).
Proof.
  intros H. rewrite !lookup_lt_is_Some. by rewrite (sameStructure_length _ _ H).
Qed.

Lemma sameStructure_parentOf (d d' : Document) i :
  sameStructure d d' → parentOf d i = parentOf d' i.
Proof.
  intros H. pose proof (sameStructure_lookup d d' i H) as Hi. unfold parentOf.
  destruct (d !! i), (d' !! i); try done. cbn. by destruct Hi as (_ & ? & _).
Qed.

Lemma sameStructure_ancestors (d d' : Document) i :
  sameStructure d d' → ancestors d i = ancestors d' i.
Proof.
  intros H. unfold ancestors. rewrite <- (sameStructure_length _ _ H).
  generalize (length d). intros n. revert i.
  induction n as [|n IH]; intros i; [done|]. cbn.
  rewrite <- (sameStructure_parentOf _ _ _ H).
  destruct (parentOf d i); [|done]. by rewrite IH.
Qed.

Lemma sameSkeleton_matchesSimple e e' s :
  sameSkeleton e e' → stableSimple s = true →
  matchesSimple e s = matchesSimple e' s.
Proof.
  intros (Ht & _ & Hc & Ha & _) Hs. destruct s as [t|c|a v]; cbn in *.
  - by rewrite Ht.
  - apply bool_decide_eq_true in Hs. apply bool_decide_ext. by apply Hc.
  - apply andb_true_iff in Hs as [H1 H2].
    apply bool_decide_eq_true in H1. apply bool_decide_eq_true in H2.
    by rewrite (Ha a H1 H2).
Qed.

Lemma sameStructure_refMatchesCompound (d d' : Document) c i :
  sameStructure d d' → forallb stableSimple c = true →
  refMatchesCompound d c i = refMatchesCompound d' c i.
Proof.
  intros H Hc. pose proof (sameStructure_lookup d d' i H) as Hi.
  unfold refMatchesCompound. destruct (d !! i) as [e|], (d' !! i) as [e'|]; try done.
  unfold matchesCompound. induction c as [|s c IH]; [done|].
  cbn in *. apply andb_true_iff in Hc as [Hs Hc].
  by rewrite (sameSkeleton_matchesSimple e e' s), IH.
Qed.

Lemma sameStructure_matchesSelector (d d' : Document) s i :
  sameStructure d d' → stableSelector s = true →
  matchesSelector d s i = matchesSelector d' s i.
Proof.
  intros H Hs. destruct s as [c|anc c]; cbn in *.
  - by apply sameStructure_refMatchesCompound.
  - apply andb_true_iff in Hs as [Hanc Hc].
    rewrite (sameStructure_refMatchesCompound d d' c i H Hc).
    rewrite (sameStructure_ancestors d d' i H).
    f_equal. induction (ancestors d' i) as [|a l IH]; [done|].
    cbn. by rewrite IH, (sameStructure_refMatchesCompound d d' anc a H Hanc).
Qed.

Lemma sameStructure_querySelectorAll (d d' : Document) s :
  sameStructure d d' → stableSelector s = true →
  querySelectorAll d s = querySelectorAll d' s.
Proof.
  intros H Hs. unfold querySelectorAll.
  rewrite <- (sameStructure_length _ _ H).
  apply list_filter_iff. intros i.
  by rewrite (sameStructure_matchesSelector d d' s i H Hs).
Qed.

Lemma sameStructure_querySelector (d d' : Document) s :
  sameStructure d d' → stableSelector s = true →
  querySelector d s = querySelector d' s.
Proof. intros. unfold querySelector. by erewrite sameStructure_querySelectorAll. Qed.

Lemma sameStructure_querySelectorIn (d d' : Document) root s :
  sameStructure d d' → stableSelector s = true →
  querySelectorIn d root s = querySelectorIn d' root s.
Proof.
  intros H Hs. unfold querySelectorIn.
  rewrite (sameStructure_querySelectorAll d d' s H Hs). f_equal.
  apply list_filter_iff. intros i. by rewrite (sameStructure_ancestors d d' i H).
Qed.

Lemma sameStructure_contains (d d' : Document) a b :
  sameStructure d d' → contains d a b = contains d' a b.
Proof. intros H. unfold contains. by rewrite (sameStructure_ancestors d d' b H). Qed.

(** ** FAQ accordion *)

Lemma onlyDocumentChanged_refl s : onlyDocumentChanged s s.
Proof. by destruct s as [[] ?]. Qed.

Lemma onlyDocumentChanged_trans s1 s2 s3 :
  onlyDocumentChanged s1 s2 → onlyDocumentChanged s2 s3 → onlyDocumentChanged s1 s3.
Proof. unfold onlyDocumentChanged. intros H12 H23. rewrite H23 at 1. by rewrite H12 at 1. Qed.

Lemma onlyDocumentChanged_set_document f s :
  onlyDocumentChanged s (onPage (set_document f) s).
Proof. reflexivity. Qed.

Lemma closeOtherItems_unfold faqItem s :
  closeOtherItems faqItem s =
  forEach (querySelectorAll (document (page s)) sel_faq_item) (closeItem faqItem) s.
Proof. reflexivity. Qed.

Lemma closeItem_self faqItem s : closeItem faqItem faqItem s = (Normal tt, s).
Proof. unfold closeItem. by rewrite bool_decide_eq_false_2 by naive_solver. Qed.

Lemma closeItem_other faqItem item question s :
  item ≠ faqItem →
  querySelectorIn (document (page s)) item sel_faq_question = Some question →
  closeItem faqItem item s =
  (Normal tt, onPage (set_document (closeItemDoc item question)) s).
Proof.
  intros Hne Hq. unfold closeItem. rewrite bool_decide_eq_true_2 by done.
  js_unfold. cbn.
  rewrite <- (sameStructure_querySelectorIn (document (page s))), Hq; [done| |done].
  apply sameStructure_alter, sameSkeleton_remove_active.
Qed.

(** The unguarded [item.querySelector('.faq-question').setAttribute]: an
    item without a question makes the callback throw, after the item's
    marker has been removed. *)
Lemma closeItem_no_question faqItem item s :
  item ≠ faqItem →
  querySelectorIn (document (page s)) item sel_faq_question = None →
  closeItem faqItem item s =
  (Throw TypeError,
   onPage (set_document (alter (set_classList (λ cs, cs ∖ {["active"]})) item)) s).
Proof.
  intros Hne Hq. unfold closeItem. rewrite bool_decide_eq_true_2 by done.
  js_unfold. cbn.
  rewrite <- (sameStructure_querySelectorIn (document (page s))), Hq; [done| |done].
  apply sameStructure_alter, sameSkeleton_remove_active.
Qed.

Lemma querySelectorIn_lt (d : Document) root s i :
  querySelectorIn d root s = Some i → (i < length d)%nat.
Proof.
  unfold querySelectorIn. intros Hh. apply (querySelectorAll_lt d s).
  apply head_Some_elem_of in Hh. by apply list_elem_of_filter in Hh as [_ ?].
Qed.

Lemma closeItemDoc_sameStructure item question d :
  sameStructure d (closeItemDoc item question d).
Proof.
  unfold closeItemDoc. etrans.
  - apply sameStructure_alter, sameSkeleton_remove_active.
  - apply sameStructure_alter, sameSkeleton_set_aria.
Qed.

Lemma closeItemDoc_spec item question (d : Document) :
  is_Some (d !! question) →
  hasClass (closeItemDoc item question d) item "active" = false ∧
  attributeOf (closeItemDoc item question d) question "aria-expanded" = Some "false" ∧
  (∀ j, hasClass d j "active" = false →
        hasClass (closeItemDoc item question d) j "active" = false) ∧
  (∀ j, j ≠ item →
        hasClass (closeItemDoc item question d) j "active" = hasClass d j "active") ∧
  (∀ q, attributeOf d q "aria-expanded" = Some "false" →
        attributeOf (closeItemDoc item question d) q "aria-expanded" = Some "false").
Proof.
  intros Hq. unfold closeItemDoc. repeat split.
  - rewrite hasClass_alter_attributes. apply hasClass_remove_eq.
  - apply attributeOf_setAttribute_eq. by rewrite is_Some_lookup_alter.
  - intros j Hj. rewrite hasClass_alter_attributes. by apply hasClass_remove_false.
  - intros j Hj. rewrite hasClass_alter_attributes. apply hasClass_remove_ne. auto.
  - intros q Hqa. destruct (decide (question = q)) as [->|Hne].
    + apply attributeOf_setAttribute_eq. by rewrite is_Some_lookup_alter.
    + rewrite attributeOf_setAttribute_ne by auto.
      by rewrite attributeOf_alter_classList.
Qed.

(** The close-others pass over any list of items, each of which (other
    than the clicked one) has a question. *)
Lemma closeItems_loop (d0 : Document) faqItem (l : list ElementRef) : ∀ s,
  sameStructure d0 (document (page s)) →
  (∀ item, item ∈ l → item ≠ faqItem →
           is_Some (querySelectorIn d0 item sel_faq_question)) →
  ∃ s', forEach l (closeItem faqItem) s = (Normal tt, s') ∧
    sameStructure d0 (document (page s')) ∧
    onlyDocumentChanged s s' ∧
    (∀ item, item ∈ l → item ≠ faqItem →
       hasClass (document (page s')) item "active" = false) ∧
    (∀ item question, item ∈ l → item ≠ faqItem →
       querySelectorIn d0 item sel_faq_question = Some question →
       attributeOf (document (page s')) question "aria-expanded" = Some "false") ∧
    (∀ j, hasClass (document (page s)) j "active" = false →
       hasClass (document (page s')) j "active" = false) ∧
    (∀ q, attributeOf (document (page s)) q "aria-expanded" = Some "false" →
       attributeOf (document (page s')) q "aria-expanded" = Some "false") ∧
    hasClass (document (page s')) faqItem "active" =
      hasClass (document (page s)) faqItem "active".
Proof.
  induction l as [|item l IH]; intros s Hsame Hq.
  - exists s. cbn. split; [done|]. split; [done|].
    split; [apply onlyDocumentChanged_refl|].
    repeat split; try done; intros; by rewrite ?elem_of_nil in *.
  - cbn [forEach]. destruct (decide (item = faqItem)) as [->|Hne].
    + unfold mbind, Js_bind. rewrite closeItem_self.
      destruct (IH s Hsame) as (s' & Hrun & Hs' & Hfr & Hcl & Har & Hmc & Hma & Hfi).
      { intros i Hi. apply Hq. by apply list_elem_of_further. }
      exists s'. split; [done|]. split; [done|]. split; [done|].
      repeat split; try done.
      * intros i Hi Hine. apply elem_of_cons in Hi as [->|Hi]; [done|]. by apply Hcl.
      * intros i q Hi Hine. apply elem_of_cons in Hi as [->|Hi]; [done|]. by apply Har.
    + destruct (Hq item (list_elem_of_here _ _) Hne) as [question Hquestion].
      assert (Hquestion' :
        querySelectorIn (document (page s)) item sel_faq_question = Some question).
      { by rewrite <- (sameStructure_querySelectorIn d0). }
      unfold mbind, Js_bind.
      rewrite (closeItem_other faqItem item question s Hne Hquestion').
      set (s1 := onPage (set_document (closeItemDoc item question)) s).
      assert (Hlt : is_Some (document (page s) !! question)).
      { apply lookup_lt_is_Some. by eapply querySelectorIn_lt. }
      destruct (closeItemDoc_spec item question (document (page s)) Hlt)
        as (Hd1 & Hd2 & Hd3 & Hd4 & Hd5).
      destruct (IH s1) as (s' & Hrun & Hs' & Hfr & Hcl & Har & Hmc & Hma & Hfi).
      { etrans; [done|]. apply closeItemDoc_sameStructure. }
      { intros i Hi. apply Hq. by apply list_elem_of_further. }
      exists s'. split; [done|]. split; [done|]. split.
      { eapply onlyDocumentChanged_trans; [|done]. apply onlyDocumentChanged_set_document. }
      repeat split.
      * intros i Hi Hine. apply elem_of_cons in Hi as [->|Hi]; [|by apply Hcl].
        by apply Hmc.
      * intros i q Hi Hine Hqi. apply elem_of_cons in Hi as [->|Hi]; [|by eapply Har].
        apply Hma. rewrite Hquestion in Hqi. by simplify_eq.
      * intros j Hj. by apply Hmc, Hd3.
      * intros q Hqa. by apply Hma, Hd5.
      * rewrite Hfi. subst s1. cbn. by apply Hd4.
Qed.

Lemma faqQuestionClick_unfold this faqItem s :
  parentOf (document (page s)) this = Some faqItem →
  faqQuestionClick this s =
  match closeOtherItems faqItem s with
  | (Normal _, s1) =>
      (Normal tt,
       onPage (set_document (toggleItemDoc this faqItem (isActive (page s) faqItem))) s1)
  | (Throw e, s1) => (Throw e, s1)
  end.
Proof.
  intros Hp. unfold faqQuestionClick. js_unfold. cbn. rewrite Hp.
  unfold isActive. by destruct (closeOtherItems faqItem s) as [[[]|e] s1].
Qed.

Lemma faqQuestionClick_no_parent this s :
  parentOf (document (page s)) this = None →
  faqQuestionClick this s = (Throw TypeError, s).
Proof. intros Hp. unfold faqQuestionClick. js_unfold. cbn. by rewrite Hp. Qed.

(** C1, as the code has it.  A click on a question that is a child of a
    FAQ item, [faqItem], in a document where every other FAQ item has a
    question in it.  First every other item loses its "active" marker and
    the first question inside it gets aria-expanded "false"; then the marker
    of the clicked item is flipped and the clicked question gets the new
    state as a string.  So afterwards at most one item is expanded: the
    clicked one if it was collapsed, none if it was expanded. *)
Theorem faq_click_single_open (s : JsState) (this faqItem : ElementRef) :
  let d := document (page s) in
  let items := querySelectorAll d sel_faq_item in
  parentOf d this = Some faqItem →
  faqItem ∈ items →
  (∀ item, item ∈ items → item ≠ faqItem →
           is_Some (querySelectorIn d item sel_faq_question)) →
  let s1 := stateAfter (closeOtherItems faqItem) s in
  let s' := stateAfter (faqQuestionClick this) s in
  (faqQuestionClick this s).1 = Normal tt ∧
  (∀ item, item ∈ items → item ≠ faqItem →
     isActive (page s1) item = false ∧
     ∀ question, querySelectorIn d item sel_faq_question = Some question →
                 ariaExpanded (page s1) question = Some "false"%string) ∧
  isActive (page s1) faqItem = isActive (page s) faqItem ∧
  s' = onPage (set_document (toggleItemDoc this faqItem (isActive (page s) faqItem))) s1 ∧
  isActive (page s') faqItem = negb (isActive (page s) faqItem) ∧
  ariaExpanded (page s') this = Some (stringOfBool (negb (isActive (page s) faqItem))) ∧
  (∀ item, item ∈ items → item ≠ faqItem →
     isActive (page s') item = false ∧
     ∀ question, querySelectorIn d item sel_faq_question = Some question →
                 question ≠ this →
                 ariaExpanded (page s') question = Some "false"%string) ∧
  querySelectorAll (document (page s')) sel_faq_item = items ∧
  (∀ item, item ∈ items → isActive (page s') item = true → item = faqItem) ∧
  (isActive (page s) faqItem = false → isActive (page s') faqItem = true) ∧
  (isActive (page s) faqItem = true →
   ∀ item, item ∈ items → isActive (page s') item = false).
Proof.
  intros d items Hparent Hin Hquestions s1 s'.
  assert (Hitem : is_Some (d !! faqItem))
    by (apply lookup_lt_is_Some; by eapply querySelectorAll_lt).
  destruct (closeItems_loop d faqItem items s) as
    (s1' & Hrun & Hsame & Hfr & Hcl & Har & Hmc & Hma & Hfi); [done|done|].
  assert (Hs1 : s1 = s1').
  { unfold s1, stateAfter. rewrite closeOtherItems_unfold. fold d items. by rewrite Hrun. }
  assert (Hclick : faqQuestionClick this s =
    (Normal tt,
     onPage (set_document (toggleItemDoc this faqItem (isActive (page s) faqItem))) s1)).
  { rewrite (faqQuestionClick_unfold this faqItem s Hparent).
    rewrite closeOtherItems_unfold. fold d items. by rewrite Hrun, Hs1. }
  assert (Hs' : s' = onPage (set_document
                  (toggleItemDoc this faqItem (isActive (page s) faqItem))) s1).
  { unfold s', stateAfter. by rewrite Hclick. }
  assert (Hnormal : (faqQuestionClick this s).1 = Normal tt) by by rewrite Hclick.
  clearbody s1 s'. subst s1' s'. clear Hclick Hrun.
  assert (Hthis : is_Some (document (page s1) !! this)).
  { apply (sameStructure_is_Some d); [done|]. fold d in Hparent.
    unfold parentOf in Hparent. by destruct (d !! this). }
  assert (Hitem1 : is_Some (document (page s1) !! faqItem)).
  { by apply (sameStructure_is_Some d). }
  assert (Hflip : hasClass (toggleItemDoc this faqItem (isActive (page s) faqItem)
                    (document (page s1))) faqItem "active"
                  = negb (isActive (page s) faqItem)).
  { unfold toggleItemDoc. rewrite hasClass_alter_attributes.
    rewrite hasClass_toggle_eq by done. unfold isActive. by rewrite Hfi. }
  assert (Hothers : ∀ item, item ≠ faqItem →
            hasClass (toggleItemDoc this faqItem (isActive (page s) faqItem)
              (document (page s1))) item "active"
            = hasClass (document (page s1)) item "active").
  { intros item Hne. unfold toggleItemDoc. rewrite hasClass_alter_attributes.
    apply hasClass_toggle_ne. auto. }
  unfold isActive, ariaExpanded in *. cbn [page onPage document set_document].
  split; [done|].
  split; [by intros item Hi Hne; split; [apply Hcl|intros q; apply Har]|].
  split; [done|]. split; [done|]. split; [done|]. split.
  { unfold toggleItemDoc. apply attributeOf_setAttribute_eq.
    by rewrite is_Some_lookup_alter. }
  split.
  { intros item Hi Hne. split.
    - rewrite Hothers by done. by apply Hcl.
    - intros q Hq Hqne. unfold toggleItemDoc.
      rewrite attributeOf_setAttribute_ne by auto.
      rewrite attributeOf_alter_classList. by eapply Har. }
  split.
  { unfold items. symmetry. apply sameStructure_querySelectorAll; [|done].
    etrans; [done|]. unfold toggleItemDoc. etrans.
    - apply sameStructure_alter, sameSkeleton_toggle_active.
    - apply sameStructure_alter, sameSkeleton_set_aria. }
  split.
  { intros item Hi Hact. destruct (decide (item = faqItem)) as [|Hne]; [done|].
    rewrite Hothers, Hcl in Hact by done. done. }
  split.
  { intros Hwas. rewrite Hflip. unfold isActive. by rewrite Hwas. }
  intros Hwas item Hi. destruct (decide (item = faqItem)) as [->|Hne].
  - rewrite Hflip. unfold isActive. by rewrite Hwas.
  - rewrite Hothers by done. by apply Hcl.
Qed.

(** ** Header shadow *)

Lemma headerScroll_run header s :
  headerScroll header s =
  (Normal tt,
   let y := currentScrollTop (viewport (page s)) in
   onPage (λ p, set_lastScrollTop y
                  (set_document
                     (alter (set_boxShadow (if bool_decide (y > 10)%Q
                                            then shadowScrolled else shadowDefault))
                            header) p)) s).
Proof.
  unfold headerScroll. js_unfold. cbn.
  by destruct (bool_decide (currentScrollTop (viewport (page s)) > 10)%Q).
Qed.

(** ** Smooth scrolling *)

Section SmoothScroll.

Variable querySelectorText : Document → string → Completion (option ElementRef).

Lemma anchorLinkClick_skip this s :
  let targetId := attributeOf (document (page s)) this "href" in
  targetId = Some "#"%string ∨ targetId = Some ""%string →
  anchorLinkClick querySelectorText this s = (Normal tt, s).
Proof.
  intros targetId Hid. unfold anchorLinkClick. js_unfold. cbn. fold targetId.
  by destruct Hid as [-> | ->].
Qed.

Lemma anchorLinkClick_lookup this s :
  let targetId := attributeOf (document (page s)) this "href" in
  targetId ≠ Some "#"%string → targetId ≠ Some ""%string →
  anchorLinkClick querySelectorText this s =
  match querySelectorText (document (page s)) (toDOMString targetId) with
  | Throw e => (Throw e, s)
  | Normal None => (Normal tt, s)
  | Normal (Some targetElement) =>
      let d := document (page s) in
      let targetPosition :=
        default 0 (offsetTop <$> d !! targetElement) - headerHeightOf d - 20 in
      let scrolled :=
        set_viewport (λ v, mkViewport (pageXOffset v) (pageYOffset v)
                             (documentElementScrollTop v)
                             (scrollCalls v ++ [mkScrollCall None targetPosition BehaviorSmooth])
                             (scrollIntoView v)) in
      if pushStateSupported (history (page s)) && pushStateRefused (history (page s))
      then (Throw SecurityError, mkJsState (scrolled (page s)) true)
      else
        let pushed :=
          if pushStateSupported (history (page s)) then
            set_history (λ h, mkHistory (scrollRestoration h) (pushStateSupported h)
                                (pushStateRefused h) (pushedURLs h ++ [targetId]))
          else id in
        let focusableNow :=
          set_document
            (alter (set_attributes (insert "tabindex" "-1")) targetElement) in
        let p3 := focusableNow (pushed (scrolled (page s))) in
        (Normal tt,
         mkJsState
           (match document p3 !! targetElement with
            | Some e =>
                set_viewport (broughtIntoView targetElement)
                  (if focusable e then set_activeElement (Some targetElement) p3
                   else p3)
            | None => p3
            end) true)
  end.
Proof.
  intros targetId H1 H2. unfold anchorLinkClick. js_unfold. cbn. fold targetId.
  rewrite !bool_decide_eq_false_2 by done. cbn.
  unfold documentQuerySelectorText.
  destruct (querySelectorText _ _) as [[targetElement|]|e]; [|done|done].
  unfold headerHeightOf.
  destruct (querySelector (document (page s)) sel_header) as [header|];
    cbn; destruct (pushStateSupported (history (page s)));
    cbn; by destruct (pushStateRefused (history (page s))).
Qed.

Lemma headerHeightOf_spec (d : Document) :
  match querySelector d sel_header with
  | Some header => ∃ e, d !! header = Some e ∧ headerHeightOf d = offsetHeight e
  | None => headerHeightOf d = 0
  end.
Proof.
  unfold headerHeightOf. destruct (querySelector d sel_header) as [header|] eqn:Hq; [|done].
  apply querySelector_Some in Hq as (_ & [e He] & _). exists e. by rewrite He.
Qed.

(** Once it has a tabindex, an element is a focusable area unless it is
    disabled or barred from the focus. *)
Lemma focusable_with_tabindex (e : Element) v :
  focusable (set_attributes (insert "tabindex" v) e) = canTakeFocus e.
Proof.
  unfold focusable, canTakeFocus, disabledControl. cbn.
  rewrite lookup_insert_eq, lookup_insert_ne by done.
  by rewrite bool_decide_eq_true_2.
Qed.

(** C6, as the code has it.  A click on a link whose href is a fragment
    that the document's selector lookup resolves to an element: the default
    jump is suppressed and one smooth scroll is requested, to the target's
    top offset minus the header's height (0 without a header) minus 20.
    Then the history: without pushState it is left alone; a pushState that
    succeeds adds the fragment; a pushState that the browser refuses throws
    a SecurityError out of the listener, which stops there, the document,
    the focus and the position of the viewport untouched.  When the
    listener goes on, the target gets tabindex -1 (which stays) and
    [focus()] is called on it, which moves the focus unless the target is
    disabled or otherwise barred from it, and leaves the viewport where the
    browser puts it to bring the target into view.  The page is not
    reloaded: the document keeps its structure. *)
Theorem anchor_click_scrolls_to_target (s : JsState) (this : ElementRef)
    (href : string) (targetElement : ElementRef) (te : Element) :
  let d := document (page s) in
  let h := history (page s) in
  let v := viewport (page s) in
  attributeOf d this "href" = Some href →
  href ≠ "#"%string → href ≠ ""%string →
  querySelectorText d href = Normal (Some targetElement) →
  d !! targetElement = Some te →
  let s' := stateAfter (anchorLinkClick querySelectorText this) s in
  defaultPrevented s' = true ∧
  scrollCalls (viewport (page s')) =
    scrollCalls v ++
    [mkScrollCall None (offsetTop te - headerHeightOf d - 20) BehaviorSmooth] ∧
  match querySelector d sel_header with
  | Some header => ∃ e, d !! header = Some e ∧ headerHeightOf d = offsetHeight e
  | None => headerHeightOf d = 0
  end ∧
  sameStructure d (document (page s')) ∧
  (pushStateSupported h = true → pushStateRefused h = true →
   (anchorLinkClick querySelectorText this s).1 = Throw SecurityError ∧
   pushedURLs (history (page s')) = pushedURLs h ∧
   document (page s') = d ∧
   activeElement (page s') = activeElement (page s) ∧
   offsets (viewport (page s')) = offsets v) ∧
  (pushStateSupported h = false ∨ pushStateRefused h = false →
   (anchorLinkClick querySelectorText this s).1 = Normal tt ∧
   pushedURLs (history (page s')) =
     (if pushStateSupported h then pushedURLs h ++ [Some href] else pushedURLs h) ∧
   attributeOf (document (page s')) targetElement "tabindex" = Some "-1"%string ∧
   activeElement (page s') =
     (if canTakeFocus te then Some targetElement else activeElement (page s)) ∧
   offsets (viewport (page s')) = scrollIntoView v targetElement (offsets v)).
Proof.
  intros d h v Hhref Hne1 Hne2 Hfound Hte s'. unfold s', stateAfter.
  rewrite anchorLinkClick_lookup by (fold d; rewrite Hhref; congruence).
  fold d h. rewrite Hhref. cbn [toDOMString]. rewrite Hfound. cbn zeta.
  pose proof (headerHeightOf_spec d) as Hheader.
  pose proof (focusable_with_tabindex te "-1") as Hfoc.
  assert (Htab : attributeOf (alter (set_attributes (insert "tabindex" "-1"))
                                targetElement d) targetElement "tabindex"
                 = Some "-1"%string)
    by (apply attributeOf_setAttribute_eq; by rewrite Hte).
  assert (Hgoes : pushStateSupported h && pushStateRefused h = false →
    let pushed :=
      if pushStateSupported h then
        set_history (λ h, mkHistory (scrollRestoration h) (pushStateSupported h)
                            (pushStateRefused h) (pushedURLs h ++ [Some href]))
      else id in
    ∀ p1, document p1 = d →
      let p3 := set_document
                  (alter (set_attributes (insert "tabindex" "-1")) targetElement)
                  (pushed p1) in
      match document p3 !! targetElement with
      | Some e =>
          set_viewport (broughtIntoView targetElement)
            (if focusable e then set_activeElement (Some targetElement) p3 else p3)
      | None => p3
      end
      = set_viewport (broughtIntoView targetElement)
          (if canTakeFocus te then set_activeElement (Some targetElement) p3 else p3)).
  { intros _ pushed p1 Hp1 p3.
    assert (Hd3 : document p3 = alter (set_attributes (insert "tabindex" "-1"))
                                  targetElement d).
    { unfold p3, pushed. destruct (pushStateSupported h); cbn; by rewrite Hp1. }
    rewrite Hd3, list_lookup_alter_eq, Hte. cbn [fmap option_fmap option_map].
    by rewrite Hfoc. }
  destruct (pushStateSupported h && pushStateRefused h) eqn:Hthrows.
  - apply andb_true_iff in Hthrows as [Hsup Href].
    cbn [fst snd page defaultPrevented]. cbn. fold d h v. rewrite Hte. cbn.
    split; [done|]. split; [done|]. split; [done|]. split; [done|]. split; [done|].
    intros [?|?]; congruence.
  - cbn zeta in Hgoes. rewrite (Hgoes eq_refl) by done. clear Hgoes.
    cbn [fst snd page defaultPrevented].
    split; [done|]. split; [|split; [done|split; [|split]]].
    + destruct (canTakeFocus te), (pushStateSupported h); cbn; fold d v;
        by rewrite Hte.
    + destruct (canTakeFocus te), (pushStateSupported h); cbn; fold d;
        apply sameStructure_alter, sameSkeleton_set_tabindex.
    + intros Hsup Href. rewrite Hsup, Href in Hthrows. done.
    + intros _. split; [done|]. split; [|split; [|split]].
      * destruct (canTakeFocus te), (pushStateSupported h); by cbn.
      * destruct (canTakeFocus te), (pushStateSupported h); cbn; fold d; exact Htab.
      * destruct (canTakeFocus te), (pushStateSupported h); by cbn.
      * unfold offsets, broughtIntoView.
        destruct (canTakeFocus te), (pushStateSupported h); cbn; fold v;
          by destruct (scrollIntoView v targetElement _) as [[? ?] ?].
Qed.


End SmoothScroll.

(** ** Start-up *)

Lemma addClickListener_run t l s :
  addClickListener t l s = (Normal tt, onPage (registerClicks [(t, l)]) s).
Proof. reflexivity. Qed.

Lemma forEach_addClickListener {A} (l : list A) f g s :
  forEach l (λ x, addClickListener (f x) (g x)) s =
  (Normal tt, onPage (registerClicks ((λ x, (f x, g x)) <$> l)) s).
Proof.
  revert s. induction l as [|x l IH]; intros s.
  - cbn. f_equal. destruct s as [[? ? ? ? ? [] ? ? ?] ?]. cbn.
    unfold onPage, registerClicks, set_listeners. cbn. by rewrite app_nil_r.
  - cbn [forEach]. unfold mbind, Js_bind. cbn. rewrite IH. f_equal.
    unfold onPage, registerClicks, set_listeners. cbn. by rewrite <- app_assoc.
Qed.

Lemma forEach_addFaqListeners (l : list ElementRef) s :
  forEach l (λ question,
    addClickListener (OnElement question) FaqQuestionClick;;
    addKeydownListener (OnElement question) FaqQuestionKeydown) s =
  (Normal tt,
   onPage (λ p, registerKeydowns ((λ q, (OnElement q, FaqQuestionKeydown)) <$> l)
                  (registerClicks ((λ q, (OnElement q, FaqQuestionClick)) <$> l) p)) s).
Proof.
  revert s. induction l as [|x l IH]; intros s.
  - cbn. f_equal. destruct s as [[? ? ? ? ? [] ? ? ?] ?]. cbn.
    unfold onPage, registerClicks, registerKeydowns, set_listeners. cbn.
    by rewrite !app_nil_r.
  - cbn [forEach]. unfold mbind, Js_bind. cbn. rewrite IH. f_equal.
    unfold onPage, registerClicks, registerKeydowns, set_listeners. cbn.
    by rewrite <- !app_assoc.
Qed.

Lemma scrollToTop_run s :
  scrollToTop s =
  (Normal tt,
   onPage (λ p,
     set_viewport (λ v, mkViewport 0 0 0 (scrollCalls v ++ [scrollToOrigin])
                                   (scrollIntoView v))
       (set_history (λ h, mkHistory (match scrollRestoration h with
                                     | Some _ => Some "manual"%string
                                     | None => None
                                     end) (pushStateSupported h)
                                    (pushStateRefused h) (pushedURLs h))
          (set_callLog (λ l, l ++ [CallScrollToTop]) p))) s).
Proof.
  unfold scrollToTop. js_unfold. cbn. f_equal. unfold onPage. cbn. f_equal.
  unfold set_history, set_viewport. cbn.
  destruct s as [[? ? ? [[r|] ? ? ?] ? ? ? ? ?] ?]; by cbn.
Qed.

Lemma initMobileMenu_run s :
  initMobileMenu s =
  (Normal tt,
   onPage (λ p, registerKeydowns (menuKeydownListeners (document p))
                  (registerClicks (menuClickListeners (document p))
                     (set_callLog (λ l, l ++ [CallInitMobileMenu]) p))) s).
Proof.
  destruct s as [[d ? ? ? ? [] ? ? ?] ?].
  unfold initMobileMenu, menuKeydownListeners, menuClickListeners. js_unfold.
  unfold onPage, registerClicks, registerKeydowns, set_listeners, set_callLog.
  cbn -[querySelector querySelectorAll forEach addClickListener addKeydownListener].
  destruct (querySelector d sel_mobile_menu_toggle) as [menuToggle|];
    [destruct (querySelector d sel_nav) as [nav|]|].
  - rewrite addClickListener_run, forEach_addClickListener, addClickListener_run.
    unfold addKeydownListener, modify. f_equal.
    unfold onPage, registerClicks, registerKeydowns, set_listeners, set_callLog.
    cbn -[querySelectorAll]. by rewrite <- !app_assoc.
  - unfold onPage, registerClicks, registerKeydowns, set_listeners. cbn.
    by rewrite !app_nil_r.
  - unfold onPage, registerClicks, registerKeydowns, set_listeners. cbn.
    by rewrite !app_nil_r.
Qed.

Lemma initFAQ_run s :
  initFAQ s =
  (Normal tt,
   onPage (λ p, registerKeydowns (faqKeydownListeners (document p))
                  (registerClicks (faqClickListeners (document p))
                     (set_callLog (λ l, l ++ [CallInitFAQ]) p))) s).
Proof.
  destruct s as [[d ? ? ? ? [] ? ? ?] ?].
  unfold initFAQ, faqKeydownListeners, faqClickListeners. js_unfold.
  unfold onPage, registerClicks, registerKeydowns, set_listeners, set_callLog.
  cbn -[querySelectorAll forEach].
  case_bool_decide as Hlen.
  - apply nil_length_inv in Hlen. rewrite Hlen. cbn. by rewrite !app_nil_r.
  - by rewrite forEach_addFaqListeners.
Qed.

Lemma initSmoothScroll_run s :
  initSmoothScroll s =
  (Normal tt,
   onPage (λ p, registerClicks (anchorClickListeners (document p))
                  (set_callLog (λ l, l ++ [CallInitSmoothScroll]) p)) s).
Proof.
  destruct s as [[d ? ? ? ? [] ? ? ?] ?].
  unfold initSmoothScroll, anchorClickListeners. js_unfold.
  unfold onPage, registerClicks, set_listeners, set_callLog.
  cbn -[querySelectorAll forEach].
  case_bool_decide as Hlen.
  - apply nil_length_inv in Hlen. rewrite Hlen. cbn. by rewrite !app_nil_r.
  - by rewrite forEach_addClickListener.
Qed.

Lemma initHeaderScroll_run s :
  initHeaderScroll s =
  (Normal tt,
   onPage (λ p, registerScrolls (headerScrollListeners (document p))
                  (match querySelector (document p) sel_header with
                   | Some _ => set_lastScrollTop 0
                   | None => id
                   end (set_callLog (λ l, l ++ [CallInitHeaderScroll]) p))) s).
Proof.
  destruct s as [[d ? ? ? ? [] ? ? ?] ?].
  unfold initHeaderScroll, headerScrollListeners. js_unfold.
  unfold onPage, registerScrolls, set_listeners, set_callLog, addScrollListener, modify.
  cbn -[querySelector].
  destruct (querySelector d sel_header) as [header|]; cbn; [done|].
  by rewrite !app_nil_r.
Qed.

Lemma bind_Normal {A B} (m : Js A) (f : A → Js B) s a s' :
  m s = (Normal a, s') → (m ≫= f) s = f a s'.
Proof. intros Hm. unfold mbind, Js_bind. by rewrite Hm. Qed.

Lemma onReady_run s :
  onReady s = (Normal tt, onPage loadedPage s).
Proof.
  unfold onReady.
  rewrite (bind_Normal _ _ _ _ _ (scrollToTop_run s)).
  rewrite (bind_Normal _ _ _ _ _ (initMobileMenu_run _)).
  rewrite (bind_Normal _ _ _ _ _ (initFAQ_run _)).
  rewrite (bind_Normal _ _ _ _ _ (initSmoothScroll_run _)).
  rewrite initHeaderScroll_run.
  f_equal. destruct s as [[d ? [] [] ? [] ? ? ?] ?].
  cbv beta iota zeta delta
    [onPage loadedPage registerScrolls registerClicks registerKeydowns
     set_listeners set_callLog set_history set_viewport
     page document readyState viewport history activeElement listeners
     lastScrollTop callLog uncaught defaultPrevented onClick onKeydown onScroll
     onDOMContentLoaded scrollRestoration pushStateSupported pushedURLs
     pageXOffset pageYOffset documentElementScrollTop scrollCalls].
  destruct (querySelector d sel_header);
    cbv beta iota zeta delta
      [set_lastScrollTop id
       page document readyState viewport history activeElement listeners
       lastScrollTop callLog uncaught defaultPrevented];
    by rewrite <- !app_assoc.
Qed.

Lemma init_run s :
  init s =
  match readyState (page s) with
  | Loading =>
      (Normal tt,
       onPage (set_listeners (λ ls, mkListeners (onClick ls) (onKeydown ls) (onScroll ls)
                                      (onDOMContentLoaded ls ++ [InitAll]))) s)
  | _ => (Normal tt, onPage loadedPage s)
  end.
Proof.
  pose proof (onReady_run s) as Hready. unfold onReady in Hready.
  unfold init. unfold gets at 1. unfold mbind at 1. unfold Js_bind at 1.
  cbn [page]. by destruct (readyState (page s)).
Qed.

Lemma runScript_run p :
  runScript p =
  match readyState p with
  | Loading =>
      mkJsState
        (set_listeners (λ ls, mkListeners (onClick ls) (onKeydown ls) (onScroll ls)
                                (onDOMContentLoaded ls ++ [InitAll])) p) false
  | _ => mkJsState (loadedPage p) false
  end.
Proof.
  unfold runScript, reportException. rewrite init_run. cbn [page].
  by destruct (readyState p).
Qed.

(** C9.  One page load, on either start-up path, runs the five functions
    once each with [scrollToTop] first; nothing of them has run before
    DOMContentLoaded when the script found the document still loading.
    [scrollToTop] sets scroll restoration to manual when the history has
    that property and leaves the viewport at (0,0). *)
Theorem scroll_reset_once_and_first (p : Page) (parsed : Document) :
  onDOMContentLoaded (listeners p) = [] →
  let p' := pageLoad p parsed in
  callLog p' = callLog p ++ startupCalls ∧
  head startupCalls = Some CallScrollToTop ∧
  length (filter (λ c, c = CallScrollToTop) startupCalls) = 1%nat ∧
  (readyState p = Loading → callLog (page (runScript p)) = callLog p) ∧
  scrollRestoration (history p') =
    match scrollRestoration (history p) with
    | Some _ => Some "manual"%string
    | None => None
    end ∧
  pageXOffset (viewport p') = 0%Q ∧
  pageYOffset (viewport p') = 0%Q ∧
  scrollCalls (viewport p') = scrollCalls (viewport p) ++ [scrollToOrigin] ∧
  uncaught p' = uncaught p.
Proof.
  intros Hfresh p'. unfold p', pageLoad. rewrite runScript_run.
  destruct (readyState p) eqn:Hstate; cbn [page];
    [|by repeat split|by repeat split].
  unfold dispatchDOMContentLoaded.
  cbn [listeners set_readyState set_document set_listeners onDOMContentLoaded].
  rewrite Hfresh. cbn [app foldl runReadyListener]. unfold reportException.
  rewrite onReady_run. by repeat split.
Qed.

(** ** Keyboard activation of a question *)

Section FaqKeyboard.

Variable querySelectorText : Document → string → Completion (option ElementRef).

Lemma faqQuestionKeydown_run this event s :
  faqQuestionKeydown querySelectorText this event s =
  if bool_decide (key event = "Enter"%string) || bool_decide (key event = " "%string)
  then (Normal tt,
        mkJsState (page (pointerClick querySelectorText this (page s))) true)
  else (Normal tt, s).
Proof. unfold faqQuestionKeydown. by destruct (_ || _). Qed.

End FaqKeyboard.

(** ** When the FAQ click listener throws *)

(** The close-others pass throws as soon as the document has an item,
    other than the clicked one, without a question in it. *)
Lemma closeItems_loop_throws (d0 : Document) faqItem (l : list ElementRef) : ∀ s,
  sameStructure d0 (document (page s)) →
  (∃ item, item ∈ l ∧ item ≠ faqItem ∧
           querySelectorIn d0 item sel_faq_question = None) →
  (forEach l (closeItem faqItem) s).1 = Throw TypeError.
Proof.
  induction l as [|item l IH]; intros s Hsame (bad & Hin & Hne & Hnone).
  - by apply elem_of_nil in Hin.
  - cbn [forEach]. unfold mbind, Js_bind.
    destruct (decide (item = faqItem)) as [->|Hitem].
    + rewrite closeItem_self. apply IH; [done|].
      exists bad. apply elem_of_cons in Hin as [->|Hin]; done.
    + destruct (querySelectorIn d0 item sel_faq_question) as [question|] eqn:Hq.
      * rewrite (closeItem_other faqItem item question s Hitem)
          by by rewrite <- (sameStructure_querySelectorIn d0).
        apply IH.
        { etrans; [done|]. apply closeItemDoc_sameStructure. }
        exists bad. apply elem_of_cons in Hin as [->|Hin]; [congruence|done].
      * by rewrite (closeItem_no_question faqItem item s Hitem)
          by by rewrite <- (sameStructure_querySelectorIn d0).
Qed.

Lemma faqQuestionClick_throws (s : JsState) (this faqItem item : ElementRef) :
  let d := document (page s) in
  parentOf d this = Some faqItem →
  item ∈ querySelectorAll d sel_faq_item →
  item ≠ faqItem →
  querySelectorIn d item sel_faq_question = None →
  (faqQuestionClick this s).1 = Throw TypeError.
Proof.
  intros d Hparent Hin Hne Hnone.
  rewrite (faqQuestionClick_unfold this faqItem s Hparent).
  pose proof (closeItems_loop_throws d faqItem (querySelectorAll d sel_faq_item) s)
    as Hthrow.
  rewrite closeOtherItems_unfold. fold d.
  destruct (forEach (querySelectorAll d sel_faq_item) (closeItem faqItem) s)
    as [[[]|e] s1]; cbn in *.
  - discriminate Hthrow; [done|]. by exists item.
  - apply Hthrow; [done|]. by exists item.
Qed.

(** The click listener of a question completes normally exactly when the
    question has a parent and every other FAQ item has a question. *)
Lemma faqQuestionClick_completes_iff (s : JsState) (this : ElementRef) :
  let d := document (page s) in
  (faqQuestionClick this s).1 = Normal tt ↔
  ∃ faqItem, parentOf d this = Some faqItem ∧
    ∀ item, item ∈ querySelectorAll d sel_faq_item → item ≠ faqItem →
            is_Some (querySelectorIn d item sel_faq_question).
Proof.
  intros d. destruct (parentOf d this) as [faqItem|] eqn:Hparent.
  - split.
    + intros Hnormal. exists faqItem. split; [done|]. intros item Hin Hne.
      destruct (querySelectorIn d item sel_faq_question) eqn:Hq; [done|].
      by rewrite (faqQuestionClick_throws s this faqItem item Hparent Hin Hne Hq)
        in Hnormal.
    + intros (faqItem' & [= <-] & Hall).
      destruct (closeItems_loop d faqItem (querySelectorAll d sel_faq_item) s)
        as (s1 & Hrun & _); [done|done|].
      rewrite (faqQuestionClick_unfold this faqItem s Hparent), closeOtherItems_unfold.
      fold d. by rewrite Hrun.
  - rewrite (faqQuestionClick_no_parent this s Hparent). cbn. split; [done|].
    by intros (? & ? & _).
Qed.

(** The listeners of the menu and of the header, and the start-up sequence,
    always complete normally. *)
Lemma menu_header_startup_complete (s : JsState) (menuToggle nav header : ElementRef)
    (event : Event) :
  (menuToggleClick menuToggle nav s).1 = Normal tt ∧
  (navLinkClick menuToggle nav s).1 = Normal tt ∧
  (outsideClick menuToggle nav event s).1 = Normal tt ∧
  (escapeKeydown menuToggle nav event s).1 = Normal tt ∧
  (headerScroll header s).1 = Normal tt ∧
  (onReady s).1 = Normal tt ∧
  (init s).1 = Normal tt.
Proof.
  rewrite outsideClick_run, escapeKeydown_run, headerScroll_run, onReady_run, init_run.
  repeat split; try done. by destruct (readyState (page s)).
Qed.

(** C5, the failing input: a page with two FAQ items of which the second
    has no question.  A click on the question of the first item makes the
    listener throw a TypeError in its close-others pass; the exception
    escapes the listener, and the clicked item is left collapsed with its
    question's aria-expanded still "false". *)
Theorem faq_click_throws_on_item_without_question :
  (faqQuestionClick 3%nat (mkJsState itemWithoutQuestionLoaded false)).1
    = Throw TypeError ∧
  uncaught (page (pointerClick idSelectorEngine 3%nat itemWithoutQuestionLoaded))
    = [TypeError] ∧
  isActive (page (pointerClick idSelectorEngine 3%nat itemWithoutQuestionLoaded)) 2%nat
    = false ∧
  ariaExpanded (page (pointerClick idSelectorEngine 3%nat itemWithoutQuestionLoaded)) 3%nat
    = Some "false"%string ∧
  wf_documentb itemWithoutQuestionDocument = true ∧
  querySelectorAll itemWithoutQuestionDocument sel_faq_item = [2%nat; 4%nat] ∧
  querySelectorIn itemWithoutQuestionDocument 4%nat sel_faq_question = None.
Proof. vm_compute. by repeat split. Qed.

(** ** The listeners the script registers *)

Lemma wf_documentb_correct (d : Document) : wf_documentb d = true → wf_document d.
Proof.
  unfold wf_documentb, wf_document. rewrite forallb_forall.
  intros Hall i e p Hi Hp.
  specialize (Hall (i, e)). cbn in Hall. rewrite Hp in Hall.
  apply Nat.ltb_lt, Hall. apply list_elem_of_In.
  apply list_elem_of_lookup. exists i. rewrite list_lookup_imap, Hi. done.
Qed.



Lemma listenersOn_app {L} (l1 l2 : list (EventTarget * L)) t :
  listenersOn (l1 ++ l2) t = listenersOn l1 t ++ listenersOn l2 t.
Proof. unfold listenersOn. by rewrite filter_app, fmap_app. Qed.

Lemma listenersOn_elements_other {L} (xs : list ElementRef) (l : L) t :
  (∀ x, x ∈ xs → t ≠ OnElement x) →
  listenersOn ((λ x, (OnElement x, l)) <$> xs) t = [].
Proof.
  intros Hne. induction xs as [|x xs IH]; [done|].
  rewrite fmap_cons. unfold listenersOn in *. rewrite filter_cons_False.
  - apply IH. intros y Hy. apply Hne. by apply list_elem_of_further.
  - cbn. intros Heq. by apply (Hne x); [apply list_elem_of_here|].
Qed.

Lemma listenersOn_elements_here {L} (xs : list ElementRef) (l : L) a :
  NoDup xs → a ∈ xs →
  listenersOn ((λ x, (OnElement x, l)) <$> xs) (OnElement a) = [l].
Proof.
  intros Hnd Ha. induction xs as [|x xs IH]; [by apply elem_of_nil in Ha|].
  apply NoDup_cons in Hnd as [Hx Hnd]. rewrite fmap_cons.
  apply elem_of_cons in Ha as [->|Ha].
  - unfold listenersOn. rewrite filter_cons_True by done. rewrite fmap_cons. f_equal.
    apply (listenersOn_elements_other xs l (OnElement x)).
    intros y Hy [= ->]. done.
  - unfold listenersOn. rewrite filter_cons_False.
    + by apply IH.
    + cbn. intros [= ->]. done.
Qed.

Lemma querySelectorAll_NoDup (d : Document) s : NoDup (querySelectorAll d s).
Proof. unfold querySelectorAll. apply NoDup_filter, NoDup_seq. Qed.

Lemma listenersOn_singleton_here {L} (t : EventTarget) (l : L) :
  listenersOn [(t, l)] t = [l].
Proof. unfold listenersOn. by rewrite filter_cons_True by done. Qed.

Lemma listenersOn_singleton_other {L} (t t' : EventTarget) (l : L) :
  t ≠ t' → listenersOn [(t, l)] t' = [].
Proof. intros Hne. unfold listenersOn. by rewrite filter_cons_False by done. Qed.

Lemma pageLoad_hasScriptListeners (p : Page) (parsed : Document) :
  listeners p = mkListeners [] [] [] [] →
  hasScriptListeners (pageLoad p parsed).
Proof.
  intros Hl. unfold pageLoad. rewrite runScript_run.
  destruct (readyState p) eqn:Hstate; cbn [page].
  - unfold dispatchDOMContentLoaded.
    cbn [listeners set_readyState set_document set_listeners onDOMContentLoaded].
    rewrite Hl. cbn [app foldl runReadyListener onDOMContentLoaded].
    unfold reportException. rewrite onReady_run.
    unfold hasScriptListeners, loadedPage. cbn. by rewrite Hl.
  - unfold hasScriptListeners, loadedPage. cbn. by rewrite Hl.
  - unfold hasScriptListeners, loadedPage. cbn. by rewrite Hl.
Qed.

(** ** From listeners to events

    What a whole click or key press does when the listeners met along the
    propagation path are known. *)

Section Events.

Variable querySelectorText : Document → string → Completion (option ElementRef).

(** Targets without listeners leave the state alone. *)
Lemma foldl_no_listeners {L} (run : EventTarget → L → JsState → JsState)
    (registered : list (EventTarget * L)) (path : list EventTarget) s :
  (∀ t, t ∈ path → listenersOn registered t = []) →
  foldl (λ s t, foldl (λ s l, run t l s) s (listenersOn registered t)) s path = s.
Proof.
  revert s. induction path as [|t path IH]; intros s Hnone; [done|].
  cbn [foldl]. rewrite (Hnone t) by apply list_elem_of_here. cbn [foldl].
  apply IH. intros t' Ht'. apply Hnone. by apply list_elem_of_further.
Qed.

(** Listeners that do nothing leave the state alone. *)
Lemma foldl_idle_listeners {L} (run : EventTarget → L → JsState → JsState)
    (registered : list (EventTarget * L)) (path : list EventTarget) s :
  (∀ t l s, t ∈ path → l ∈ listenersOn registered t → run t l s = s) →
  foldl (λ s t, foldl (λ s l, run t l s) s (listenersOn registered t)) s path = s.
Proof.
  revert s. induction path as [|t path IH]; intros s Hidle; [done|].
  cbn [foldl].
  assert (Hin : ∀ ls s, (∀ l, l ∈ ls → l ∈ listenersOn registered t) →
                        foldl (λ s l, run t l s) s ls = s).
  { induction ls as [|l ls IHl]; intros s' Hsub; [done|]. cbn [foldl].
    rewrite (Hidle t l s') by (try apply list_elem_of_here; apply Hsub, list_elem_of_here).
    apply IHl. intros l' Hl'. apply Hsub. by apply list_elem_of_further. }
  rewrite Hin by done.
  apply IH. intros t' l' s' Ht'. apply Hidle. by apply list_elem_of_further.
Qed.

Lemma elem_of_listenersOn {L} (registered : list (EventTarget * L)) t l :
  l ∈ listenersOn registered t ↔ (t, l) ∈ registered.
Proof.
  unfold listenersOn. rewrite list_elem_of_fmap. split.
  - intros ([t' l'] & -> & Hin). apply list_elem_of_filter in Hin as [Ht Hin].
    cbn in *. by subst.
  - intros Hin. exists (t, l). split; [done|]. by apply list_elem_of_filter.
Qed.

(** When the lookup of the href throws, the smooth-scroll listener throws
    the same exception, before it has changed anything.  (Its other
    exception is the SecurityError of a refused [pushState], after the
    scroll was requested.)  The keyboard listener of a question always
    completes. *)
Lemma anchorLinkClick_throws this s e :
  let targetId := attributeOf (document (page s)) this "href" in
  targetId ≠ Some "#"%string → targetId ≠ Some ""%string →
  querySelectorText (document (page s)) (toDOMString targetId) = Throw e →
  anchorLinkClick querySelectorText this s = (Throw e, s).
Proof.
  intros targetId H1 H2 Hthrow. rewrite anchorLinkClick_lookup by done.
  fold targetId. by rewrite Hthrow.
Qed.

Lemma faqQuestionKeydown_completes this event s :
  (faqQuestionKeydown querySelectorText this event s).1 = Normal tt.
Proof. rewrite faqQuestionKeydown_run. by destruct (_ || _). Qed.




Lemma menuToggleClick_frame this nav s :
  let s' := stateAfter (menuToggleClick this nav) s in
  listeners (page s') = listeners (page s) ∧
  sameStructure (document (page s)) (document (page s')) ∧
  defaultPrevented s' = defaultPrevented s.
Proof.
  cbn zeta. split; [done|]. split; [|done].
  rewrite menuToggleClick_document. cbn zeta.
  etrans; [apply (sameStructure_alter _ (set_classList (toggleClass "active")) this),
             sameSkeleton_toggle_active|].
  etrans; [apply (sameStructure_alter _ (set_classList (toggleClass "active")) nav),
             sameSkeleton_toggle_active|].
  apply sameStructure_alter, sameSkeleton_set_aria.
Qed.





Lemma script_click_listeners (p : Page) (menuToggle nav : ElementRef) :
  let d := document p in
  hasScriptListeners p →
  querySelector d sel_mobile_menu_toggle = Some menuToggle →
  querySelector d sel_nav = Some nav →
  (plainElement d menuToggle →
   listenersOn (onClick (listeners p)) (OnElement menuToggle) = [MenuToggleClick nav]) ∧
  (∀ a, a ≠ menuToggle → plainElement d a →
        listenersOn (onClick (listeners p)) (OnElement a) = []) ∧
  listenersOn (onClick (listeners p)) OnDocument = [OutsideClick menuToggle nav] ∧
  listenersOn (onClick (listeners p)) OnWindow = [].
Proof.
  intros d (Hc & _ & _) Hmt Hnav. fold d in Hc. rewrite Hc.
  unfold menuClickListeners, faqClickListeners, anchorClickListeners.
  rewrite Hmt, Hnav.
  repeat split.
  - intros (Hl & Hq & Ha). rewrite !listenersOn_app.
    rewrite listenersOn_singleton_here, listenersOn_singleton_other by done.
    rewrite !listenersOn_elements_other; [done| | |]; intros x Hx [= ->]; done.
  - intros a Hne (Hl & Hq & Ha). rewrite !listenersOn_app.
    rewrite !listenersOn_singleton_other by congruence.
    rewrite !listenersOn_elements_other; [done| | |]; intros x Hx [= ->]; done.
  - rewrite !listenersOn_app.
    rewrite listenersOn_singleton_here, listenersOn_singleton_other by done.
    by rewrite !listenersOn_elements_other.
  - rewrite !listenersOn_app.
    rewrite !listenersOn_singleton_other by done.
    by rewrite !listenersOn_elements_other.
Qed.



End Events.


(** ** Whole events: toggle clicks, key presses on a question, scrolling *)

Section WholeEvents.

Variable querySelectorText : Document → string → Completion (option ElementRef).




End WholeEvents.

(** ** The properties on the sample pages *)

Lemma sampleLoaded_lookup (i : ElementRef) :
  (i < 15)%nat → is_Some (document sampleLoaded !! i).
Proof. intros Hi. apply lookup_lt_is_Some. vm_compute. lia. Qed.

Lemma sampleLoaded_script : hasScriptListeners sampleLoaded.
Proof. unfold hasScriptListeners. vm_compute. by repeat split. Qed.

Lemma sampleLoaded_wf : wf_document (document sampleLoaded).
Proof. apply wf_documentb_correct. vm_compute. reflexivity. Qed.

Lemma sampleLoaded_queries :
  querySelectorAll (document sampleLoaded) sel_nav_a = [5; 6]%nat ∧
  querySelectorAll (document sampleLoaded) sel_faq_question = [10; 13]%nat ∧
  querySelectorAll (document sampleLoaded) sel_anchor_links = [5; 6]%nat ∧
  querySelectorAll (document sampleLoaded) sel_faq_item = [9; 12]%nat ∧
  querySelector (document sampleLoaded) sel_mobile_menu_toggle = Some 3%nat ∧
  querySelector (document sampleLoaded) sel_nav = Some 4%nat ∧
  querySelector (document sampleLoaded) sel_header = Some 2%nat ∧
  ancestors (document sampleLoaded) 3 = [2; 1; 0]%nat ∧
  ancestors (document sampleLoaded) 10 = [9; 8; 1; 0]%nat.
Proof. vm_compute. by repeat split. Qed.

(** Clicking the first question of the sample page: the open second item
    closes and the first opens. *)
Lemma faq_click_single_open_sample :
  let s' := stateAfter (faqQuestionClick 10%nat) (mkJsState sampleLoaded false) in
  isActive (page s') 9%nat = true ∧ isActive (page s') 12%nat = false.
Proof.
  pose proof (faq_click_single_open (mkJsState sampleLoaded false) 10%nat 9%nat) as H.
  cbv zeta in H.
  assert (Hitems : querySelectorAll (document sampleLoaded) sel_faq_item = [9; 12]%nat)
    by (vm_compute; reflexivity).
  destruct H as (_ & _ & _ & _ & _ & _ & Hothers & _ & _ & Hopen & _).
  - vm_compute. reflexivity.
  - cbn [page]. rewrite Hitems. apply list_elem_of_here.
  - cbn [page]. rewrite Hitems. intros item Hin Hne.
    apply elem_of_cons in Hin as [->|Hin]; [done|].
    apply list_elem_of_singleton in Hin as ->. exists 13%nat. vm_compute. reflexivity.
  - cbv zeta. split.
    + apply Hopen. vm_compute. reflexivity.
    + apply Hothers; [|lia]. cbn [page]. rewrite Hitems.
      apply list_elem_of_further, list_elem_of_here.
Defined.




(** A click on the sample page's link to #services: the scroll goes to
    600 - 80 - 20, the fragment is pushed, section 7 gets the focus, and
    the sample browser has jumped to the section's top, at 600, to bring it
    into view.  A click on a link to a disabled button: the button gets the
    tabindex and the focus stays where it was. *)
Lemma anchor_click_scrolls_to_target_sample :
  let s' := stateAfter (anchorLinkClick idSelectorEngine 5) (mkJsState sampleLoaded false) in
  let u' := stateAfter (anchorLinkClick idSelectorEngine 2)
                       (mkJsState disabledTargetLoaded false) in
  last (scrollCalls (viewport (page s'))) = Some (mkScrollCall None 500 BehaviorSmooth) ∧
  pushedURLs (history (page s')) = [Some "#services"%string] ∧
  activeElement (page s') = Some 7%nat ∧
  defaultPrevented s' = true ∧
  offsets (viewport (page s')) = (0, 600, 600)%Q ∧
  attributeOf (document (page u')) 3%nat "tabindex" = Some "-1"%string ∧
  activeElement (page u') = None.
Proof.
  destruct (anchor_click_scrolls_to_target idSelectorEngine (mkJsState sampleLoaded false)
              5%nat "#services" 7%nat
              (el "section" (Some 1%nat) [] [("id", "services")]%string 600 500))
    as (Hprevented & Hscroll & _ & _ & _ & Hgoes).
  - vm_compute. reflexivity.
  - discriminate.
  - discriminate.
  - vm_compute. reflexivity.
  - vm_compute. reflexivity.
  - destruct Hgoes as (_ & Hpushed & _ & Hfocus & Hview); [right; vm_compute; reflexivity|].
    destruct (anchor_click_scrolls_to_target idSelectorEngine
                (mkJsState disabledTargetLoaded false) 2%nat "#send" 3%nat
                (el "button" (Some 1%nat) [] [("id", "send"); ("disabled", "")]%string
                    400 40))
      as (_ & _ & _ & _ & _ & Hgoes').
    + vm_compute. reflexivity.
    + discriminate.
    + discriminate.
    + vm_compute. reflexivity.
    + vm_compute. reflexivity.
    + destruct Hgoes' as (_ & _ & Htab & Hfocus' & _); [right; vm_compute; reflexivity|].
      cbv zeta. split.
      * rewrite Hscroll. rewrite last_snoc. vm_compute. reflexivity.
      * split; [rewrite Hpushed; vm_compute; reflexivity|].
        split; [|split; [done|split]].
        -- rewrite Hfocus. vm_compute. reflexivity.
        -- rewrite Hview. vm_compute. reflexivity.
        -- split; [exact Htab|]. rewrite Hfocus'. vm_compute. reflexivity.
Defined.



(** Loading the sample page while the document is still being parsed. *)
Lemma scroll_reset_once_and_first_sample :
  callLog (pageLoad (freshPage sampleDocument Loading true) sampleDocument) = startupCalls ∧
  scrollRestoration (history (pageLoad (freshPage sampleDocument Loading true) sampleDocument))
    = Some "manual"%string ∧
  pageYOffset (viewport (pageLoad (freshPage sampleDocument Loading true) sampleDocument))
    = 0%Q.
Proof.
  destruct (scroll_reset_once_and_first (freshPage sampleDocument Loading true) sampleDocument)
    as (Hlog & _ & _ & _ & Hrestore & _ & Hy & _).
  - reflexivity.
  - split; [exact Hlog|]. split; [exact Hrestore|exact Hy].
Defined.

(** On the sample page: a toggle click, then Escape. *)
Lemma menu_markers_stay_equal_sample :
  let s := runMenuListeners 3 4 [RunToggleClick] (mkJsState sampleLoaded false) in
  let s' := stateAfter (runMenuListener 3 4 (RunEscapeKeydown (mkEvent 1 "Escape"))) s in
  markersEqual (page s) 3%nat 4%nat ∧
  markersEqual (page s') 3%nat 4%nat ∧
  ariaInSync (page s') 3%nat 4%nat.
Proof.
  destruct (menu_markers_stay_equal sampleLoaded 3%nat 4%nat [RunToggleClick]
              (RunEscapeKeydown (mkEvent 1 "Escape")))
    as (_ & Heq & Heq' & _ & Hsync & _).
  - apply sampleLoaded_lookup. lia.
  - apply sampleLoaded_lookup. lia.
  - vm_compute. reflexivity.
  - cbv zeta. split; [exact Heq|]. split; [exact Heq'|].
    apply Hsync. vm_compute. reflexivity.
Defined.

(** ** Where two claims of the specification fail *)

(** C1 as the specification states it: every click on a question flips the
    item of the clicked question.  On a page whose question is wrapped in a
    heading the click completes, the item (collapsed before) is still
    collapsed, the heading carries the marker and the question says
    "true".  On the page whose second item has no question the click on
    the first question throws and its item is still collapsed. *)
Lemma faq_click_leaves_the_clicked_item_collapsed :
  let s := mkJsState wrappedQuestionLoaded false in
  let s' := stateAfter (faqQuestionClick 4%nat) s in
  let t := mkJsState itemWithoutQuestionLoaded false in
  let t' := stateAfter (faqQuestionClick 3%nat) t in
  querySelectorAll (document (page s)) sel_faq_item = [2%nat] ∧
  contains (document (page s)) 2%nat 4%nat = true ∧
  isActive (page s) 2%nat = false ∧
  (faqQuestionClick 4%nat s).1 = Normal tt ∧
  isActive (page s') 2%nat = false ∧
  isActive (page s') 3%nat = true ∧
  ariaExpanded (page s') 4%nat = Some "true"%string ∧
  querySelectorAll (document (page t)) sel_faq_item = [2%nat; 4%nat] ∧
  parentOf (document (page t)) 3%nat = Some 2%nat ∧
  isActive (page t) 2%nat = false ∧
  (faqQuestionClick 3%nat t).1 = Throw TypeError ∧
  isActive (page t') 2%nat = false.
Proof. vm_compute. by repeat split. Qed.

(** C6 as the specification states it: the history is updated to the
    fragment on every such click.  In a browser whose history object has no
    pushState the click on the sample page's link to #services scrolls and
    moves the focus, and the history is left as it was. *)
Lemma anchor_click_without_pushState_leaves_history :
  let s := mkJsState sampleLoadedNoPushState false in
  let s' := stateAfter (anchorLinkClick idSelectorEngine 5) s in
  attributeOf (document (page s)) 5%nat "href" = Some "#services"%string ∧
  idSelectorEngine (document (page s)) "#services" = Normal (Some 7%nat) ∧
  defaultPrevented s' = true ∧
  last (scrollCalls (viewport (page s'))) = Some (mkScrollCall None 500 BehaviorSmooth) ∧
  activeElement (page s') = Some 7%nat ∧
  pushedURLs (history (page s')) = [] ∧
  history (page s') = history (page s).
Proof. vm_compute. by repeat split. Qed.

(** C10 as the specification states it: after every listener of the menu
    the toggle's aria-expanded is the string form of the markers' state.
    On the sample page, whose toggle has no aria-expanded attribute, the
    markers are both absent at start-up; after a press of Escape they still
    are, and aria-expanded is still absent, not "false". *)
Lemma menu_aria_unset_after_escape_on_closed_menu :
  let s' := keyPress idSelectorEngine 1 "Escape" sampleLoaded in
  isActive sampleLoaded 3%nat = false ∧
  isActive sampleLoaded 4%nat = false ∧
  page s' = page (stateAfter (escapeKeydown 3 4 (mkEvent 1 "Escape"))
                    (mkJsState sampleLoaded false)) ∧
  isActive (page s') 3%nat = isActive (page s') 4%nat ∧
  ariaExpanded (page s') 3%nat = None ∧
  ariaExpanded (page s') 3%nat ≠ Some (stringOfBool (isActive (page s') 4%nat)).
Proof. vm_compute. by repeat split. Qed.

(** * Further properties of the script *)

(** ** What every event keeps *)

#[global] Instance keepsSetup_refl : Reflexive keepsSetup.
Proof. intros s. by split. Qed.

#[global] Instance keepsSetup_trans : Transitive keepsSetup.
Proof.
  intros s1 s2 s3 [Hl Hs] [Hl' Hs']. split; [congruence|by etrans].
Qed.

Lemma keepsSetup_alter f i s :
  (∀ e, sameSkeleton e (f e)) →
  keepsSetup s (onPage (set_document (alter f i)) s).
Proof. intros Hf. split; [done|]. cbn. by apply sameStructure_alter. Qed.

Lemma closedMenu_keeps menuToggle nav s : keepsSetup s (closedMenu menuToggle nav s).
Proof.
  unfold closedMenu. split; [done|]. cbn.
  etrans; [apply (sameStructure_alter _ (set_classList (λ cs, cs ∖ {["active"]}))
                    menuToggle), sameSkeleton_remove_active|].
  etrans; [apply (sameStructure_alter _ (set_classList (λ cs, cs ∖ {["active"]}))
                    nav), sameSkeleton_remove_active|].
  apply sameStructure_alter, sameSkeleton_set_aria.
Qed.

Lemma closeItem_keeps faqItem item s : keepsSetup s (closeItem faqItem item s).2.
Proof.
  unfold closeItem. case_bool_decide; [|done]. js_unfold. cbn.
  destruct (querySelectorIn _ item sel_faq_question) as [question|]; cbn.
  - etrans; [apply (keepsSetup_alter (set_classList (λ cs, cs ∖ {["active"]})) item),
               sameSkeleton_remove_active|].
    apply (keepsSetup_alter (set_attributes (insert "aria-expanded" "false")) question
             (onPage (set_document
                        (alter (set_classList (λ cs, cs ∖ {["active"]})) item)) s)),
      sameSkeleton_set_aria.
  - apply keepsSetup_alter, sameSkeleton_remove_active.
Qed.

Lemma forEach_keeps {A} (f : A → Js unit) (l : list A) :
  (∀ x s, keepsSetup s (f x s).2) → ∀ s, keepsSetup s (forEach l f s).2.
Proof.
  intros Hf. induction l as [|x l IH]; intros s; [done|].
  cbn [forEach]. unfold mbind, Js_bind.
  pose proof (Hf x s) as Hx. destruct (f x s) as [[[]|e] s1]; cbn in *; [|done].
  etrans; [done|]. apply IH.
Qed.

Lemma faqQuestionClick_keeps this s : keepsSetup s (faqQuestionClick this s).2.
Proof.
  destruct (parentOf (document (page s)) this) as [faqItem|] eqn:Hparent.
  - rewrite (faqQuestionClick_unfold this faqItem s Hparent).
    pose proof (forEach_keeps (closeItem faqItem) (querySelectorAll (document (page s))
                  sel_faq_item) (closeItem_keeps faqItem) s) as Hloop.
    rewrite closeOtherItems_unfold.
    destruct (forEach _ (closeItem faqItem) s) as [[[]|e] s1]; cbn in *; [|done].
    destruct Hloop as [Hl Hs]. split; [done|]. cbn. etrans; [done|].
    unfold toggleItemDoc.
    etrans; [apply (sameStructure_alter _ (set_classList (toggleClass "active")) faqItem),
               sameSkeleton_toggle_active|].
    apply sameStructure_alter, sameSkeleton_set_aria.
  - by rewrite (faqQuestionClick_no_parent this s Hparent).
Qed.

Lemma headerScroll_keeps header s : keepsSetup s (headerScroll header s).2.
Proof.
  rewrite headerScroll_run. cbn. split; [done|]. cbn.
  apply sameStructure_alter, sameSkeleton_set_boxShadow.
Qed.

Lemma menuToggleClick_keeps this nav s : keepsSetup s (menuToggleClick this nav s).2.
Proof.
  destruct (menuToggleClick_frame this nav s) as (Hl & Hs & _). by split.
Qed.

Lemma reportException_keeps (m : Js unit) s :
  keepsSetup s (m s).2 → keepsSetup s (reportException m s).
Proof.
  unfold reportException. destruct (m s) as [[[]|e] s1]; cbn; [done|].
  intros [Hl Hs]. by split.
Qed.

(** A dispatch whose listeners all keep the set-up keeps it. *)
Lemma foldl_listeners_keep {L} (run : EventTarget → L → JsState → JsState)
    (registered : list (EventTarget * L)) (path : list EventTarget) :
  (∀ t l s, keepsSetup s (run t l s)) →
  ∀ s, keepsSetup s
         (foldl (λ s t, foldl (λ s l, run t l s) s (listenersOn registered t)) s path).
Proof.
  intros Hrun. induction path as [|t path IH]; intros s; [done|].
  cbn [foldl]. etrans; [|apply IH].
  generalize (listenersOn registered t). intros ls. revert s.
  induction ls as [|l ls IHl]; intros s; [done|].
  cbn [foldl]. etrans; [apply Hrun|apply IHl].
Qed.

Lemma hasScriptListeners_keeps (p p' : Page) :
  listeners p' = listeners p →
  sameStructure (document p) (document p') →
  hasScriptListeners p → hasScriptListeners p'.
Proof.
  intros Hl Hs (Hc & Hk & Hsc). unfold hasScriptListeners. rewrite Hl.
  unfold menuClickListeners, menuKeydownListeners, faqClickListeners,
    faqKeydownListeners, anchorClickListeners, headerScrollListeners in *.
  rewrite <- !(sameStructure_querySelector _ _ _ Hs) by done.
  rewrite <- !(sameStructure_querySelectorAll _ _ _ Hs) by done.
  done.
Qed.

Lemma wf_document_sameStructure (d d' : Document) :
  sameStructure d d' → wf_document d → wf_document d'.
Proof.
  intros Hs Hwf i e' p Hi Hp.
  pose proof (sameStructure_lookup d d' i Hs) as Hlook. rewrite Hi in Hlook.
  destruct (d !! i) as [e|] eqn:He; [|done].
  destruct Hlook as (_ & Hparent & _). apply (Hwf i e p He). congruence.
Qed.

Section EventsKeep.

Variable querySelectorText : Document → string → Completion (option ElementRef).

(** The three ways a run of the smooth-scroll listener can end: nothing
    changed; the whole sequence done; or the default suppressed and the
    scroll requested, and then a SecurityError from [pushState]. *)
Lemma anchorLinkClick_cases this s :
  let r := anchorLinkClick querySelectorText this s in
  r.2 = s ∨
  (∃ targetElement,
    r.1 = Normal tt ∧
    defaultPrevented r.2 = true ∧
    listeners (page r.2) = listeners (page s) ∧
    document (page r.2)
      = alter (set_attributes (insert "tabindex" "-1")) targetElement
              (document (page s)) ∧
    length (scrollCalls (viewport (page r.2)))
      = S (length (scrollCalls (viewport (page s))))) ∨
  (r.1 = Throw SecurityError ∧
   defaultPrevented r.2 = true ∧
   listeners (page r.2) = listeners (page s) ∧
   document (page r.2) = document (page s) ∧
   history (page r.2) = history (page s) ∧
   activeElement (page r.2) = activeElement (page s) ∧
   offsets (viewport (page r.2)) = offsets (viewport (page s)) ∧
   length (scrollCalls (viewport (page r.2)))
     = S (length (scrollCalls (viewport (page s))))).
Proof.
  cbn zeta. set (targetId := attributeOf (document (page s)) this "href").
  destruct (decide (targetId = Some "#"%string)) as [H1|H1];
    [left; by rewrite anchorLinkClick_skip by by left|].
  destruct (decide (targetId = Some ""%string)) as [H2|H2];
    [left; by rewrite anchorLinkClick_skip by by right|].
  rewrite anchorLinkClick_lookup by done. fold targetId.
  destruct (querySelectorText _ _) as [[targetElement|]|e]; [|by left|by left].
  right. cbn zeta.
  destruct (pushStateSupported (history (page s)) && pushStateRefused (history (page s)))
    eqn:Hthrows.
  - right. cbn. rewrite ?length_app. cbn. repeat split; try done. lia.
  - left. exists targetElement.
    destruct (pushStateSupported (history (page s))); cbn;
      destruct (alter _ targetElement (document (page s)) !! targetElement) as [e|];
      try destruct (focusable e); cbn; rewrite ?length_app; cbn;
      repeat split; try done; lia.
Qed.

Lemma anchorLinkClick_keeps this s :
  keepsSetup s (anchorLinkClick querySelectorText this s).2.
Proof.
  destruct (anchorLinkClick_cases this s)
    as [->|[(t & _ & _ & Hl & Hd & _)|(_ & _ & Hl & Hd & _)]]; [done| |].
  - split; [done|]. rewrite Hd. apply sameStructure_alter, sameSkeleton_set_tabindex.
  - split; [done|]. by rewrite Hd.
Qed.

Lemma runClickListener_keeps t l event s :
  keepsSetup s (reportException (runClickListener querySelectorText t l event) s).
Proof.
  apply reportException_keeps.
  destruct l as [nav|menuToggle nav|menuToggle nav| |]; destruct t as [this| |];
    cbn [runClickListener]; try done;
    rewrite ?navLinkClick_run, ?outsideClick_run; cbn [snd];
    try apply closedMenu_keeps; try apply menuToggleClick_keeps;
    try apply faqQuestionClick_keeps; try apply anchorLinkClick_keeps;
    by destruct (_ && _ && _); [apply closedMenu_keeps|].
Qed.

Lemma dispatchClick_keeps event s :
  keepsSetup s (dispatchClick querySelectorText event s).
Proof.
  unfold dispatchClick.
  apply (foldl_listeners_keep
           (λ t l s, reportException (runClickListener querySelectorText t l event) s)).
  intros. apply runClickListener_keeps.
Qed.

Lemma runKeydownListener_keeps t l event s :
  keepsSetup s (reportException (runKeydownListener querySelectorText t l event) s).
Proof.
  apply reportException_keeps.
  destruct l as [menuToggle nav|]; destruct t as [this| |];
    cbn [runKeydownListener]; try done;
    rewrite ?escapeKeydown_run, ?faqQuestionKeydown_run; cbn [snd];
    try (by destruct (_ && _); [apply closedMenu_keeps|]).
  destruct (_ || _); [|done]. cbn [snd].
  destruct (dispatchClick_keeps (mkEvent this "") (mkJsState (page s) false)) as [Hl Hs].
  by split.
Qed.

Lemma dispatchKeydown_keeps event s :
  keepsSetup s (dispatchKeydown querySelectorText event s).
Proof.
  unfold dispatchKeydown.
  apply (foldl_listeners_keep
           (λ t l s, reportException (runKeydownListener querySelectorText t l event) s)).
  intros. apply runKeydownListener_keeps.
Qed.

Lemma dispatchScroll_keeps p : keepsSetup (mkJsState p false) (dispatchScroll p).
Proof.
  unfold dispatchScroll. generalize (listenersOn (onScroll (listeners p)) OnWindow).
  intros ls.
  assert (Hgen : ∀ s0, keepsSetup s0
            (foldl (λ s l, reportException (runScrollListener l) s) s0 ls)).
  { induction ls as [|[header] ls IH]; intros s0; [done|]. cbn [foldl].
    etrans; [|apply IH]. apply reportException_keeps. apply headerScroll_keeps. }
  apply Hgen.
Qed.

End EventsKeep.

(** ** The set-up survives every sequence of events *)

Section SetupInvariant.

Variable querySelectorText : Document → string → Completion (option ElementRef).

Lemma userEvent_keeps e p :
  listeners (userEvent querySelectorText e p) = listeners p ∧
  sameStructure (document p) (document (userEvent querySelectorText e p)).
Proof.
  destruct e as [t|t k|y]; cbn [userEvent].
  - apply (dispatchClick_keeps querySelectorText (mkEvent t "") (mkJsState p false)).
  - apply (dispatchKeydown_keeps querySelectorText (mkEvent t k) (mkJsState p false)).
  - apply (dispatchScroll_keeps
             (set_viewport (λ v, mkViewport (pageXOffset v) y y (scrollCalls v)
                                            (scrollIntoView v)) p)).
Qed.

Lemma userEvents_keep es p :
  listeners (userEvents querySelectorText es p) = listeners p ∧
  sameStructure (document p) (document (userEvents querySelectorText es p)).
Proof.
  revert p. induction es as [|e es IH]; intros p; [done|].
  unfold userEvents in *. cbn [foldl].
  destruct (userEvent_keeps e p) as [Hl Hs].
  destruct (IH (userEvent querySelectorText e p)) as [Hl' Hs'].
  split; [congruence|by etrans].
Qed.

(** X1.  Whatever the user does - any sequence of clicks, key presses and
    scrolling, on any elements, listeners throwing or not - the page keeps
    the listeners it had and a document of the same structure: tags,
    parents, ids, hrefs and every class but "active" are as they were.  So
    a page set up by the script stays set up: the elements the listeners
    captured at start-up are still the ones the selectors find. *)
Theorem events_keep_the_setup (es : list UserEvent) (p : Page) :
  hasScriptListeners p →
  wf_document (document p) →
  let p' := userEvents querySelectorText es p in
  listeners p' = listeners p ∧
  sameStructure (document p) (document p') ∧
  hasScriptListeners p' ∧
  wf_document (document p') ∧
  querySelector (document p') sel_mobile_menu_toggle
    = querySelector (document p) sel_mobile_menu_toggle ∧
  querySelector (document p') sel_nav = querySelector (document p) sel_nav ∧
  querySelector (document p') sel_header = querySelector (document p) sel_header ∧
  querySelectorAll (document p') sel_nav_a = querySelectorAll (document p) sel_nav_a ∧
  querySelectorAll (document p') sel_faq_question
    = querySelectorAll (document p) sel_faq_question ∧
  querySelectorAll (document p') sel_faq_item
    = querySelectorAll (document p) sel_faq_item ∧
  querySelectorAll (document p') sel_anchor_links
    = querySelectorAll (document p) sel_anchor_links.
Proof.
  intros Hscript Hwf p'. destruct (userEvents_keep es p) as [Hl Hs]. fold p' in Hl, Hs.
  split; [done|]. split; [done|].
  split; [by apply (hasScriptListeners_keeps p)|].
  split; [by apply (wf_document_sameStructure (document p))|].
  rewrite <- !(sameStructure_querySelector _ _ _ Hs) by done.
  by rewrite <- !(sameStructure_querySelectorAll _ _ _ Hs) by done.
Qed.

End SetupInvariant.

Lemma events_keep_the_setup_sample :
  hasScriptListeners
    (userEvents idSelectorEngine
       [PointerClick 3; PointerClick 10; KeyPress 13 "Enter"; PointerClick 5; ScrollTo 40]
       sampleLoaded).
Proof.
  destruct (events_keep_the_setup idSelectorEngine
              [PointerClick 3; PointerClick 10; KeyPress 13 "Enter"; PointerClick 5;
               ScrollTo 40] sampleLoaded) as (_ & _ & Hscript & _).
  - exact sampleLoaded_script.
  - exact sampleLoaded_wf.
  - exact Hscript.
Defined.

(** ** Keys *)

Section Keys.

Variable querySelectorText : Document → string → Completion (option ElementRef).

(** X2.  The script reacts to three keys only.  A press of any key other
    than Escape, Enter and space, with the focus anywhere, and whatever
    listeners the page carries, leaves the page exactly as it was and does
    not suppress the key's default action. *)
Theorem other_keys_are_ignored (p : Page) (t : ElementRef) (k : string) :
  k ≠ "Escape"%string → k ≠ "Enter"%string → k ≠ " "%string →
  keyPress querySelectorText t k p = mkJsState p false.
Proof.
  intros Hesc Henter Hspace. unfold keyPress, dispatchKeydown.
  apply (foldl_idle_listeners
           (λ t' l s, reportException
                        (runKeydownListener querySelectorText t' l (mkEvent t k)) s)).
  intros t' l s _ _. unfold reportException.
  destruct l as [menuToggle nav|]; destruct t' as [this| |]; cbn [runKeydownListener];
    rewrite ?escapeKeydown_run, ?faqQuestionKeydown_run; cbn [key]; try done;
    by rewrite ?bool_decide_eq_false_2 by done.
Qed.

Lemma script_keydown_on_document (p : Page) (menuToggle nav : ElementRef) :
  hasScriptListeners p →
  querySelector (document p) sel_mobile_menu_toggle = Some menuToggle →
  querySelector (document p) sel_nav = Some nav →
  listenersOn (onKeydown (listeners p)) OnDocument = [EscapeKeydown menuToggle nav] ∧
  listenersOn (onKeydown (listeners p)) OnWindow = [].
Proof.
  intros (_ & Hk & _) Hmt Hnav. rewrite Hk.
  unfold menuKeydownListeners, faqKeydownListeners. rewrite Hmt, Hnav.
  rewrite !listenersOn_app, listenersOn_singleton_here,
    listenersOn_singleton_other by done.
  by rewrite !listenersOn_elements_other.
Qed.

Lemma script_keydown_on_elements (p : Page) (a : ElementRef) l :
  hasScriptListeners p →
  l ∈ listenersOn (onKeydown (listeners p)) (OnElement a) → l = FaqQuestionKeydown.
Proof.
  intros (_ & Hk & _) Hin. apply elem_of_listenersOn in Hin. rewrite Hk in Hin.
  unfold menuKeydownListeners, faqKeydownListeners in Hin.
  apply elem_of_app in Hin as [Hin|Hin].
  - destruct (querySelector _ sel_mobile_menu_toggle); [|by apply elem_of_nil in Hin].
    destruct (querySelector _ sel_nav); [|by apply elem_of_nil in Hin].
    by apply list_elem_of_singleton in Hin.
  - by apply list_elem_of_fmap in Hin as (x & [= _ ->] & _).
Qed.

(** X3.  Escape works from anywhere.  On a page set up by the script, with
    a toggle and a navigation container, a press of Escape with the focus
    on any element closes the menu when it is open (both markers removed,
    aria-expanded "false") and leaves the page exactly as it was when the
    menu is closed; the key's default action is never suppressed. *)
Theorem escape_closes_the_menu_from_anywhere (p : Page) (t menuToggle nav : ElementRef) :
  hasScriptListeners p →
  querySelector (document p) sel_mobile_menu_toggle = Some menuToggle →
  querySelector (document p) sel_nav = Some nav →
  let s' := keyPress querySelectorText t "Escape" p in
  s' = stateAfter (escapeKeydown menuToggle nav (mkEvent t "Escape")) (mkJsState p false) ∧
  (menuOpen p nav = true → menuClosed (page s') menuToggle nav) ∧
  (menuOpen p nav = false → page s' = p) ∧
  defaultPrevented s' = false.
Proof.
  intros Hscript Hmt Hnav s'.
  destruct (script_keydown_on_document p menuToggle nav Hscript Hmt Hnav) as [Hdoc Hwin].
  assert (Hs' : s' = stateAfter (escapeKeydown menuToggle nav (mkEvent t "Escape"))
                       (mkJsState p false)).
  { unfold s', keyPress, dispatchKeydown, propagationPath.
    cbn [page document listeners target].
    change (OnElement t :: (OnElement <$> ancestors (document p) t)
              ++ [OnDocument; OnWindow])
      with ((OnElement <$> (t :: ancestors (document p) t)) ++ [OnDocument; OnWindow]).
    rewrite foldl_app.
    rewrite (foldl_idle_listeners
               (λ t' l s, reportException
                            (runKeydownListener querySelectorText t' l
                               (mkEvent t "Escape")) s)
               _ (OnElement <$> (t :: ancestors (document p) t))).
    - cbn [foldl]. rewrite Hdoc, Hwin. cbn [foldl runKeydownListener].
      unfold reportException, stateAfter. by rewrite escapeKeydown_run.
    - intros t' l s Ht' Hl. apply list_elem_of_fmap in Ht' as (a & -> & _).
      rewrite (script_keydown_on_elements p a l Hscript Hl).
      cbn [runKeydownListener]. unfold reportException.
      by rewrite faqQuestionKeydown_run. }
  split; [done|]. rewrite Hs'. unfold stateAfter. rewrite escapeKeydown_run.
  cbn [snd key page]. rewrite bool_decide_eq_true_2 by done. cbn [andb].
  apply querySelector_Some in Hmt as (_ & Hmt & _).
  split; [|split].
  - intros ->. by apply closedMenu_spec.
  - by intros ->.
  - by destruct (menuOpen p nav).
Qed.

End Keys.

Lemma other_keys_are_ignored_sample :
  keyPress idSelectorEngine 10 "Tab" sampleLoaded = mkJsState sampleLoaded false.
Proof.
  apply (other_keys_are_ignored idSelectorEngine sampleLoaded 10%nat "Tab");
    discriminate.
Defined.

Lemma escape_closes_the_menu_from_anywhere_sample :
  menuClosed (page (keyPress idSelectorEngine 13 "Escape" (page sampleMenuOpen))) 3%nat 4%nat.
Proof.
  destruct (escape_closes_the_menu_from_anywhere idSelectorEngine (page sampleMenuOpen)
              13%nat 3%nat 4%nat) as (_ & Hclose & _).
  - unfold hasScriptListeners. vm_compute. by repeat split.
  - vm_compute. reflexivity.
  - vm_compute. reflexivity.
  - apply Hclose. vm_compute. reflexivity.
Defined.

(** ** Whole clicks around the menu *)


Section MenuClicks.

Variable querySelectorText : Document → string → Completion (option ElementRef).

(** The smooth-scroll listener, throwing or not, leaves every "active"
    marker and every aria-expanded attribute as it was. *)
Lemma anchorLinkClick_sameMarkers this s :
  sameMarkers (page s)
    (page (reportException (anchorLinkClick querySelectorText this) s)).
Proof.
  unfold reportException.
  destruct (anchorLinkClick_cases querySelectorText this s)
    as [Hs|[(t & Hn & _ & _ & Hd & _)|(Hn & _ & _ & Hd & _)]];
    destruct (anchorLinkClick querySelectorText this s) as [[[]|e] s1];
    cbn in *; subst; try done.
  - intros i. unfold isActive, ariaExpanded. rewrite Hd.
    rewrite hasClass_alter_attributes. by rewrite attributeOf_setAttribute_ne by auto.
  - intros i. unfold isActive, ariaExpanded. cbn. by rewrite Hd.
Qed.



(** X5.  A whole click on an element that carries no listener and sits
    under none (not the toggle, a link, a question or an anchor link, nor
    inside one) runs the document's listener only.  Inside the navigation
    container it changes nothing, so the open menu stays open; outside it,
    it closes the menu when open; with the menu closed it changes
    nothing. *)
Theorem click_away_from_the_controls (p : Page) (menuToggle nav t : ElementRef) :
  let d := document p in
  hasScriptListeners p →
  querySelector d sel_mobile_menu_toggle = Some menuToggle →
  querySelector d sel_nav = Some nav →
  (∀ a, a = t ∨ a ∈ ancestors d t → a ≠ menuToggle ∧ plainElement d a) →
  let s' := pointerClick querySelectorText t p in
  s' = stateAfter (outsideClick menuToggle nav (mkEvent t "")) (mkJsState p false) ∧
  (contains d nav t = true → s' = mkJsState p false) ∧
  (contains d nav t = false → menuOpen p nav = true →
   menuClosed (page s') menuToggle nav) ∧
  (menuOpen p nav = false → s' = mkJsState p false).
Proof.
  intros d Hscript Hmt Hnav Hplain s'.
  destruct (script_click_listeners p menuToggle nav Hscript Hmt Hnav)
    as (_ & Hoff & Hdoc & Hwin).
  fold d in Hoff.
  apply querySelector_Some in Hmt as (_ & Hmt & _).
  assert (Hs' : s' = stateAfter (outsideClick menuToggle nav (mkEvent t ""))
                       (mkJsState p false)).
  { unfold s', pointerClick, dispatchClick, propagationPath.
    cbn [page document listeners target]. fold d.
    change (OnElement t :: (OnElement <$> ancestors d t) ++ [OnDocument; OnWindow])
      with ((OnElement <$> (t :: ancestors d t)) ++ [OnDocument; OnWindow]).
    rewrite foldl_app.
    rewrite (foldl_no_listeners
               (λ t' l s, reportException
                            (runClickListener querySelectorText t' l (mkEvent t "")) s)
               _ (OnElement <$> (t :: ancestors d t))).
    2:{ intros t' Hin. apply list_elem_of_fmap in Hin as (a & -> & Ha).
        apply elem_of_cons in Ha. destruct (Hplain a Ha). by apply Hoff. }
    cbn [foldl]. rewrite Hdoc, Hwin. cbn [foldl runClickListener].
    unfold reportException, stateAfter. by rewrite outsideClick_run. }
  assert (Hout : contains d menuToggle t = false).
  { unfold contains. apply orb_false_iff. split; apply bool_decide_eq_false.
    - intros ->. by destruct (Hplain t (or_introl eq_refl)).
    - intros Hin. by destruct (Hplain menuToggle (or_intror Hin)). }
  split; [done|]. rewrite Hs'. unfold stateAfter. rewrite outsideClick_run.
  cbn [snd target page]. fold d. rewrite Hout. cbn [negb].
  split; [|split].
  - by intros ->.
  - intros -> ->. cbn [negb andb].
    by apply (closedMenu_spec menuToggle nav (mkJsState p false)).
  - intros ->. by rewrite !andb_false_r.
Qed.

End MenuClicks.

Lemma sampleMenuOpen_script : hasScriptListeners (page sampleMenuOpen).
Proof. unfold hasScriptListeners. vm_compute. by repeat split. Qed.

Lemma sampleMenuOpen_queries :
  let d := document (page sampleMenuOpen) in
  querySelectorAll d sel_nav_a = [5; 6]%nat ∧
  querySelectorAll d sel_faq_question = [10; 13]%nat ∧
  querySelectorAll d sel_anchor_links = [5; 6]%nat ∧
  querySelector d sel_mobile_menu_toggle = Some 3%nat ∧
  querySelector d sel_nav = Some 4%nat ∧
  ancestors d 5 = [4; 2; 1; 0]%nat ∧
  ancestors d 7 = [1; 0]%nat ∧
  menuOpen (page sampleMenuOpen) 4%nat = true.
Proof. vm_compute. by repeat split. Qed.


Lemma click_away_from_the_controls_sample :
  menuClosed (page (pointerClick idSelectorEngine 7 (page sampleMenuOpen))) 3%nat 4%nat.
Proof.
  destruct sampleMenuOpen_queries
    as (Hlinks & Hquestions & Hanchors & Hmt & Hnav & _ & Hanc & Hopen).
  cbv zeta in *.
  destruct (click_away_from_the_controls idSelectorEngine (page sampleMenuOpen)
              3%nat 4%nat 7%nat) as (_ & _ & Hclosed & _).
  - exact sampleMenuOpen_script.
  - exact Hmt.
  - exact Hnav.
  - rewrite Hanc. unfold plainElement. rewrite Hlinks, Hquestions, Hanchors.
    intros a Ha. rewrite !elem_of_cons, elem_of_nil in Ha.
    rewrite !elem_of_cons, !elem_of_nil. lia.
  - apply Hclosed; [vm_compute; reflexivity|exact Hopen].
Defined.

(** ** Clicks on questions, one after the other *)

Lemma clickQuestion_spec (s : JsState) (this faqItem : ElementRef) :
  let d := document (page s) in
  let items := querySelectorAll d sel_faq_item in
  parentOf d this = Some faqItem →
  is_Some (d !! faqItem) →
  (∀ item, item ∈ items → item ≠ faqItem →
           is_Some (querySelectorIn d item sel_faq_question)) →
  let s' := clickQuestion this s in
  (faqQuestionClick this s).1 = Normal tt ∧
  sameStructure d (document (page s')) ∧
  isActive (page s') faqItem = negb (isActive (page s) faqItem) ∧
  ariaExpanded (page s') this = Some (stringOfBool (negb (isActive (page s) faqItem))) ∧
  (∀ item, item ∈ items → item ≠ faqItem → isActive (page s') item = false) ∧
  (∀ item question, item ∈ items → item ≠ faqItem →
     querySelectorIn d item sel_faq_question = Some question → question ≠ this →
     ariaExpanded (page s') question = Some "false"%string).
Proof.
  intros d items Hparent Hitem Hquestions s'.
  destruct (closeItems_loop d faqItem items s) as
    (s1 & Hrun & Hsame & _ & Hcl & Har & _ & _ & Hfi); [done|done|].
  assert (Hclick : faqQuestionClick this s =
    (Normal tt,
     onPage (set_document (toggleItemDoc this faqItem (isActive (page s) faqItem))) s1)).
  { rewrite (faqQuestionClick_unfold this faqItem s Hparent).
    rewrite closeOtherItems_unfold. fold d items. by rewrite Hrun. }
  assert (Hs' : s' = onPage (set_document
                  (toggleItemDoc this faqItem (isActive (page s) faqItem))) s1).
  { unfold s', clickQuestion, stateAfter. by rewrite Hclick. }
  split; [by rewrite Hclick|]. rewrite Hs'. clear Hclick Hs' Hrun.
  assert (Hthis : is_Some (document (page s1) !! this)).
  { apply (sameStructure_is_Some d); [done|]. fold d in Hparent.
    unfold parentOf in Hparent. by destruct (d !! this). }
  assert (Hitem1 : is_Some (document (page s1) !! faqItem))
    by by apply (sameStructure_is_Some d).
  unfold isActive, ariaExpanded in *. cbn [page onPage document set_document].
  unfold toggleItemDoc. split; [|split; [|split; [|split]]].
  - etrans; [done|]. etrans.
    + apply (sameStructure_alter _ (set_classList (toggleClass "active")) faqItem),
        sameSkeleton_toggle_active.
    + apply sameStructure_alter, sameSkeleton_set_aria.
  - rewrite hasClass_alter_attributes, hasClass_toggle_eq by done. by rewrite Hfi.
  - apply attributeOf_setAttribute_eq. by rewrite is_Some_lookup_alter.
  - intros item Hi Hne. rewrite hasClass_alter_attributes.
    rewrite hasClass_toggle_ne by auto. by apply Hcl.
  - intros item q Hi Hne Hq Hqne. rewrite attributeOf_setAttribute_ne by auto.
    rewrite attributeOf_alter_classList. by eapply Har.
Qed.

(** X6.  Two clicks on the same question undo each other.  For a question
    whose parent element is in the document, in a document where every FAQ
    item other than that parent has a question in it: both runs of the
    click listener complete, the parent has the marker it started with and
    the question says so in aria-expanded, and every FAQ item other than
    the parent is collapsed. *)
Theorem faq_same_question_twice (s : JsState) (this faqItem : ElementRef) :
  let d := document (page s) in
  let items := querySelectorAll d sel_faq_item in
  parentOf d this = Some faqItem →
  is_Some (d !! faqItem) →
  (∀ item, item ∈ items → item ≠ faqItem →
           is_Some (querySelectorIn d item sel_faq_question)) →
  let s1 := clickQuestion this s in
  let s2 := clickQuestion this s1 in
  (faqQuestionClick this s).1 = Normal tt ∧
  (faqQuestionClick this s1).1 = Normal tt ∧
  isActive (page s2) faqItem = isActive (page s) faqItem ∧
  ariaExpanded (page s2) this = Some (stringOfBool (isActive (page s) faqItem)) ∧
  (∀ item, item ∈ items → item ≠ faqItem → isActive (page s2) item = false) ∧
  (isActive (page s) faqItem = false →
   ∀ item, item ∈ items → isActive (page s2) item = false).
Proof.
  intros d items Hparent Hitem Hquestions s1 s2.
  destruct (clickQuestion_spec s this faqItem Hparent Hitem Hquestions)
    as (Hn1 & Hs1 & Ha1 & _ & _). fold d s1 in Hs1, Ha1.
  destruct (clickQuestion_spec s1 this faqItem) as (Hn2 & _ & Ha2 & Har2 & Hcl2 & _).
  - by rewrite <- (sameStructure_parentOf d).
  - by apply (sameStructure_is_Some d).
  - rewrite <- (sameStructure_querySelectorAll d) by done. intros item Hi Hne.
    rewrite <- (sameStructure_querySelectorIn d) by done. by apply Hquestions.
  - fold s2 in Ha2, Har2, Hcl2.
    rewrite <- (sameStructure_querySelectorAll d) in Hcl2 by done. fold items in Hcl2.
    rewrite Ha1, negb_involutive in Ha2, Har2.
    repeat split; try done.
    intros Hwas item Hi. destruct (decide (item = faqItem)) as [->|Hne]; [|by apply Hcl2].
    by rewrite Ha2.
Qed.

(** X7.  A click on a question and then a click on the question of another
    item.  For two questions that are children of two different FAQ items,
    the first of them being the first question inside its item, in a
    document where every FAQ item has a question in it: both runs of the
    click listener complete and, whatever was expanded before, the second
    item is expanded and it alone, its question has aria-expanded "true"
    and the first question "false". *)
Theorem faq_click_then_another (s : JsState) (this faqItem other otherItem : ElementRef) :
  let d := document (page s) in
  let items := querySelectorAll d sel_faq_item in
  itemsHaveQuestions d →
  parentOf d this = Some faqItem →
  parentOf d other = Some otherItem →
  faqItem ∈ items → otherItem ∈ items →
  faqItem ≠ otherItem →
  querySelectorIn d faqItem sel_faq_question = Some this →
  let s1 := clickQuestion this s in
  let s2 := clickQuestion other s1 in
  (faqQuestionClick this s).1 = Normal tt ∧
  (faqQuestionClick other s1).1 = Normal tt ∧
  isActive (page s2) otherItem = true ∧
  (∀ item, item ∈ items → isActive (page s2) item = true → item = otherItem) ∧
  ariaExpanded (page s2) other = Some "true"%string ∧
  ariaExpanded (page s2) this = Some "false"%string.
Proof.
  intros d items Hall Hparent Hparent' Hin Hin' Hne Hfirst s1 s2.
  assert (Hlook : ∀ i, i ∈ items → is_Some (d !! i)).
  { intros i Hi. apply lookup_lt_is_Some. by eapply querySelectorAll_lt. }
  destruct (clickQuestion_spec s this faqItem Hparent (Hlook _ Hin))
    as (Hn1 & Hs1 & _ & _ & Hcl1 & _); [by intros; apply Hall|].
  fold d s1 items in Hs1, Hcl1.
  destruct (clickQuestion_spec s1 other otherItem) as (Hn2 & _ & Ha2 & Har2 & Hcl2 & Hq2).
  - by rewrite <- (sameStructure_parentOf d).
  - apply (sameStructure_is_Some d); [done|]. by apply Hlook.
  - rewrite <- (sameStructure_querySelectorAll d) by done. intros item Hi _.
    rewrite <- (sameStructure_querySelectorIn d) by done. by apply Hall.
  - fold s2 in Ha2, Har2, Hcl2, Hq2.
    rewrite <- (sameStructure_querySelectorAll d) in Hcl2, Hq2 by done.
    fold items in Hcl2, Hq2.
    rewrite (Hcl1 otherItem) in Ha2, Har2 by done. cbn in Ha2, Har2.
    repeat split; try done.
    + intros item Hi Hact. destruct (decide (item = otherItem)) as [|Hne']; [done|].
      by rewrite Hcl2 in Hact.
    + apply (Hq2 faqItem this); [done|done| |].
      * by rewrite <- (sameStructure_querySelectorIn d).
      * intros ->. congruence.
Qed.

Lemma sampleLoaded_items :
  querySelectorAll (document sampleLoaded) sel_faq_item = [9; 12]%nat.
Proof. vm_compute. reflexivity. Qed.

Lemma sampleLoaded_itemsHaveQuestions : itemsHaveQuestions (document sampleLoaded).
Proof.
  intros item Hin. rewrite sampleLoaded_items in Hin.
  apply elem_of_cons in Hin as [->|Hin]; [exists 10%nat; vm_compute; reflexivity|].
  apply list_elem_of_singleton in Hin as ->. exists 13%nat. vm_compute. reflexivity.
Qed.

(** On the sample page the second item starts expanded and the first one
    collapsed: two clicks on the first question leave the first item
    collapsed again, and have collapsed the second one. *)
Lemma faq_same_question_twice_sample :
  let s2 := clickQuestion 10%nat (clickQuestion 10%nat (mkJsState sampleLoaded false)) in
  isActive (page s2) 9%nat = false ∧ isActive (page s2) 12%nat = false ∧
  ariaExpanded (page s2) 10%nat = Some "false"%string.
Proof.
  pose proof (faq_same_question_twice (mkJsState sampleLoaded false) 10%nat 9%nat) as H.
  cbv zeta in H.
  destruct H as (_ & _ & Hitem & Haria & Hothers & _).
  - vm_compute. reflexivity.
  - apply sampleLoaded_lookup. lia.
  - cbn [page]. intros item Hin _. exact (sampleLoaded_itemsHaveQuestions item Hin).
  - cbv zeta. split; [|split].
    + rewrite Hitem. vm_compute. reflexivity.
    + apply Hothers; [|lia]. cbn [page]. rewrite sampleLoaded_items.
      apply list_elem_of_further, list_elem_of_here.
    + rewrite Haria. vm_compute. reflexivity.
Defined.

(** On the sample page: a click on the first question, then one on the
    second, leaves the second item expanded and the first collapsed. *)
Lemma faq_click_then_another_sample :
  let s2 := clickQuestion 13%nat (clickQuestion 10%nat (mkJsState sampleLoaded false)) in
  isActive (page s2) 12%nat = true ∧ isActive (page s2) 9%nat = false ∧
  ariaExpanded (page s2) 13%nat = Some "true"%string ∧
  ariaExpanded (page s2) 10%nat = Some "false"%string.
Proof.
  pose proof (faq_click_then_another (mkJsState sampleLoaded false)
                10%nat 9%nat 13%nat 12%nat) as H.
  cbv zeta in H.
  destruct H as (_ & _ & Hopen & Honly & Haria & Haria').
  - cbn [page]. exact sampleLoaded_itemsHaveQuestions.
  - vm_compute. reflexivity.
  - vm_compute. reflexivity.
  - cbn [page]. rewrite sampleLoaded_items. apply list_elem_of_here.
  - cbn [page]. rewrite sampleLoaded_items. apply list_elem_of_further, list_elem_of_here.
  - lia.
  - vm_compute. reflexivity.
  - cbv zeta. split; [exact Hopen|]. split; [|split; [exact Haria|exact Haria']].
    apply not_true_is_false. intros Hact. apply Honly in Hact; [lia|].
    cbn [page]. rewrite sampleLoaded_items. apply list_elem_of_here.
Defined.

(** ** The accordion along every sequence of events *)

Lemma atMostOneExpanded_transfer (p p' : Page) :
  sameStructure (document p) (document p') →
  (∀ i, i ∈ querySelectorAll (document p) sel_faq_item →
        isActive p' i = true → isActive p i = true) →
  atMostOneExpanded p → atMostOneExpanded p'.
Proof.
  intros Hs Hact H i j. rewrite <- (sameStructure_querySelectorAll _ _ _ Hs) by done.
  intros Hi Hj Hai Haj. apply H; auto.
Qed.

Lemma accordionState_step (p0 : Page) (s s' : JsState) :
  keepsSetup s s' →
  (∀ i, i ∈ querySelectorAll (document p0) sel_faq_item →
        isActive (page s') i = true → isActive (page s) i = true) →
  accordionState p0 s → accordionState p0 s'.
Proof.
  intros [Hl Hs] Hact (Hl0 & Hs0 & H). split; [congruence|]. split; [by etrans|].
  apply (atMostOneExpanded_transfer (page s)); [done| |done].
  rewrite <- (sameStructure_querySelectorAll _ _ _ Hs0) by done. apply Hact.
Qed.

Lemma closeItems_loop_any faqItem (l : list ElementRef) : ∀ s,
  let r := forEach l (closeItem faqItem) s in
  (∀ j, isActive (page s) j = false → isActive (page r.2) j = false) ∧
  isActive (page r.2) faqItem = isActive (page s) faqItem ∧
  (r.1 = Normal tt →
   ∀ item, item ∈ l → item ≠ faqItem → isActive (page r.2) item = false).
Proof.
  induction l as [|item l IH]; intros s; cbn zeta.
  - cbn. repeat split; try done. intros _ item Hin. by apply elem_of_nil in Hin.
  - cbn [forEach]. unfold mbind, Js_bind.
    destruct (decide (item = faqItem)) as [->|Hitem].
    + rewrite closeItem_self. destruct (IH s) as (Hmono & Hself & Hnormal).
      repeat split; try done. intros Hn x Hin Hne.
      apply elem_of_cons in Hin as [->|Hin]; [done|]. by apply Hnormal.
    + destruct (querySelectorIn (document (page s)) item sel_faq_question)
        as [question|] eqn:Hq.
      * rewrite (closeItem_other faqItem item question s Hitem Hq).
        set (s1 := onPage (set_document (closeItemDoc item question)) s).
        assert (H1 : ∀ j, isActive (page s1) j =
                          if decide (item = j) then false else isActive (page s) j).
        { intros j. unfold isActive, s1, closeItemDoc. cbn.
          rewrite hasClass_alter_attributes.
          destruct (decide (item = j)) as [->|]; [apply hasClass_remove_eq|].
          by apply hasClass_remove_ne; left. }
        destruct (IH s1) as (Hmono & Hself & Hnormal). repeat split.
        -- intros j Hj. apply Hmono. rewrite H1. by destruct (decide _).
        -- rewrite Hself, H1. by rewrite decide_False.
        -- intros Hn x Hin Hne. apply elem_of_cons in Hin as [->|Hin]; [|by apply Hnormal].
           apply Hmono. rewrite H1. by rewrite decide_True.
      * rewrite (closeItem_no_question faqItem item s Hitem Hq). cbn.
        unfold isActive. cbn. repeat split; try done.
        -- intros j Hj. by apply hasClass_remove_false.
        -- by apply hasClass_remove_ne; left.
Qed.

(** A run of the click listener of a question keeps "at most one
    expanded", whether it completes or throws. *)
Lemma faqQuestionClick_accordion this s :
  atMostOneExpanded (page s) →
  atMostOneExpanded (page (faqQuestionClick this s).2).
Proof.
  intros H. pose proof (faqQuestionClick_keeps this s) as [_ Hs]. revert Hs.
  destruct (parentOf (document (page s)) this) as [faqItem|] eqn:Hparent.
  - rewrite (faqQuestionClick_unfold this faqItem s Hparent), closeOtherItems_unfold.
    pose proof (closeItems_loop_any faqItem
                  (querySelectorAll (document (page s)) sel_faq_item) s)
      as (Hmono & Hself & Hnormal). cbn zeta in *.
    destruct (forEach _ (closeItem faqItem) s) as [[[]|e] s1]; cbn [fst snd] in *;
      intros Hs.
    + specialize (Hnormal eq_refl). intros i j.
      rewrite <- (sameStructure_querySelectorAll _ _ _ Hs) by done.
      assert (Hother : ∀ x, x ∈ querySelectorAll (document (page s)) sel_faq_item →
                x ≠ faqItem →
                isActive (page (onPage (set_document
                  (toggleItemDoc this faqItem (isActive (page s) faqItem))) s1)) x
                = false).
      { intros x Hx Hne. unfold isActive, toggleItemDoc. cbn.
        rewrite hasClass_alter_attributes, hasClass_toggle_ne by auto.
        by apply Hnormal. }
      intros Hi Hj Hai Haj.
      destruct (decide (i = faqItem)) as [->|Hi'];
        [|by rewrite Hother in Hai].
      destruct (decide (j = faqItem)) as [->|Hj']; [done|by rewrite Hother in Haj].
    + apply (atMostOneExpanded_transfer (page s)); [done| |done].
      intros i _ Hai. destruct (isActive (page s) i) eqn:E; [done|].
      by rewrite Hmono in Hai.
  - by rewrite (faqQuestionClick_no_parent this s Hparent).
Qed.

Lemma closedMenu_active_ne menuToggle nav s i :
  i ≠ menuToggle → i ≠ nav →
  isActive (page (closedMenu menuToggle nav s)) i = isActive (page s) i.
Proof.
  intros Hmt Hnav. unfold isActive, closedMenu. cbn.
  rewrite hasClass_alter_attributes.
  by rewrite !hasClass_remove_ne by (left; congruence).
Qed.

Lemma menuToggleClick_active_ne this nav s i :
  i ≠ this → i ≠ nav →
  isActive (page (menuToggleClick this nav s).2) i = isActive (page s) i.
Proof.
  intros Hmt Hnav. unfold isActive.
  pose proof (menuToggleClick_document this nav s) as Hd. cbn zeta in Hd.
  unfold stateAfter in Hd. rewrite Hd.
  rewrite hasClass_alter_attributes.
  by rewrite !hasClass_toggle_ne by (left; congruence).
Qed.

(** The listeners of the mobile menu carry the toggle and the container
    the selectors find. *)
Lemma script_menu_click_listener (p : Page) t l :
  hasScriptListeners p →
  (t, l) ∈ onClick (listeners p) →
  match l with
  | MenuToggleClick nav =>
      ∃ menuToggle, t = OnElement menuToggle ∧
        querySelector (document p) sel_mobile_menu_toggle = Some menuToggle ∧
        querySelector (document p) sel_nav = Some nav
  | NavLinkClick menuToggle nav | OutsideClick menuToggle nav =>
      querySelector (document p) sel_mobile_menu_toggle = Some menuToggle ∧
      querySelector (document p) sel_nav = Some nav
  | _ => True
  end.
Proof.
  intros (Hc & _ & _) Hin. rewrite Hc in Hin.
  unfold menuClickListeners, faqClickListeners, anchorClickListeners in Hin.
  rewrite !elem_of_app in Hin. destruct Hin as [Hin|[Hin|Hin]].
  - destruct (querySelector _ sel_mobile_menu_toggle) as [menuToggle|];
      [|by apply elem_of_nil in Hin].
    destruct (querySelector _ sel_nav) as [nav|]; [|by apply elem_of_nil in Hin].
    rewrite !elem_of_app in Hin. destruct Hin as [Hin|[Hin|Hin]].
    + apply list_elem_of_singleton in Hin as [= -> ->]. by exists menuToggle.
    + by apply list_elem_of_fmap in Hin as (x & [= -> ->] & _).
    + by apply list_elem_of_singleton in Hin as [= -> ->].
  - by apply list_elem_of_fmap in Hin as (x & [= -> ->] & _).
  - by apply list_elem_of_fmap in Hin as (x & [= -> ->] & _).
Qed.

Lemma script_menu_keydown_listener (p : Page) t menuToggle nav :
  hasScriptListeners p →
  (t, EscapeKeydown menuToggle nav) ∈ onKeydown (listeners p) →
  querySelector (document p) sel_mobile_menu_toggle = Some menuToggle ∧
  querySelector (document p) sel_nav = Some nav.
Proof.
  intros (_ & Hk & _) Hin. rewrite Hk in Hin.
  unfold menuKeydownListeners, faqKeydownListeners in Hin.
  rewrite elem_of_app in Hin. destruct Hin as [Hin|Hin].
  - destruct (querySelector _ sel_mobile_menu_toggle) as [mt|];
      [|by apply elem_of_nil in Hin].
    destruct (querySelector _ sel_nav) as [n|]; [|by apply elem_of_nil in Hin].
    by apply list_elem_of_singleton in Hin as [= _ -> ->].
  - by apply list_elem_of_fmap in Hin as (x & [= _] & _).
Qed.

(** A dispatch whose registered listeners all keep an invariant of the
    state keeps it. *)
Lemma foldl_listeners_invariant {L} (I : JsState → Prop)
    (run : EventTarget → L → JsState → JsState)
    (registered : list (EventTarget * L)) (path : list EventTarget) :
  (∀ t l s, (t, l) ∈ registered → I s → I (run t l s)) →
  ∀ s, I s →
       I (foldl (λ s t, foldl (λ s l, run t l s) s (listenersOn registered t)) s path).
Proof.
  intros Hrun. induction path as [|t path IH]; intros s Hs; [done|].
  cbn [foldl]. apply IH.
  assert (Hin : ∀ ls s, (∀ l, l ∈ ls → (t, l) ∈ registered) → I s →
                        I (foldl (λ s l, run t l s) s ls)).
  { induction ls as [|l ls IHl]; intros s' Hsub Hs'; [done|]. cbn [foldl].
    apply IHl; [intros; by apply Hsub, list_elem_of_further|].
    apply Hrun; [apply Hsub, list_elem_of_here|done]. }
  apply Hin; [|done]. intros l. by rewrite elem_of_listenersOn.
Qed.

Lemma accordionState_reported (p0 : Page) (m : Js unit) s :
  accordionState p0 (m s).2 → accordionState p0 (reportException m s).
Proof. unfold reportException. by destruct (m s) as [[[]|e] s1]. Qed.

Section Accordion.

Variable querySelectorText : Document → string → Completion (option ElementRef).
Variable p0 : Page.
Hypothesis Hscript : hasScriptListeners p0.
Hypothesis Hmenu : menuApartFromFaq (document p0).

Lemma closedMenu_accordion menuToggle nav s :
  querySelector (document p0) sel_mobile_menu_toggle = Some menuToggle →
  querySelector (document p0) sel_nav = Some nav →
  accordionState p0 s → accordionState p0 (closedMenu menuToggle nav s).
Proof.
  intros Hmt Hnav. destruct (Hmenu _ _ Hmt Hnav) as [Hmt' Hnav'].
  apply accordionState_step; [apply closedMenu_keeps|].
  intros i Hi. rewrite closedMenu_active_ne; [done| |]; by intros ->.
Qed.

Lemma runClickListener_accordion t l event s :
  (t, l) ∈ onClick (listeners p0) →
  accordionState p0 s →
  accordionState p0 (reportException (runClickListener querySelectorText t l event) s).
Proof.
  intros Hin Hs. apply accordionState_reported.
  pose proof (script_menu_click_listener p0 t l Hscript Hin) as Hl.
  destruct l as [nav|menuToggle nav|menuToggle nav| |].
  - destruct Hl as (menuToggle & -> & Hmt & Hnav). cbn [runClickListener].
    destruct (Hmenu _ _ Hmt Hnav) as [Hmt' Hnav'].
    revert Hs. apply accordionState_step; [apply menuToggleClick_keeps|].
    intros i Hi. rewrite menuToggleClick_active_ne; [done| |]; by intros ->.
  - destruct Hl as [Hmt Hnav].
    assert (Hrun : runClickListener querySelectorText t (NavLinkClick menuToggle nav) event
                   = navLinkClick menuToggle nav) by by destruct t.
    rewrite Hrun, navLinkClick_run. by apply closedMenu_accordion.
  - destruct Hl as [Hmt Hnav].
    assert (Hrun : runClickListener querySelectorText t (OutsideClick menuToggle nav) event
                   = outsideClick menuToggle nav event) by by destruct t.
    rewrite Hrun, outsideClick_run. cbn [snd].
    destruct (_ && _ && _); [by apply closedMenu_accordion|done].
  - destruct t as [this| |]; cbn [runClickListener]; try done.
    destruct Hs as (Hl0 & Hs0 & Hone).
    pose proof (faqQuestionClick_keeps this s) as [Hl' Hs'].
    split; [congruence|]. split; [by etrans|]. by apply faqQuestionClick_accordion.
  - destruct t as [this| |]; cbn [runClickListener]; try done.
    revert Hs. apply accordionState_step; [apply anchorLinkClick_keeps|].
    intros i _.
    destruct (anchorLinkClick_cases querySelectorText this s)
      as [->|[(target & _ & _ & _ & Hd & _)|(_ & _ & _ & Hd & _)]]; [done| |].
    + unfold isActive. rewrite Hd. by rewrite hasClass_alter_attributes.
    + unfold isActive. by rewrite Hd.
Qed.

Lemma dispatchClick_accordion event s :
  accordionState p0 s → accordionState p0 (dispatchClick querySelectorText event s).
Proof.
  intros Hs. unfold dispatchClick.
  apply (foldl_listeners_invariant (accordionState p0)
           (λ t l s, reportException (runClickListener querySelectorText t l event) s));
    [|done].
  intros t l s' Hin. apply runClickListener_accordion.
  destruct Hs as (Hl & _). by rewrite <- Hl.
Qed.

Lemma runKeydownListener_accordion t l event s :
  (t, l) ∈ onKeydown (listeners p0) →
  accordionState p0 s →
  accordionState p0
    (reportException (runKeydownListener querySelectorText t l event) s).
Proof.
  intros Hin Hs. apply accordionState_reported.
  destruct l as [menuToggle nav|].
  - destruct (script_menu_keydown_listener p0 t menuToggle nav Hscript Hin)
      as [Hmt Hnav].
    assert (Hrun : runKeydownListener querySelectorText t (EscapeKeydown menuToggle nav)
                     event = escapeKeydown menuToggle nav event) by by destruct t.
    rewrite Hrun, escapeKeydown_run. cbn [snd].
    destruct (_ && _); [by apply closedMenu_accordion|done].
  - destruct t as [this| |]; cbn [runKeydownListener]; try done.
    rewrite faqQuestionKeydown_run. destruct (_ || _); [|done]. cbn [snd].
    assert (Hclick : accordionState p0
              (dispatchClick querySelectorText (mkEvent this "")
                 (mkJsState (page s) false))) by by apply dispatchClick_accordion.
    exact Hclick.
Qed.

Lemma dispatchKeydown_accordion event s :
  accordionState p0 s → accordionState p0 (dispatchKeydown querySelectorText event s).
Proof.
  intros Hs. unfold dispatchKeydown.
  apply (foldl_listeners_invariant (accordionState p0)
           (λ t l s, reportException (runKeydownListener querySelectorText t l event) s));
    [|done].
  intros t l s' Hin. apply runKeydownListener_accordion.
  destruct Hs as (Hl & _). by rewrite <- Hl.
Qed.

Lemma dispatchScroll_accordion p :
  accordionState p0 (mkJsState p false) → accordionState p0 (dispatchScroll p).
Proof.
  unfold dispatchScroll. generalize (listenersOn (onScroll (listeners p)) OnWindow).
  intros ls. generalize (mkJsState p false). induction ls as [|[header] ls IH];
    intros s Hs; [done|].
  cbn [foldl]. apply IH. apply accordionState_reported. cbn [runScrollListener].
  revert Hs. apply accordionState_step; [apply headerScroll_keeps|].
  intros i _. rewrite headerScroll_run. unfold isActive. cbn.
  by rewrite hasClass_alter_boxShadow.
Qed.

Lemma userEvent_accordion e p :
  accordionState p0 (mkJsState p false) →
  accordionState p0 (mkJsState (userEvent querySelectorText e p) false).
Proof.
  intros Hs. destruct e as [t|t k|y]; cbn [userEvent].
  - by apply (dispatchClick_accordion (mkEvent t "")) in Hs.
  - by apply (dispatchKeydown_accordion (mkEvent t k)) in Hs.
  - apply (dispatchScroll_accordion
             (set_viewport (λ v, mkViewport (pageXOffset v) y y (scrollCalls v)
                                            (scrollIntoView v)) p)).
    exact Hs.
Qed.

(** X8.  The FAQ stays an accordion.  On a page set up by the script, whose
    mobile-menu toggle and container are no FAQ items, with at most one
    FAQ item expanded: after any sequence of clicks, key presses and
    scrolling, on any elements, at most one FAQ item is expanded - also
    when the click listener of a question threw on the way. *)
Theorem faq_stays_an_accordion (es : list UserEvent) :
  atMostOneExpanded p0 →
  atMostOneExpanded (userEvents querySelectorText es p0).
Proof.
  intros Hone.
  assert (Hgen : ∀ p, accordionState p0 (mkJsState p false) →
            accordionState p0 (mkJsState (userEvents querySelectorText es p) false)).
  { induction es as [|e es' IH]; intros p Hp; [done|].
    unfold userEvents in *. cbn [foldl]. by apply IH, userEvent_accordion. }
  by destruct (Hgen p0) as (_ & _ & H).
Qed.

End Accordion.

Lemma sampleLoaded_menuApartFromFaq : menuApartFromFaq (document sampleLoaded).
Proof.
  destruct sampleLoaded_queries as (_ & _ & _ & Hitems & Hmt & Hnav & _).
  intros menuToggle nav. rewrite Hmt, Hnav, Hitems. intros [= <-] [= <-].
  rewrite !elem_of_cons, !elem_of_nil. lia.
Qed.

Lemma sampleLoaded_atMostOneExpanded : atMostOneExpanded sampleLoaded.
Proof.
  intros i j. rewrite sampleLoaded_items, !elem_of_cons, !elem_of_nil.
  intros [->|[->|[]]] [->|[->|[]]]; try done; intros Hi Hj; exfalso;
    revert Hi Hj; vm_compute; congruence.
Qed.

(** On the sample page, after opening the menu, expanding the first item
    with the pointer and the second from the keyboard, following a link
    and scrolling, at most one item is expanded. *)
Lemma faq_stays_an_accordion_sample :
  atMostOneExpanded
    (userEvents idSelectorEngine
       [PointerClick 3; PointerClick 10; KeyPress 13 " "; PointerClick 5; ScrollTo 40;
        KeyPress 10 "Escape"; PointerClick 9]
       sampleLoaded).
Proof.
  apply (faq_stays_an_accordion idSelectorEngine sampleLoaded).
  - exact sampleLoaded_script.
  - exact sampleLoaded_menuApartFromFaq.
  - exact sampleLoaded_atMostOneExpanded.
Defined.

(** ** What a click on an anchor link can leave behind *)

Section AnchorFrame.

Variable querySelectorText : Document → string → Completion (option ElementRef).

(** X9.  The outcomes of the smooth-scroll listener.  When it returns
    without having suppressed the link's default action, it has changed
    nothing at all.  When it throws, either nothing at all has changed (the
    lookup of the href threw), or the exception is the SecurityError of a
    refused [pushState]: then the default is suppressed and the scroll
    requested, and the document, the history, the focus and the position
    of the viewport are as they were.  In every case it leaves the
    listeners and every "active" marker and aria-expanded as they were,
    and requests at most one scroll. *)
Theorem anchor_click_outcomes (s : JsState) (this : ElementRef) :
  defaultPrevented s = false →
  let r := anchorLinkClick querySelectorText this s in
  (defaultPrevented r.2 = false → r.2 = s) ∧
  (∀ e, r.1 = Throw e →
        r.2 = s ∨
        (e = SecurityError ∧
         defaultPrevented r.2 = true ∧
         document (page r.2) = document (page s) ∧
         history (page r.2) = history (page s) ∧
         activeElement (page r.2) = activeElement (page s) ∧
         offsets (viewport (page r.2)) = offsets (viewport (page s)) ∧
         length (scrollCalls (viewport (page r.2)))
           = S (length (scrollCalls (viewport (page s)))))) ∧
  listeners (page r.2) = listeners (page s) ∧
  sameMarkers (page s) (page r.2) ∧
  (length (scrollCalls (viewport (page r.2)))
     ≤ S (length (scrollCalls (viewport (page s)))))%nat.
Proof.
  intros Hdefault. cbn zeta.
  destruct (anchorLinkClick_cases querySelectorText this s)
    as [->|[(target & Hn & Hp & Hl & Hd & Hcalls)
           |(Hn & Hp & Hl & Hd & Hh & Ha & Hv & Hcalls)]].
  - repeat split; try done; [by left|lia].
  - split; [congruence|]. split; [congruence|]. split; [done|].
    split; [|lia].
    intros i. unfold isActive, ariaExpanded. rewrite Hd.
    rewrite hasClass_alter_attributes. split; [done|].
    by apply attributeOf_setAttribute_ne; right.
  - split; [congruence|]. split.
    { intros e He. right. rewrite Hn in He. injection He as <-. by repeat split. }
    split; [done|]. split; [|lia].
    intros i. unfold isActive, ariaExpanded. by rewrite Hd.
Qed.

End AnchorFrame.

(** A link to "#1st" in a browser that refuses the selector: the listener
    throws a SyntaxError and the page is as it was.  The link to #services
    in a browser that refuses pushState: the listener throws a
    SecurityError and the focus has not moved. *)
Lemma anchor_click_outcomes_sample :
  (anchorLinkClick strictIdSelectorEngine 2%nat (mkJsState digitIdLoaded false)).1
    = Throw SyntaxError ∧
  (anchorLinkClick strictIdSelectorEngine 2%nat (mkJsState digitIdLoaded false)).2
    = mkJsState digitIdLoaded false ∧
  (anchorLinkClick idSelectorEngine 5%nat
     (mkJsState sampleLoadedPushStateRefused false)).1 = Throw SecurityError ∧
  activeElement
    (page (anchorLinkClick idSelectorEngine 5%nat
             (mkJsState sampleLoadedPushStateRefused false)).2)
    = activeElement sampleLoadedPushStateRefused.
Proof.
  assert (Hthrow :
    (anchorLinkClick strictIdSelectorEngine 2%nat (mkJsState digitIdLoaded false)).1
      = Throw SyntaxError) by (vm_compute; reflexivity).
  assert (Hthrow' :
    (anchorLinkClick idSelectorEngine 5%nat
       (mkJsState sampleLoadedPushStateRefused false)).1 = Throw SecurityError)
    by (vm_compute; reflexivity).
  split; [exact Hthrow|]. split; [|split; [exact Hthrow'|]].
  - pose proof (anchor_click_outcomes strictIdSelectorEngine
                  (mkJsState digitIdLoaded false) 2%nat eq_refl) as H.
    cbv zeta in H. destruct H as (_ & Hthrows & _).
    destruct (Hthrows SyntaxError Hthrow) as [Hsame|(Herr & _)]; [exact Hsame|].
    discriminate Herr.
  - pose proof (anchor_click_outcomes idSelectorEngine
                  (mkJsState sampleLoadedPushStateRefused false) 5%nat eq_refl) as H.
    cbv zeta in H. destruct H as (_ & Hthrows & _).
    destruct (Hthrows SecurityError Hthrow') as [Hsame|(_ & _ & _ & _ & Hfocus & _)];
      [by rewrite Hsame|exact Hfocus].
Defined.

(** ** The two start-up paths *)

(** X10.  The two branches of [init] set up the same page.  When the script
    runs while the document is still loading and the parser then ends with
    document [parsed], the page after DOMContentLoaded is the page that a
    script run on the already parsed document leaves: same listeners for
    clicks, keys and scrolling (found in [parsed]), same viewport, history
    and call log.  Neither path changes the document. *)
Theorem startup_paths_agree (p : Page) (parsed : Document) (r : ReadyState) :
  readyState p = Loading →
  onDOMContentLoaded (listeners p) = [] →
  r ≠ Loading →
  let early := pageLoad p parsed in
  let late := pageLoad (set_readyState r (set_document (λ _, parsed) p)) parsed in
  document early = parsed ∧
  document late = parsed ∧
  onClick (listeners early) = onClick (listeners late) ∧
  onKeydown (listeners early) = onKeydown (listeners late) ∧
  onScroll (listeners early) = onScroll (listeners late) ∧
  viewport early = viewport late ∧
  history early = history late ∧
  activeElement early = activeElement late ∧
  callLog early = callLog late ∧
  uncaught early = uncaught late ∧
  onDOMContentLoaded (listeners early) = [InitAll] ∧
  onDOMContentLoaded (listeners late) = [].
Proof.
  intros Hloading Hfresh Hr. cbn zeta. unfold pageLoad. rewrite !runScript_run.
  rewrite Hloading. cbn [readyState set_readyState set_document page].
  unfold dispatchDOMContentLoaded.
  cbn [listeners set_readyState set_document set_listeners onDOMContentLoaded].
  rewrite Hfresh. cbn [app foldl runReadyListener]. unfold reportException.
  rewrite onReady_run.
  destruct r; [done| |]; cbn; by rewrite ?Hfresh.
Qed.

(** The sample document, met still loading, ends up with the click
    listeners of the sample page. *)
Lemma startup_paths_agree_sample :
  let early := pageLoad (freshPage sampleDocument Loading true) sampleDocument in
  let late :=
    pageLoad (set_readyState Complete
                (set_document (λ _, sampleDocument)
                   (freshPage sampleDocument Loading true))) sampleDocument in
  onClick (listeners early) = onClick (listeners late) ∧
  onDOMContentLoaded (listeners early) = [InitAll].
Proof.
  pose proof (startup_paths_agree (freshPage sampleDocument Loading true)
                sampleDocument Complete eq_refl eq_refl) as H.
  cbv zeta in H. destruct H as (_ & _ & Hclick & _ & _ & _ & _ & _ & _ & _ & Hready & _);
    [discriminate|].
  cbv zeta. split; [exact Hclick|exact Hready].
Defined.

(** ** Features whose elements are missing *)

Section Guards.

Variable querySelectorText : Document → string → Completion (option ElementRef).

(** X11.  A feature whose element is missing is switched off as a whole.
    On a page set up by the script, when the document has no toggle or no
    navigation container, nothing of the menu is registered: Escape does
    nothing wherever the focus is, and a click on an element that, like
    its ancestors, is no question and no anchor link - the toggle itself,
    if there is one - leaves the page exactly as it was.  When the
    document has no header, a scroll event does nothing. *)
Theorem missing_elements_disable_features (p : Page) :
  let d := document p in
  hasScriptListeners p →
  (querySelector d sel_mobile_menu_toggle = None ∨ querySelector d sel_nav = None →
   (∀ t, keyPress querySelectorText t "Escape" p = mkJsState p false) ∧
   (∀ t, (∀ a, a ∈ t :: ancestors d t →
               (a ∉ querySelectorAll d sel_faq_question) ∧
               (a ∉ querySelectorAll d sel_anchor_links)) →
         pointerClick querySelectorText t p = mkJsState p false)) ∧
  (querySelector d sel_header = None → dispatchScroll p = mkJsState p false).
Proof.
  intros d (Hc & Hk & Hs). fold d in Hc, Hk, Hs. split.
  - intros Hmissing.
    assert (Hnoclick : menuClickListeners d = []).
    { unfold menuClickListeners. destruct Hmissing as [-> | ->]; [done|].
      by destruct (querySelector d sel_mobile_menu_toggle). }
    assert (Hnokey : menuKeydownListeners d = []).
    { unfold menuKeydownListeners. destruct Hmissing as [-> | ->]; [done|].
      by destruct (querySelector d sel_mobile_menu_toggle). }
    rewrite Hnoclick in Hc. rewrite Hnokey in Hk. cbn [app] in Hc, Hk. split.
    + intros t. unfold keyPress, dispatchKeydown.
      apply (foldl_idle_listeners
               (λ t' l s, reportException
                  (runKeydownListener querySelectorText t' l (mkEvent t "Escape")) s)).
      intros t' l s _ Hl. apply elem_of_listenersOn in Hl. cbn [page listeners] in Hl.
      rewrite Hk in Hl. unfold faqKeydownListeners in Hl.
      apply list_elem_of_fmap in Hl as (question & [= -> ->] & _).
      cbn [runKeydownListener]. unfold reportException.
      by rewrite faqQuestionKeydown_run.
    + intros t Hplain. unfold pointerClick, dispatchClick.
      apply (foldl_no_listeners
               (λ t' l s, reportException
                  (runClickListener querySelectorText t' l (mkEvent t "")) s)).
      intros t' Ht'. cbn [page listeners]. rewrite Hc, listenersOn_app.
      unfold faqClickListeners, anchorClickListeners.
      assert (Hon : ∀ x, (x ∈ querySelectorAll d sel_faq_question ∨
                          x ∈ querySelectorAll d sel_anchor_links) → t' ≠ OnElement x).
      { intros x Hx ->. unfold propagationPath in Ht'. cbn [page document target] in Ht'.
        fold d in Ht'.
        assert (Hpath : x ∈ t :: ancestors d t).
        { apply elem_of_cons in Ht' as [[= ->]|Ht']; [apply list_elem_of_here|].
          apply list_elem_of_further. apply elem_of_app in Ht' as [Ht'|Ht'].
          - by apply list_elem_of_fmap in Ht' as (y & [= ->] & Hy).
          - apply elem_of_cons in Ht' as [|Ht']; [done|].
            by apply list_elem_of_singleton in Ht'. }
        destruct (Hplain x Hpath) as [Hq Ha]. by destruct Hx. }
      rewrite !listenersOn_elements_other; [done| |]; intros x Hx; apply Hon; auto.
  - intros Hheader. unfold dispatchScroll. rewrite Hs. unfold headerScrollListeners.
    by rewrite Hheader.
Qed.

End Guards.

Lemma toggleWithoutNavLoaded_script : hasScriptListeners toggleWithoutNavLoaded.
Proof. unfold hasScriptListeners. vm_compute. by repeat split. Qed.

(** A toggle without a nav element: a click on it, Escape and scrolling
    all leave the page as it was. *)
Lemma missing_elements_disable_features_sample :
  pointerClick idSelectorEngine 2%nat toggleWithoutNavLoaded
    = mkJsState toggleWithoutNavLoaded false ∧
  keyPress idSelectorEngine 2%nat "Escape" toggleWithoutNavLoaded
    = mkJsState toggleWithoutNavLoaded false ∧
  dispatchScroll toggleWithoutNavLoaded = mkJsState toggleWithoutNavLoaded false.
Proof.
  pose proof (missing_elements_disable_features idSelectorEngine toggleWithoutNavLoaded
                toggleWithoutNavLoaded_script) as H.
  cbv zeta in H. destruct H as [Hmenu Hheader].
  destruct Hmenu as [Hescape Hclick]; [right; vm_compute; reflexivity|].
  split; [|split].
  - apply Hclick.
    assert (Hanc : ancestors (document toggleWithoutNavLoaded) 2 = [1; 0]%nat)
      by (vm_compute; reflexivity).
    assert (Hq : querySelectorAll (document toggleWithoutNavLoaded) sel_faq_question = [])
      by (vm_compute; reflexivity).
    assert (Ha : querySelectorAll (document toggleWithoutNavLoaded) sel_anchor_links = [])
      by (vm_compute; reflexivity).
    intros a _. rewrite Hq, Ha. split; apply not_elem_of_nil.
  - apply Hescape.
  - apply Hheader. vm_compute. reflexivity.
Defined.

(** ** Opening the menu and closing it again *)

Lemma toggleClass_twice c (cs : gset string) : toggleClass c (toggleClass c cs) = cs.
Proof.
  unfold toggleClass. destruct (decide (c ∈ cs)) as [Hin|Hout].
  - rewrite (bool_decide_eq_true_2 _ Hin).
    rewrite bool_decide_eq_false_2 by set_solver.
    apply set_eq. intros x. rewrite elem_of_union, elem_of_difference, elem_of_singleton.
    destruct (decide (x = c)) as [->|]; naive_solver.
  - rewrite (bool_decide_eq_false_2 _ Hout).
    rewrite bool_decide_eq_true_2 by set_solver.
    apply set_eq. intros x. rewrite elem_of_difference, elem_of_union, elem_of_singleton.
    destruct (decide (x = c)) as [->|]; naive_solver.
Qed.

Lemma toggleClass_remove c (cs : gset string) :
  c ∉ cs → toggleClass c cs ∖ {[c]} = cs.
Proof.
  intros Hout. unfold toggleClass. rewrite (bool_decide_eq_false_2 _ Hout).
  apply set_eq. intros x. rewrite elem_of_difference, elem_of_union, elem_of_singleton.
  destruct (decide (x = c)) as [->|]; naive_solver.
Qed.

Lemma onPage_document_back f g s :
  g (f (document (page s))) = document (page s) →
  onPage (set_document g) (onPage (set_document f) s) = s.
Proof.
  destruct s as [[d ? ? ? ? ? ? ? ?] ?]. unfold onPage, set_document. cbn.
  intros Hd. by rewrite Hd.
Qed.

Lemma menuToggleClick_state this nav s :
  stateAfter (menuToggleClick this nav) s
  = onPage (set_document (toggleMenuDoc this nav)) s.
Proof. reflexivity. Qed.

Lemma closedMenu_state menuToggle nav s :
  closedMenu menuToggle nav s = onPage (set_document (closeMenuDoc menuToggle nav)) s.
Proof. reflexivity. Qed.

(** What the toggle's listener does to the toggle, to the container and to
    any other element. *)
Lemma toggleMenuDoc_lookup this nav (d : Document) k :
  this ≠ nav →
  is_Some (d !! nav) →
  toggleMenuDoc this nav d !! k
  = if decide (k = this)
    then set_attributes
           (insert "aria-expanded" (stringOfBool (negb (hasClass d nav "active"))))
         <$> (set_classList (toggleClass "active") <$> d !! k)
    else if decide (k = nav) then set_classList (toggleClass "active") <$> d !! k
    else d !! k.
Proof.
  intros Hne Hnav'. unfold toggleMenuDoc. cbn zeta.
  assert (Hnav : hasClass (alter (set_classList (toggleClass "active")) nav
                    (alter (set_classList (toggleClass "active")) this d)) nav "active"
                 = negb (hasClass d nav "active")).
  { rewrite hasClass_toggle_eq by by rewrite is_Some_lookup_alter.
    by rewrite hasClass_toggle_ne by by left. }
  rewrite Hnav, !list_lookup_alter.
  repeat case_decide; simplify_eq; done.
Qed.

Lemma closeMenuDoc_lookup menuToggle nav (d : Document) k :
  menuToggle ≠ nav →
  closeMenuDoc menuToggle nav d !! k
  = if decide (k = menuToggle)
    then set_attributes (insert "aria-expanded" "false"%string)
         <$> (set_classList (λ cs, cs ∖ {["active"]}) <$> d !! k)
    else if decide (k = nav)
         then set_classList (λ cs, cs ∖ {["active"]}) <$> d !! k
    else d !! k.
Proof.
  intros Hne. unfold closeMenuDoc. rewrite !list_lookup_alter.
  repeat case_decide; simplify_eq; done.
Qed.

Lemma hasClass_toggleMenuDoc_nav this nav (d : Document) :
  this ≠ nav → is_Some (d !! nav) →
  hasClass (toggleMenuDoc this nav d) nav "active" = negb (hasClass d nav "active").
Proof.
  intros Hne [en Hen]. unfold hasClass.
  rewrite toggleMenuDoc_lookup, decide_False, decide_True by done.
  rewrite Hen. cbn.
  destruct (bool_decide ("active" ∈ classList en)) eqn:Hc; cbn.
  - apply bool_decide_eq_false. rewrite elem_of_toggleClass.
    apply bool_decide_eq_true in Hc. tauto.
  - apply bool_decide_eq_true. rewrite elem_of_toggleClass.
    by apply bool_decide_eq_false in Hc.
Qed.

Lemma toggleMenuDoc_twice this nav (d : Document) :
  this ≠ nav → is_Some (d !! nav) →
  attributeOf d this "aria-expanded" = Some (stringOfBool (hasClass d nav "active")) →
  toggleMenuDoc this nav (toggleMenuDoc this nav d) = d.
Proof.
  intros Hne Hnav Haria. apply list_eq. intros k.
  rewrite (toggleMenuDoc_lookup this nav (toggleMenuDoc this nav d) k Hne)
    by (rewrite toggleMenuDoc_lookup, decide_False, decide_True by done;
        by apply fmap_is_Some).
  rewrite hasClass_toggleMenuDoc_nav, negb_involutive by done.
  rewrite toggleMenuDoc_lookup by done.
  destruct (decide (k = this)) as [->|Hk].
  - unfold attributeOf in Haria. destruct (d !! this) as [et|]; [|done].
    cbn in *. f_equal. destruct et as [? ? cs attrs ? ? ?].
    unfold set_attributes, set_classList. cbn in *. f_equal.
    + apply toggleClass_twice.
    + rewrite insert_insert_eq. by apply insert_id.
  - destruct (decide (k = nav)) as [->|Hk']; [|done].
    destruct (d !! nav) as [en|]; [|done]. cbn. f_equal.
    destruct en as [? ? cs attrs ? ? ?].
    unfold set_classList. cbn. f_equal. apply toggleClass_twice.
Qed.

Lemma closeMenuDoc_toggleMenuDoc menuToggle nav (d : Document) :
  menuToggle ≠ nav → is_Some (d !! nav) →
  hasClass d nav "active" = false →
  hasClass d menuToggle "active" = false →
  attributeOf d menuToggle "aria-expanded" = Some "false"%string →
  closeMenuDoc menuToggle nav (toggleMenuDoc menuToggle nav d) = d.
Proof.
  intros Hne Hin Hnav Hmt Haria. apply list_eq. intros k.
  rewrite closeMenuDoc_lookup, toggleMenuDoc_lookup by done.
  unfold hasClass, attributeOf in *.
  destruct (decide (k = menuToggle)) as [->|Hk].
  - destruct (d !! menuToggle) as [et|]; [|done].
    cbn in *. f_equal. destruct et as [? ? cs attrs ? ? ?].
    unfold set_attributes, set_classList. cbn in *. f_equal.
    + apply toggleClass_remove. by apply bool_decide_eq_false in Hmt.
    + rewrite insert_insert_eq. by apply insert_id.
  - destruct (decide (k = nav)) as [->|Hk']; [|done].
    destruct (d !! nav) as [en|]; [|done]. cbn in *. f_equal.
    destruct en as [? ? cs attrs ? ? ?].
    unfold set_classList. cbn in *. f_equal.
    apply toggleClass_remove. by apply bool_decide_eq_false in Hnav.
Qed.

(** X12.  Round trips of the menu.  With the toggle's aria-expanded in
    step with the container's marker, two clicks on the toggle give back
    exactly the state they started from.  And from a closed menu, one
    click on the toggle followed by any of the closing events - a click on
    a navigation link, Escape, a click outside - gives back exactly the
    starting state: closing leaves nothing of the opening behind.  (The
    toggle and the container are two elements of the document.) *)
Theorem menu_round_trips (s : JsState) (menuToggle nav : ElementRef) (event : Event) :
  let d := document (page s) in
  menuToggle ≠ nav →
  is_Some (d !! nav) →
  ariaExpanded (page s) menuToggle = Some (stringOfBool (isActive (page s) nav)) →
  let clicked := stateAfter (menuToggleClick menuToggle nav) s in
  stateAfter (menuToggleClick menuToggle nav) clicked = s ∧
  (menuClosed (page s) menuToggle nav →
   menuOpen (page clicked) nav = true ∧
   stateAfter (navLinkClick menuToggle nav) clicked = s ∧
   (key event = "Escape"%string →
    stateAfter (escapeKeydown menuToggle nav event) clicked = s) ∧
   (contains d nav (target event) = false →
    contains d menuToggle (target event) = false →
    stateAfter (outsideClick menuToggle nav event) clicked = s)).
Proof.
  intros d Hne Hin Haria clicked. unfold clicked. subst d. rewrite !menuToggleClick_state.
  split; [by apply onPage_document_back, toggleMenuDoc_twice|].
  intros (Hnav & Hmt & Hfalse). unfold menuOpen, isActive in *.
  cbn [page onPage document set_document].
  assert (Hopen : hasClass (toggleMenuDoc menuToggle nav (document (page s))) nav "active" = true)
    by by rewrite hasClass_toggleMenuDoc_nav, Hnav.
  assert (Hclose : closedMenu menuToggle nav
                     (onPage (set_document (toggleMenuDoc menuToggle nav)) s) = s).
  { rewrite closedMenu_state. by apply onPage_document_back, closeMenuDoc_toggleMenuDoc. }
  assert (Hsame : sameStructure (document (page s)) (toggleMenuDoc menuToggle nav (document (page s)))).
  { destruct (menuToggleClick_frame menuToggle nav s) as (_ & Hs & _). exact Hs. }
  split; [done|]. split; [exact Hclose|]. split.
  - intros Hkey. unfold stateAfter. rewrite escapeKeydown_run. cbn [snd].
    unfold menuOpen, isActive. cbn [page onPage document set_document].
    rewrite Hopen, Hkey. exact Hclose.
  - intros Hout Hout'. unfold stateAfter. rewrite outsideClick_run. cbn [snd].
    unfold menuOpen, isActive. cbn [page onPage document set_document].
    rewrite <- (sameStructure_contains (document (page s)) _ nav) by done.
    rewrite <- (sameStructure_contains (document (page s)) _ menuToggle) by done.
    rewrite Hout, Hout', Hopen. exact Hclose.
Qed.

(** The sample page after two clicks on the toggle has its menu closed and
    aria-expanded "false": a third and a fourth click, or a third click
    and then a click on a navigation link, lead back to exactly that
    state. *)
Lemma menu_round_trips_sample :
  let s := toggleClicks 3 4 2 sampleLoaded in
  let clicked := stateAfter (menuToggleClick 3%nat 4%nat) s in
  stateAfter (menuToggleClick 3%nat 4%nat) clicked = s ∧
  stateAfter (navLinkClick 3%nat 4%nat) clicked = s.
Proof.
  pose proof (menu_round_trips (toggleClicks 3 4 2 sampleLoaded) 3%nat 4%nat
                (mkEvent 0%nat "Escape")) as H.
  cbv zeta in H. destruct H as (Htwice & Hclosed).
  - lia.
  - apply lookup_lt_is_Some. vm_compute. lia.
  - vm_compute. reflexivity.
  - cbv zeta. split; [exact Htwice|].
    destruct Hclosed as (_ & Hlink & _); [|exact Hlink].
    repeat split; vm_compute; reflexivity.
Defined.

(** ** A click on a question while the menu is open *)

Lemma closeItems_loop_frame faqItem (l : list ElementRef) j : ∀ s,
  j ∉ l →
  isActive (page (forEach l (closeItem faqItem) s).2) j = isActive (page s) j.
Proof.
  induction l as [|item l IH]; intros s Hj; [done|].
  apply not_elem_of_cons in Hj as [Hne Hj].
  cbn [forEach]. unfold mbind, Js_bind.
  destruct (decide (item = faqItem)) as [->|Hitem].
  - rewrite closeItem_self. by apply IH.
  - destruct (querySelectorIn (document (page s)) item sel_faq_question)
      as [question|] eqn:Hq.
    + rewrite (closeItem_other faqItem item question s Hitem Hq).
      rewrite IH by done. unfold isActive, closeItemDoc. cbn.
      rewrite hasClass_alter_attributes. by apply hasClass_remove_ne; left.
    + rewrite (closeItem_no_question faqItem item s Hitem Hq). cbn.
      unfold isActive. cbn. by apply hasClass_remove_ne; left.
Qed.

(** The click listener of a question touches the marker of FAQ items and
    of the question's parent only. *)
Lemma faqQuestionClick_frame this s j :
  j ∉ querySelectorAll (document (page s)) sel_faq_item →
  parentOf (document (page s)) this ≠ Some j →
  isActive (page (faqQuestionClick this s).2) j = isActive (page s) j.
Proof.
  intros Hj Hparent.
  destruct (parentOf (document (page s)) this) as [faqItem|] eqn:Hp.
  - rewrite (faqQuestionClick_unfold this faqItem s Hp), closeOtherItems_unfold.
    pose proof (closeItems_loop_frame faqItem _ j s Hj) as Hloop.
    destruct (forEach _ (closeItem faqItem) s) as [[[]|e] s1]; cbn [snd] in *; [|done].
    rewrite <- Hloop. unfold isActive, toggleItemDoc. cbn.
    rewrite hasClass_alter_attributes. apply hasClass_toggle_ne. left. congruence.
  - by rewrite (faqQuestionClick_no_parent this s Hp).
Qed.

Lemma parentOf_in_ancestors (d : Document) i a :
  parentOf d i = Some a → a ∈ ancestors d i.
Proof.
  intros Hp. unfold ancestors.
  assert (Hlen : (i < length d)%nat).
  { apply lookup_lt_is_Some. unfold parentOf in Hp. by destruct (d !! i). }
  destruct (length d) as [|n]; [lia|]. cbn. rewrite Hp. apply list_elem_of_here.
Qed.

Section QuestionClicks.

Variable querySelectorText : Document → string → Completion (option ElementRef).

Lemma script_click_on_question (p : Page) (menuToggle nav question : ElementRef) :
  let d := document p in
  hasScriptListeners p →
  querySelector d sel_mobile_menu_toggle = Some menuToggle →
  querySelector d sel_nav = Some nav →
  question ∈ querySelectorAll d sel_faq_question →
  question ≠ menuToggle →
  question ∉ querySelectorAll d sel_nav_a →
  question ∉ querySelectorAll d sel_anchor_links →
  listenersOn (onClick (listeners p)) (OnElement question) = [FaqQuestionClick].
Proof.
  intros d (Hc & _ & _) Hmt Hnav Hq Hne Hlink Hanchor. fold d in Hc. rewrite Hc.
  unfold menuClickListeners, faqClickListeners, anchorClickListeners.
  rewrite Hmt, Hnav. rewrite !listenersOn_app.
  rewrite !listenersOn_singleton_other by congruence.
  rewrite (listenersOn_elements_other (querySelectorAll d sel_nav_a))
    by (intros x Hx [= ->]; done).
  rewrite (listenersOn_elements_here _ _ question (querySelectorAll_NoDup d _) Hq).
  by rewrite listenersOn_elements_other by (intros x Hx [= ->]; done).
Qed.

(** X13.  A click on a question is also a click outside the menu.  On a
    page set up by the script, with a well-formed document in which every
    FAQ item has a question in it and the navigation container is no FAQ
    item; for a question with a parent element, which like each of its
    ancestors is neither the toggle nor the container, no navigation link
    and no anchor link, and none of whose ancestors is a question: the
    click runs the question's listener and then, bubbling, the document's.
    The marker of the question's parent is flipped and every other FAQ
    item collapsed, and a menu that was open is closed by the same click;
    a closed menu is left as it is. *)
Theorem question_click_closes_the_open_menu
    (p : Page) (menuToggle nav question faqItem : ElementRef) :
  let d := document p in
  hasScriptListeners p →
  wf_document d →
  querySelector d sel_mobile_menu_toggle = Some menuToggle →
  querySelector d sel_nav = Some nav →
  question ∈ querySelectorAll d sel_faq_question →
  parentOf d question = Some faqItem →
  itemsHaveQuestions d →
  nav ∉ querySelectorAll d sel_faq_item →
  (∀ a, a = question ∨ a ∈ ancestors d question →
        a ≠ menuToggle ∧ a ≠ nav ∧
        (a ∉ querySelectorAll d sel_nav_a) ∧
        (a ∉ querySelectorAll d sel_anchor_links)) →
  (∀ a, a ∈ ancestors d question → a ∉ querySelectorAll d sel_faq_question) →
  let s1 := clickQuestion question (mkJsState p false) in
  let s' := pointerClick querySelectorText question p in
  s' = stateAfter (outsideClick menuToggle nav (mkEvent question "")) s1 ∧
  isActive (page s') faqItem = negb (isActive p faqItem) ∧
  (∀ item, item ∈ querySelectorAll d sel_faq_item → item ≠ faqItem →
           isActive (page s') item = false) ∧
  (menuOpen p nav = true → menuClosed (page s') menuToggle nav) ∧
  (menuOpen p nav = false → s' = s1).
Proof.
  intros d Hscript Hwf Hmt Hnav Hq Hparent Hitems Hnavitem Hapart Hnested s1 s'.
  destruct (Hapart question (or_introl eq_refl)) as (Hqmt & Hqnav & Hqlink & Hqanchor).
  pose proof (script_click_on_question p menuToggle nav question
                Hscript Hmt Hnav Hq Hqmt Hqlink Hqanchor) as Hon.
  destruct (script_click_listeners p menuToggle nav Hscript Hmt Hnav)
    as (_ & Hoff & Hdoc & Hwin).
  fold d in Hoff.
  pose proof (parentOf_in_ancestors d question faqItem Hparent) as Hanc.
  destruct (Hapart faqItem (or_intror Hanc)) as (Himt & Hinav & _).
  assert (Hitem : is_Some (d !! faqItem)).
  { apply lookup_lt_is_Some. unfold parentOf in Hparent.
    destruct (d !! question) as [e|] eqn:He; [|done]. cbn in Hparent.
    pose proof (Hwf question e faqItem He Hparent).
    apply lookup_lt_Some in He. lia. }
  destruct (clickQuestion_spec (mkJsState p false) question faqItem Hparent Hitem)
    as (Hn & Hsame & Hflip & _ & Hothers & _); [by intros; apply Hitems|].
  cbn [page] in Hsame, Hflip, Hothers. fold d s1 in Hsame, Hflip, Hothers.
  assert (Hfirst : reportException (faqQuestionClick question) (mkJsState p false) = s1).
  { unfold reportException, s1, clickQuestion, stateAfter.
    by destruct (faqQuestionClick question (mkJsState p false)) as [[[]|e] s2]. }
  assert (Hopen1 : menuOpen (page s1) nav = menuOpen p nav).
  { unfold menuOpen, s1, clickQuestion, stateAfter.
    apply (faqQuestionClick_frame question (mkJsState p false) nav); [done|].
    cbn [page]. fold d. congruence. }
  assert (Houtside : ∀ x, x ≠ question → x ∉ ancestors d question →
                          contains (document (page s1)) x question = false).
  { intros x H1 H2. rewrite <- (sameStructure_contains d) by done.
    unfold contains. apply orb_false_iff. split; by apply bool_decide_eq_false. }
  assert (Hout : contains (document (page s1)) nav question = false).
  { apply Houtside; [congruence|].
    intros Hin. by destruct (Hapart _ (or_intror Hin)) as (? & ? & _). }
  assert (Hout' : contains (document (page s1)) menuToggle question = false).
  { apply Houtside; [congruence|].
    intros Hin. by destruct (Hapart _ (or_intror Hin)) as (? & ? & _). }
  assert (Hs' : s' = if menuOpen p nav then closedMenu menuToggle nav s1 else s1).
  { unfold s', pointerClick, dispatchClick, propagationPath.
    cbn [page document listeners target foldl]. fold d. rewrite Hon.
    cbn [foldl runClickListener]. rewrite Hfirst. rewrite foldl_app.
    rewrite (foldl_no_listeners
               (λ t l s, reportException
                           (runClickListener querySelectorText t l
                              (mkEvent question "")) s)
               _ (OnElement <$> ancestors d question)).
    2:{ intros t Hin. apply list_elem_of_fmap in Hin as (a & -> & Ha).
        destruct (Hapart a (or_intror Ha)) as (? & ? & ? & ?).
        apply Hoff; [done|]. repeat split; try done. by apply Hnested. }
    cbn [foldl]. rewrite Hdoc, Hwin. cbn [foldl runClickListener].
    unfold reportException. rewrite outsideClick_run. cbn [target].
    by rewrite Hout, Hout', Hopen1. }
  split.
  { rewrite Hs'. unfold stateAfter. rewrite outsideClick_run. cbn [snd target].
    by rewrite Hout, Hout', Hopen1. }
  rewrite Hs'. destruct (menuOpen p nav) eqn:Hopen.
  - split; [by rewrite closedMenu_active_ne|]. split.
    + intros item Hi Hne. unfold isActive, closedMenu. cbn.
      rewrite hasClass_alter_attributes.
      apply hasClass_remove_false, hasClass_remove_false. by apply Hothers.
    + split; [|done]. intros _. apply closedMenu_spec.
      apply (sameStructure_is_Some d); [done|].
      by apply querySelector_Some in Hmt as (_ & Hmt & _).
  - by repeat split.
Qed.

End QuestionClicks.

Lemma sampleMenuOpen_faq :
  let d := document (page sampleMenuOpen) in
  wf_documentb d = true ∧
  querySelectorAll d sel_faq_item = [9; 12]%nat ∧
  querySelectorIn d 9 sel_faq_question = Some 10%nat ∧
  querySelectorIn d 12 sel_faq_question = Some 13%nat ∧
  parentOf d 10 = Some 9%nat ∧
  ancestors d 10 = [9; 8; 1; 0]%nat ∧
  isActive (page sampleMenuOpen) 9%nat = false.
Proof. vm_compute. by repeat split. Qed.

(** On the sample page with the menu open, a click on the first question
    expands its item and closes the menu. *)
Lemma question_click_closes_the_open_menu_sample :
  let s' := pointerClick idSelectorEngine 10 (page sampleMenuOpen) in
  isActive (page s') 9%nat = true ∧ menuClosed (page s') 3%nat 4%nat.
Proof.
  destruct sampleMenuOpen_queries
    as (Hlinks & Hquestions & Hanchors & Hmt & Hnav & _ & _ & Hopen).
  destruct sampleMenuOpen_faq as (Hwf & Hitems & Hq9 & Hq12 & Hparent & Hanc & Hwas).
  cbv zeta in *.
  destruct (question_click_closes_the_open_menu idSelectorEngine (page sampleMenuOpen)
              3%nat 4%nat 10%nat 9%nat) as (_ & Hflip & _ & Hclosed & _).
  - exact sampleMenuOpen_script.
  - apply wf_documentb_correct. exact Hwf.
  - exact Hmt.
  - exact Hnav.
  - rewrite Hquestions. apply list_elem_of_here.
  - exact Hparent.
  - intros item. rewrite Hitems, !elem_of_cons, elem_of_nil.
    intros [->|[->|[]]]; [by rewrite Hq9|by rewrite Hq12].
  - rewrite Hitems, !elem_of_cons, elem_of_nil. lia.
  - rewrite Hanc, Hlinks, Hanchors. intros a Ha.
    rewrite !elem_of_cons, elem_of_nil in Ha.
    rewrite !elem_of_cons, !elem_of_nil. lia.
  - rewrite Hanc, Hquestions. intros a Ha.
    rewrite !elem_of_cons, elem_of_nil in Ha.
    rewrite !elem_of_cons, !elem_of_nil. lia.
  - split; [by rewrite Hflip, Hwas|by apply Hclosed].
Defined.

(** ** The menu along every sequence of events *)

Lemma querySelectorIn_elem_of (d : Document) root s i :
  querySelectorIn d root s = Some i → i ∈ querySelectorAll d s.
Proof.
  unfold querySelectorIn. intros Hh.
  apply head_Some_elem_of in Hh. by apply list_elem_of_filter in Hh as [_ ?].
Qed.

Lemma closeItems_loop_aria_frame (d0 : Document) faqItem (l : list ElementRef) j : ∀ s,
  sameStructure d0 (document (page s)) →
  j ∉ querySelectorAll d0 sel_faq_question →
  ariaExpanded (page (forEach l (closeItem faqItem) s).2) j = ariaExpanded (page s) j.
Proof.
  induction l as [|item l IH]; intros s Hsame Hj; [done|].
  cbn [forEach]. unfold mbind, Js_bind.
  destruct (decide (item = faqItem)) as [->|Hitem].
  - rewrite closeItem_self. by apply IH.
  - destruct (querySelectorIn (document (page s)) item sel_faq_question)
      as [question|] eqn:Hq.
    + rewrite (closeItem_other faqItem item question s Hitem Hq).
      rewrite IH; [|by etrans; [done|apply closeItemDoc_sameStructure]|done].
      unfold ariaExpanded, closeItemDoc. cbn.
      rewrite attributeOf_setAttribute_ne, attributeOf_alter_classList; [done|].
      left. intros ->. apply Hj.
      rewrite (sameStructure_querySelectorAll d0 (document (page s))) by done.
      by eapply querySelectorIn_elem_of.
    + rewrite (closeItem_no_question faqItem item s Hitem Hq). cbn.
      unfold ariaExpanded. cbn. by rewrite attributeOf_alter_classList.
Qed.

(** The click listener of a question writes aria-expanded on questions
    only. *)
Lemma faqQuestionClick_aria_frame this s j :
  j ≠ this →
  j ∉ querySelectorAll (document (page s)) sel_faq_question →
  ariaExpanded (page (faqQuestionClick this s).2) j = ariaExpanded (page s) j.
Proof.
  intros Hne Hj.
  destruct (parentOf (document (page s)) this) as [faqItem|] eqn:Hp.
  - rewrite (faqQuestionClick_unfold this faqItem s Hp), closeOtherItems_unfold.
    pose proof (closeItems_loop_aria_frame (document (page s)) faqItem
                  (querySelectorAll (document (page s)) sel_faq_item) j s
                  (reflexivity _) Hj) as Hloop.
    destruct (forEach _ (closeItem faqItem) s) as [[[]|e] s1]; cbn [snd] in *; [|done].
    rewrite <- Hloop. unfold ariaExpanded, toggleItemDoc. cbn.
    rewrite attributeOf_setAttribute_ne by (left; congruence).
    by rewrite attributeOf_alter_classList.
  - by rewrite (faqQuestionClick_no_parent this s Hp).
Qed.

Lemma script_faq_click_listener (p : Page) t :
  hasScriptListeners p →
  (t, FaqQuestionClick) ∈ onClick (listeners p) →
  ∃ question, t = OnElement question ∧
              question ∈ querySelectorAll (document p) sel_faq_question.
Proof.
  intros (Hc & _ & _) Hin. rewrite Hc in Hin.
  unfold menuClickListeners, faqClickListeners, anchorClickListeners in Hin.
  rewrite !elem_of_app in Hin. destruct Hin as [Hin|[Hin|Hin]].
  - destruct (querySelector _ sel_mobile_menu_toggle) as [menuToggle|];
      [|by apply elem_of_nil in Hin].
    destruct (querySelector _ sel_nav) as [nav|]; [|by apply elem_of_nil in Hin].
    rewrite !elem_of_app in Hin. destruct Hin as [Hin|[Hin|Hin]].
    + by apply list_elem_of_singleton in Hin.
    + by apply list_elem_of_fmap in Hin as (x & [= _] & _).
    + by apply list_elem_of_singleton in Hin.
  - apply list_elem_of_fmap in Hin as (x & [= ->] & Hx). by exists x.
  - by apply list_elem_of_fmap in Hin as (x & [= _] & _).
Qed.

Lemma menuState_reported (p0 : Page) menuToggle nav (m : Js unit) s :
  menuState p0 menuToggle nav (m s).2 →
  menuState p0 menuToggle nav (reportException m s).
Proof. unfold reportException. by destruct (m s) as [[[]|e] s1]. Qed.

(** A step that keeps the set-up and the three observations of the menu
    keeps the state of the menu. *)
Lemma menuState_frame (p0 : Page) menuToggle nav s s' :
  keepsSetup s s' →
  isActive (page s') menuToggle = isActive (page s) menuToggle →
  isActive (page s') nav = isActive (page s) nav →
  ariaExpanded (page s') menuToggle = ariaExpanded (page s) menuToggle →
  menuState p0 menuToggle nav s → menuState p0 menuToggle nav s'.
Proof.
  intros [Hl Hs] Hmt Hnav Haria (Hl0 & Hs0 & Heq & Hsync).
  split; [congruence|]. split; [by etrans|].
  unfold markersEqual, ariaInSync in *. rewrite Hmt, Hnav, Haria. by split.
Qed.

Section MenuInvariant.

Variable querySelectorText : Document → string → Completion (option ElementRef).
Variable p0 : Page.
Variables menuToggle nav : ElementRef.
Hypothesis Hscript : hasScriptListeners p0.
Hypothesis Hmt : querySelector (document p0) sel_mobile_menu_toggle = Some menuToggle.
Hypothesis Hnav : querySelector (document p0) sel_nav = Some nav.
Hypothesis Hapart : faqApartFromMenu (document p0) menuToggle nav.

Lemma runMenuListener_menuState r s :
  menuState p0 menuToggle nav s →
  menuState p0 menuToggle nav (stateAfter (runMenuListener menuToggle nav r) s).
Proof.
  intros (Hl & Hs & Heq & Hsync).
  assert (Hmt' : is_Some (document (page s) !! menuToggle)).
  { apply (sameStructure_is_Some (document p0)); [done|].
    by apply querySelector_Some in Hmt as (_ & ? & _). }
  assert (Hnav' : is_Some (document (page s) !! nav)).
  { apply (sameStructure_is_Some (document p0)); [done|].
    by apply querySelector_Some in Hnav as (_ & ? & _). }
  destruct (runMenuListener_step menuToggle nav r s Hmt' Hnav' Heq)
    as (_ & _ & _ & Heq' & Hwrites & Hidle).
  destruct (writesAria menuToggle nav r s) eqn:Hw.
  - assert (Hkeeps : keepsSetup s (stateAfter (runMenuListener menuToggle nav r) s)).
    { unfold stateAfter.
      destruct r as [| |event|event]; cbn [runMenuListener];
        rewrite ?navLinkClick_run, ?outsideClick_run, ?escapeKeydown_run; cbn [snd].
      - apply menuToggleClick_keeps.
      - apply closedMenu_keeps.
      - destruct (_ && _ && _); [apply closedMenu_keeps|done].
      - destruct (_ && _); [apply closedMenu_keeps|done]. }
    destruct Hkeeps as [Hl' Hs'].
    split; [congruence|]. split; [by etrans|]. split; [done|]. intros _. by apply Hwrites.
  - rewrite Hidle by done. by repeat split.
Qed.

Lemma faqQuestionClick_menuState this s :
  this ∈ querySelectorAll (document p0) sel_faq_question →
  menuState p0 menuToggle nav s →
  menuState p0 menuToggle nav (faqQuestionClick this s).2.
Proof.
  intros Hthis Hstate. pose proof Hstate as (_ & Hs & _).
  destruct Hapart as (Hmi & Hni & Hmq & Hparents).
  destruct (Hparents this Hthis) as [Hpm Hpn].
  revert Hstate. apply menuState_frame; [apply faqQuestionClick_keeps| | |].
  - apply faqQuestionClick_frame.
    + by rewrite <- (sameStructure_querySelectorAll (document p0)).
    + by rewrite <- (sameStructure_parentOf (document p0)).
  - apply faqQuestionClick_frame.
    + by rewrite <- (sameStructure_querySelectorAll (document p0)).
    + by rewrite <- (sameStructure_parentOf (document p0)).
  - apply faqQuestionClick_aria_frame; [by intros ->|].
    by rewrite <- (sameStructure_querySelectorAll (document p0)).
Qed.

Lemma runClickListener_menuState t l event s :
  (t, l) ∈ onClick (listeners p0) →
  menuState p0 menuToggle nav s →
  menuState p0 menuToggle nav
    (reportException (runClickListener querySelectorText t l event) s).
Proof.
  intros Hin Hstate.
  pose proof (script_menu_click_listener p0 t l Hscript Hin) as Hl.
  destruct l as [nav'|menuToggle' nav'|menuToggle' nav'| |].
  - destruct Hl as (menuToggle' & -> & Hmt' & Hnav').
    assert (menuToggle' = menuToggle) as -> by congruence.
    assert (nav' = nav) as -> by congruence.
    apply menuState_reported. cbn [runClickListener].
    by apply (runMenuListener_menuState RunToggleClick).
  - destruct Hl as [Hmt' Hnav'].
    assert (menuToggle' = menuToggle) as -> by congruence.
    assert (nav' = nav) as -> by congruence.
    apply menuState_reported.
    assert (Hrun : runClickListener querySelectorText t (NavLinkClick menuToggle nav) event
                   = navLinkClick menuToggle nav) by by destruct t.
    rewrite Hrun. by apply (runMenuListener_menuState RunNavLinkClick).
  - destruct Hl as [Hmt' Hnav'].
    assert (menuToggle' = menuToggle) as -> by congruence.
    assert (nav' = nav) as -> by congruence.
    apply menuState_reported.
    assert (Hrun : runClickListener querySelectorText t (OutsideClick menuToggle nav) event
                   = outsideClick menuToggle nav event) by by destruct t.
    rewrite Hrun. by apply (runMenuListener_menuState (RunOutsideClick event)).
  - destruct (script_faq_click_listener p0 t Hscript Hin) as (question & -> & Hq).
    apply menuState_reported. cbn [runClickListener].
    by apply faqQuestionClick_menuState.
  - destruct t as [this| |]; cbn [runClickListener]; try done.
    pose proof (anchorLinkClick_sameMarkers querySelectorText this s) as Hsame.
    pose proof (runClickListener_keeps querySelectorText (OnElement this)
                  AnchorLinkClick event s) as Hkeeps.
    cbn [runClickListener] in Hkeeps.
    revert Hstate. apply menuState_frame; [done| | |]; apply Hsame.
Qed.

Lemma dispatchClick_menuState event s :
  menuState p0 menuToggle nav s →
  menuState p0 menuToggle nav (dispatchClick querySelectorText event s).
Proof.
  intros Hs. unfold dispatchClick.
  apply (foldl_listeners_invariant (menuState p0 menuToggle nav)
           (λ t l s, reportException (runClickListener querySelectorText t l event) s));
    [|done].
  intros t l s' Hin. apply runClickListener_menuState.
  destruct Hs as (Hl & _). by rewrite <- Hl.
Qed.

Lemma runKeydownListener_menuState t l event s :
  (t, l) ∈ onKeydown (listeners p0) →
  menuState p0 menuToggle nav s →
  menuState p0 menuToggle nav
    (reportException (runKeydownListener querySelectorText t l event) s).
Proof.
  intros Hin Hs. apply menuState_reported.
  destruct l as [menuToggle' nav'|].
  - destruct (script_menu_keydown_listener p0 t menuToggle' nav' Hscript Hin)
      as [Hmt' Hnav'].
    assert (menuToggle' = menuToggle) as -> by congruence.
    assert (nav' = nav) as -> by congruence.
    assert (Hrun : runKeydownListener querySelectorText t (EscapeKeydown menuToggle nav)
                     event = escapeKeydown menuToggle nav event) by by destruct t.
    rewrite Hrun. by apply (runMenuListener_menuState (RunEscapeKeydown event)).
  - destruct t as [this| |]; cbn [runKeydownListener]; try done.
    rewrite faqQuestionKeydown_run. destruct (_ || _); [|done]. cbn [snd].
    assert (Hclick : menuState p0 menuToggle nav
              (dispatchClick querySelectorText (mkEvent this "")
                 (mkJsState (page s) false))) by by apply dispatchClick_menuState.
    exact Hclick.
Qed.

Lemma dispatchKeydown_menuState event s :
  menuState p0 menuToggle nav s →
  menuState p0 menuToggle nav (dispatchKeydown querySelectorText event s).
Proof.
  intros Hs. unfold dispatchKeydown.
  apply (foldl_listeners_invariant (menuState p0 menuToggle nav)
           (λ t l s, reportException (runKeydownListener querySelectorText t l event) s));
    [|done].
  intros t l s' Hin. apply runKeydownListener_menuState.
  destruct Hs as (Hl & _). by rewrite <- Hl.
Qed.

Lemma dispatchScroll_menuState p :
  menuState p0 menuToggle nav (mkJsState p false) →
  menuState p0 menuToggle nav (dispatchScroll p).
Proof.
  unfold dispatchScroll. generalize (listenersOn (onScroll (listeners p)) OnWindow).
  intros ls. generalize (mkJsState p false). induction ls as [|[header] ls IH];
    intros s Hs; [done|].
  cbn [foldl]. apply IH. apply menuState_reported. cbn [runScrollListener].
  revert Hs. apply menuState_frame; [apply headerScroll_keeps| | |];
    rewrite headerScroll_run; unfold isActive, ariaExpanded, attributeOf; cbn;
    rewrite ?hasClass_alter_boxShadow; try done.
  rewrite list_lookup_alter. destruct (decide (header = menuToggle)) as [->|]; [|done].
  by destruct (document (page s) !! menuToggle).
Qed.

Lemma userEvent_menuState e p :
  menuState p0 menuToggle nav (mkJsState p false) →
  menuState p0 menuToggle nav (mkJsState (userEvent querySelectorText e p) false).
Proof.
  intros Hs. destruct e as [t|t k|y]; cbn [userEvent].
  - by apply (dispatchClick_menuState (mkEvent t "")) in Hs.
  - by apply (dispatchKeydown_menuState (mkEvent t k)) in Hs.
  - apply (dispatchScroll_menuState
             (set_viewport (λ v, mkViewport (pageXOffset v) y y (scrollCalls v)
                                            (scrollIntoView v)) p)).
    exact Hs.
Qed.

(** X14.  The menu stays consistent on the whole page.  On a page set up by
    the script whose FAQ is apart from the two elements of the menu, with
    the toggle's marker equal to the container's: after any sequence of
    clicks, key presses and scrolling, on any elements, the two markers
    are equal; and if the toggle's aria-expanded said what the markers
    say, it still does.  No listener of another feature gets in the way. *)
Theorem menu_stays_consistent (es : list UserEvent) :
  markersEqual p0 menuToggle nav →
  let p := userEvents querySelectorText es p0 in
  markersEqual p menuToggle nav ∧
  (ariaInSync p0 menuToggle nav → ariaInSync p menuToggle nav).
Proof.
  intros Heq.
  assert (Hgen : ∀ p, menuState p0 menuToggle nav (mkJsState p false) →
            menuState p0 menuToggle nav
              (mkJsState (userEvents querySelectorText es p) false)).
  { induction es as [|e es' IH]; intros p Hp; [done|].
    unfold userEvents in *. cbn [foldl]. by apply IH, userEvent_menuState. }
  by destruct (Hgen p0) as (_ & _ & H1 & H2).
Qed.

End MenuInvariant.

Lemma sampleLoaded_faqApartFromMenu : faqApartFromMenu (document sampleLoaded) 3 4.
Proof.
  destruct sampleLoaded_queries as (_ & Hquestions & _ & Hitems & _).
  unfold faqApartFromMenu. rewrite Hquestions, Hitems.
  split; [|split; [|split]]; try (rewrite !elem_of_cons, !elem_of_nil; lia).
  intros question. rewrite !elem_of_cons, !elem_of_nil.
  intros [->|[->|[]]]; split; vm_compute; congruence.
Qed.

(** On the sample page the two markers agree after the menu was opened, a
    question clicked, another expanded from the keyboard, a link followed
    and Escape pressed. *)
Lemma menu_stays_consistent_sample :
  markersEqual
    (userEvents idSelectorEngine
       [PointerClick 3; PointerClick 10; KeyPress 13 "Enter"; PointerClick 5;
        KeyPress 10 "Escape"; ScrollTo 40]
       sampleLoaded) 3 4.
Proof.
  destruct sampleLoaded_queries as (_ & _ & _ & _ & Hmt & Hnav & _).
  destruct (menu_stays_consistent idSelectorEngine sampleLoaded 3%nat 4%nat
              sampleLoaded_script Hmt Hnav sampleLoaded_faqApartFromMenu
              [PointerClick 3; PointerClick 10; KeyPress 13 "Enter"; PointerClick 5;
               KeyPress 10 "Escape"; ScrollTo 40]) as [Heq _].
  - vm_compute. reflexivity.
  - exact Heq.
Defined.

(** ** A click on a question that throws *)

Lemma closeItems_loop_error faqItem (l : list ElementRef) e : ∀ s,
  (forEach l (closeItem faqItem) s).1 = Throw e → e = TypeError.
Proof.
  induction l as [|item l IH]; intros s; [done|].
  cbn [forEach]. unfold mbind, Js_bind.
  destruct (decide (item = faqItem)) as [->|Hitem].
  - rewrite closeItem_self. apply IH.
  - destruct (querySelectorIn (document (page s)) item sel_faq_question)
      as [question|] eqn:Hq.
    + rewrite (closeItem_other faqItem item question s Hitem Hq). apply IH.
    + rewrite (closeItem_no_question faqItem item s Hitem Hq). cbn. congruence.
Qed.

(** X15.  A click on a question that throws has expanded nothing.  The
    exception is a TypeError; the listeners and the structure of the
    document are as before; no element has gained the "active" marker; the
    item of the clicked question has the marker it had, so the click the
    user made is lost; and only FAQ items can have lost theirs. *)
Theorem faq_click_that_throws_expands_nothing (s : JsState) (this : ElementRef)
    (e : JsError) :
  (faqQuestionClick this s).1 = Throw e →
  let d := document (page s) in
  let s' := (faqQuestionClick this s).2 in
  e = TypeError ∧
  keepsSetup s s' ∧
  (∀ j, isActive (page s) j = false → isActive (page s') j = false) ∧
  (∀ faqItem, parentOf d this = Some faqItem →
              isActive (page s') faqItem = isActive (page s) faqItem) ∧
  (∀ j, j ∉ querySelectorAll d sel_faq_item →
        isActive (page s') j = isActive (page s) j) ∧
  (parentOf d this = None → s' = s).
Proof.
  intros Hthrow d s'. split; [|split; [apply faqQuestionClick_keeps|]].
  - revert Hthrow. destruct (parentOf d this) as [faqItem|] eqn:Hp.
    + rewrite (faqQuestionClick_unfold this faqItem s Hp), closeOtherItems_unfold.
      pose proof (closeItems_loop_error faqItem
                    (querySelectorAll (document (page s)) sel_faq_item) e s) as Herr.
      destruct (forEach _ (closeItem faqItem) s) as [[[]|e'] s1]; cbn in *; [done|].
      intros [= ->]. by apply Herr.
    + rewrite (faqQuestionClick_no_parent this s Hp). cbn. congruence.
  - unfold s'. revert Hthrow. destruct (parentOf d this) as [faqItem|] eqn:Hp.
    + rewrite (faqQuestionClick_unfold this faqItem s Hp), closeOtherItems_unfold.
      pose proof (closeItems_loop_any faqItem
                    (querySelectorAll (document (page s)) sel_faq_item) s)
        as (Hmono & Hself & _).
      pose proof (λ j, closeItems_loop_frame faqItem
                    (querySelectorAll (document (page s)) sel_faq_item) j s) as Hframe.
      cbn zeta in *.
      destruct (forEach _ (closeItem faqItem) s) as [[[]|e'] s1]; cbn [fst snd] in *;
        [done|].
      intros _. repeat split; try done. by intros ? [= <-].
    + rewrite (faqQuestionClick_no_parent this s Hp). cbn. by repeat split.
Qed.

(** The page whose second item has no question: the click on the first
    question throws a TypeError and its item stays collapsed. *)
Lemma faq_click_that_throws_expands_nothing_sample :
  (faqQuestionClick 3%nat (mkJsState itemWithoutQuestionLoaded false)).1
    = Throw TypeError ∧
  isActive (page (faqQuestionClick 3%nat (mkJsState itemWithoutQuestionLoaded false)).2)
           2%nat = false.
Proof.
  assert (Hthrow :
    (faqQuestionClick 3%nat (mkJsState itemWithoutQuestionLoaded false)).1
      = Throw TypeError) by (vm_compute; reflexivity).
  split; [exact Hthrow|].
  pose proof (faq_click_that_throws_expands_nothing
                (mkJsState itemWithoutQuestionLoaded false) 3%nat TypeError Hthrow) as H.
  cbv zeta in H. destruct H as (_ & _ & _ & Hitem & _).
  rewrite (Hitem 2%nat); vm_compute; reflexivity.
Defined.
